(** * GitHub-Repo-Extractor: a shallow embedding of [extractor.py]

    The development follows the layout of the script:

    - [Py]        the Python built-ins the script relies on ([str.strip],
                  [str] of an [int], [readlines], list indexing,
                  [datetime.strftime] for [TIME_FORM_STR]);
    - [GitHub]    the pygithub objects the extractors read (pull requests,
                  issues, commits, files) and the throttled remote service;
    - [Eff]       a small state-and-exception monad: Python locals survive a
                  raised exception, which is what the retry loops observe;
    - [Extractor] the functions of [extractor.py], one definition each;
    - [Progress], [Samples]  loop invariants and sample repositories;
    - [PyFacts], [Normalisation], [Auth], [Loops], [Alignment], [Commits],
      [Issues], [Backoff]  the properties of the extraction engine.

    Strings are [string] (characters are code points below 256), Python
    [int]s are [Z], Python lists are [list]. Lists that the script builds
    are rebound before they are extended in place, so no two entries of a
    metalist share a list that is changed later, and values stand for the
    objects.

    The pygithub client is not part of the repository. Of its operations,
    those on a [PaginatedList], [paged[i]] and [paged.totalCount], go to
    the service and may raise [RateLimitExceededException]; reading an
    attribute of an object already fetched does not. Console output is
    left out. *)

From Stdlib Require Import ZArith List String Ascii Bool Lia.
From Stdlib Require Import DecimalString DecimalZ DecimalPos.
Import ListNotations.

Open Scope string_scope.
Open Scope Z_scope.

(* ===================================================================== *)
(** * Python built-ins *)
(* ===================================================================== *)

Module Py.

(** The character ['\n']. *)
Definition newline : ascii := "010"%char.

(** The one-character string ["\n"]. *)
Definition NL : string := String newline EmptyString.

(** The one-character string holding a double quote (the script writes
    it as an escaped quote between quotes). *)
Definition DQ : string := String "034"%char EmptyString.

(** [c in chars], for the argument of [str.strip( chars )]. *)
Fixpoint in_chars (chars : string) (c : ascii) : bool :=
  match chars with
  | EmptyString => false
  | String d chars' => Ascii.eqb c d || in_chars chars' c
  end.

(** [str.isspace] on one character: TAB, LF, VT, FF, CR, FS, GS, RS, US,
    space, NEL and NBSP. *)
Definition isspace (c : ascii) : bool :=
  let n := Z.of_nat (nat_of_ascii c) in
  ((9 <=? n) && (n <=? 13)) || ((28 <=? n) && (n <=? 32))
  || (n =? 133) || (n =? 160).

(** Drop the leading characters that satisfy [p]. *)
Fixpoint lstrip (p : ascii -> bool) (s : string) : string :=
  match s with
  | EmptyString => EmptyString
  | String c s' => if p c then lstrip p s' else s
  end.

(** Drop the trailing characters that satisfy [p]. *)
Fixpoint rstrip (p : ascii -> bool) (s : string) : string :=
  match s with
  | EmptyString => EmptyString
  | String c s' =>
      match rstrip p s' with
      | EmptyString => if p c then EmptyString else String c EmptyString
      | r => String c r
      end
  end.

(** [s.strip( chars )]: both ends, nothing in between. *)
Definition strip_chars (s chars : string) : string :=
  rstrip (in_chars chars) (lstrip (in_chars chars) s).

(** [s.strip()]: whitespace at both ends. *)
Definition strip (s : string) : string :=
  rstrip isspace (lstrip isspace s).

(** [len( s ) > 0]. *)
Definition nonempty (s : string) : bool :=
  match s with EmptyString => false | String _ _ => true end.

(** [c in s] for a character. *)
Fixpoint contains (c : ascii) (s : string) : bool :=
  match s with
  | EmptyString => false
  | String d s' => Ascii.eqb c d || contains c s'
  end.

(** [file.readlines()] on the decoded text of a file: every line keeps
    its terminating ['\n']; a last line without one is kept as it is. *)
Fixpoint readlines (text : string) : list string :=
  match text with
  | EmptyString => []
  | String c text' =>
      if Ascii.eqb c newline then String c EmptyString :: readlines text'
      else match readlines text' with
           | [] => [String c EmptyString]
           | line :: lines => String c line :: lines
           end
  end.

(** [str( n )] for an [int]. *)
Definition str_int (n : Z) : string := NilZero.string_of_int (Z.to_int n).

(** [str( x )] for a value that is a [str] or [None]. *)
Definition str_opt (x : option string) : string :=
  match x with
  | Some s => s
  | None => "None"
  end.

(** [l[i]] on a Python list: a negative index counts from the end, an
    index out of range has no element ([IndexError] at the call site). *)
Definition getitem {A : Type} (l : list A) (i : Z) : option A :=
  let len := Z.of_nat (List.length l) in
  if 0 <=? i then nth_error l (Z.to_nat i)
  else if 0 <=? i + len then nth_error l (Z.to_nat (i + len))
  else None.

(** A [datetime.datetime] value. *)
Record datetime : Type := mkDatetime {
  year   : Z;
  month  : Z;
  day    : Z;
  hour   : Z;
  minute : Z;
  second : Z
}.

(** A number zero-padded to two digits ([%m], [%d], [%y], ...). *)
Definition two_digits (n : Z) : string :=
  if n <? 10 then ("0" ++ str_int n)%string else str_int n.

(** [%I]: the hour on a 12-hour clock. *)
Definition hour12 (h : Z) : Z :=
  if h mod 12 =? 0 then 12 else h mod 12.

(** [%p] in the C locale. *)
Definition am_pm (h : Z) : string := if h <? 12 then "AM" else "PM".

(** [d.strftime( "%m/%d/%y %I:%M:%S %p" )], the script's
    [TIME_FORM_STR]. *)
Definition strftime_TIME_FORM_STR (d : datetime) : string :=
  (two_digits (month d) ++ "/" ++ two_digits (day d) ++ "/"
   ++ two_digits (year d mod 100) ++ " "
   ++ two_digits (hour12 (hour d)) ++ ":" ++ two_digits (minute d) ++ ":"
   ++ two_digits (second d) ++ " " ++ am_pm (hour d))%string.

End Py.

(* ===================================================================== *)
(** * The pygithub objects and the remote service *)
(* ===================================================================== *)

Module GitHub.
Import Py.

(** A [github.File.File] of a commit. *)
Record File : Type := mkFile {
  filename  : string;
  additions : Z;
  changes   : Z;
  patch     : option string;
  deletions : Z;
  status    : string
}.

(** A [github.Commit.Commit]: [author_name] is [commit.author.name],
    [author_date] is [commit.author.date], [committer_name] is
    [commit.committer.name], [message] is [commit.message]. *)
Record Commit : Type := mkCommit {
  author_name    : string;
  author_date    : datetime;
  committer_name : string;
  message        : string;
  sha            : string;
  files          : list File
}.

(** A [github.PullRequest.PullRequest]; [pr_commits] is the collection
    behind [get_commits()], oldest commit first. *)
Record PullRequest : Type := mkPullRequest {
  number       : Z;
  pr_login     : string;
  pr_body      : option string;
  pr_closed_at : option datetime;
  pr_comments  : Z;
  pr_title     : string;
  pr_commits   : list Commit
}.

(** A [github.Issue.Issue]; [pull_request] is [None] for an issue that
    has no pull request attached. *)
Record Issue : Type := mkIssue {
  issue_user_name : option string;
  issue_body      : option string;
  issue_comments  : Z;
  issue_closed_at : option datetime;
  issue_title     : string;
  pull_request    : option string
}.

(** The exceptions the script can meet. Only the first is ever caught. *)
Inductive exn : Type :=
| RateLimitExceededException
| IndexError
| AttributeError.

(** The world outside the script: [throttle] says, request by request,
    whether the service answers it ([false]) or refuses it for lack of
    quota ([true]); requests past the end of the schedule are answered.
    [clock] is [int( time.time() )] and [rate_limiting_resettime] the
    attribute of the session of that name. *)
Record world : Type := mkWorld {
  throttle                : list bool;
  clock                   : Z;
  rate_limiting_resettime : Z
}.

(** A world in which every request is answered. *)
Definition unthrottled (now : Z) : world := mkWorld [] now now.

(** One request to the service: [None] when it is refused. *)
Definition request (w : world) : option world :=
  match throttle w with
  | [] => Some w
  | false :: rest => Some (mkWorld rest (clock w) (rate_limiting_resettime w))
  | true :: rest => None
  end.

(** The world after a refused request. *)
Definition refused (w : world) : world :=
  mkWorld (tl (throttle w)) (clock w) (rate_limiting_resettime w).

(** [time.sleep( 1 )]. *)
Definition sleep1 (w : world) : world :=
  mkWorld (throttle w) (clock w + 1) (rate_limiting_resettime w).

End GitHub.

(* ===================================================================== *)
(** * Effects: locals, the world, exceptions *)
(* ===================================================================== *)

Module Eff.
Import Py GitHub.

(** A block of statements over the locals [L] of a function: it ends
    normally with a value or raises, and in both cases leaves the locals
    and the world as they were at that point. *)
Definition M (L A : Type) : Type := L -> world -> (exn + A) * L * world.

Definition ret {L A : Type} (a : A) : M L A :=
  fun l w => (inr a, l, w).

Definition bind {L A B : Type} (m : M L A) (k : A -> M L B) : M L B :=
  fun l w =>
    match m l w with
    | (inr a, l', w') => k a l' w'
    | (inl e, l', w') => (inl e, l', w')
    end.

(** Read the locals. *)
Definition gets {L A : Type} (f : L -> A) : M L A :=
  fun l w => (inr (f l), l, w).

(** An assignment to a local. *)
Definition modify {L : Type} (f : L -> L) : M L unit :=
  fun l w => (inr tt, f l, w).

(** A pure computation that may raise. *)
Definition lift {L A : Type} (r : exn + A) : M L A :=
  fun l w => (r, l, w).

(** A value that must not be missing. *)
Definition from_option {A : Type} (e : exn) (o : option A) : exn + A :=
  match o with
  | Some a => inr a
  | None => inl e
  end.

(** One remote request. *)
Definition remote {L : Type} : M L unit :=
  fun l w =>
    match request w with
    | Some w' => (inr tt, l, w')
    | None => (inl RateLimitExceededException, l, refused w)
    end.

Declare Scope eff_scope.
Delimit Scope eff_scope with eff.
Notation "x <- c ;; k" := (bind c (fun x => k))
  (at level 61, c at next level, right associativity) : eff_scope.
Notation "c ;; k" := (bind c (fun _ => k))
  (at level 61, right associativity) : eff_scope.
Open Scope eff_scope.

(** The element of a remote collection at an index, if there is one. *)
Definition lookup {A : Type} (paged : list A) (i : Z) : option A :=
  if 0 <=? i then nth_error paged (Z.to_nat i) else None.

(** [paged[i]] on a [PaginatedList]: the page is requested from the
    service, then the element is looked up. *)
Definition paged_getitem {L A : Type} (paged : list A) (i : Z) : M L A :=
  remote ;;
  lift (from_option IndexError (lookup paged i)).

(** [paged.totalCount]. *)
Definition totalCount {L A : Type} (paged : list A) : M L Z :=
  remote ;;
  ret (Z.of_nat (List.length paged)).

(** [l[i]] on a Python list. *)
Definition item {A : Type} (l : list A) (i : Z) : exn + A :=
  from_option IndexError (getitem l i).

(** How a function call ends: it returns, it raises, or the model ran
    out of [fuel] before the loop was over. *)
Inductive outcome (A : Type) : Type :=
| Returned (a : A)
| Raised (e : exn)
| OutOfFuel.
Arguments Returned {A} a.
Arguments Raised {A} e.
Arguments OutOfFuel {A}.

End Eff.

(* ===================================================================== *)
(** * extractor.py *)
(* ===================================================================== *)

Module Extractor.
Import Py GitHub Eff.

(** ** Constants *)

Definition COMMIT_COL_NAMES : list string :=
  ["Author_Login"; "Committer_login"; "PR_Number";
   "SHA"; "Commit_Message"; "File_name";
   "Patch_text"; "Additions"; "Deletions";
   "Status"; "Changes"].

Definition PR_COL_NAMES : list string :=
  ["PR_Number"; "Issue_Closed_Date"; "Issue_Author";
   "Issue_Title"; "Issue_Body"; "PR_Closed_Date";
   "PR_Author"; "PR_Title"; "PR_Body"; "PR_Comments";
   "Issue_Comments"; "Commit_Author"; "Commit_Date";
   "Commit_Message"; "isPR"].

Definition RATE_LIMIT : Z := 5.

(** The literal the script writes for an absent value. *)
Definition SENTINEL : string := " =||= ".

(** ** Values *)

(** What a field of a fragment can hold: a [str], an [int] or a list of
    [str] (the file names of a commit). *)
Inductive pyval : Type :=
| VStr (s : string)
| VInt (n : Z)
| VList (l : list string).

(** An entry of [commits_list]: a commit object or the sentinel string
    standing in for one. *)
Inductive commit_ref : Type :=
| Ref (c : Commit)
| NoCommit.

(** A fragment, and a row handed to [writer.writerow]. *)
Definition fragment : Type := list pyval.
Definition row : Type := list pyval.

(** ** read_user_info and the session of main *)

(** The body of the [for value in userinfo_list] loop. *)
Definition read_user_info_step (parsed_userinfo_list : list string)
    (value : string) : list string :=
  let newLine_stripped_value := strip_chars value NL in
  let space_stripped_value := strip newLine_stripped_value in
  if nonempty space_stripped_value
  then (parsed_userinfo_list ++ [space_stripped_value])%list
  else parsed_userinfo_list.

(** [read_user_info], on the text of the file. *)
Definition read_user_info (userinfo_text : string) : list string :=
  let userinfo_list := readlines userinfo_text in
  fold_left read_user_info_step userinfo_list [].

(** The argument [main] gives to [github.Github]: [userauth_list[0]]. *)
Definition main_login_or_token (userinfo_text : string) : exn + string :=
  let userauth_list := read_user_info userinfo_text in
  item userauth_list 0.

(** ** get_limit_info, run_timer, timer *)

(** [get_limit_info( session, "reset" )]. *)
Definition get_limit_info_reset (w : world) : Z :=
  let reset_time_secs := rate_limiting_resettime w in
  let cur_time_secs := clock w in
  reset_time_secs - cur_time_secs.

(** [timer]: one second of sleep for every unit of a positive
    [countdown_time], none otherwise. *)
Definition timer (countdown_time : Z) (w : world) : world :=
  Z.iter countdown_time sleep1 w.

Definition run_timer (w : world) : world :=
  let sleep_time := get_limit_info_reset w in
  timer sleep_time w.

(** ** The retry loop

    The three extractors share one loop shape:
<<
    while cond:
        try:
            body
        except github.RateLimitExceededException:
            run_timer( session )
>>
    [body] leaves its locals as they are when it raises; any other
    exception leaves the function. *)
Fixpoint while_try {L : Type} (fuel : nat) (cond : L -> bool)
    (body : M L unit) (l : L) (w : world) : outcome L * world :=
  match fuel with
  | O => (OutOfFuel, w)
  | S fuel' =>
      if cond l then
        match body l w with
        | (inr tt, l', w') => while_try fuel' cond body l' w'
        | (inl RateLimitExceededException, l', w') =>
            while_try fuel' cond body l' (run_timer w')
        | (inl e, _, w') => (Raised e, w')
        end
      else (Returned l, w)
  end.

(** ** get_PR_info *)

Record PR_locals : Type := mkPR_locals {
  commits_list       : list commit_ref;
  index              : Z;
  most_recent_commit : commit_ref;
  pr_info_list       : fragment;
  pr_metalist        : list fragment
}.

Definition PR_init : PR_locals := mkPR_locals [] 0 NoCommit [] [].

(** The comment count of a pull request or an issue as the script stores
    it: [str( n )], with the sentinel put in place of the string for
    zero. *)
Definition comment_str (n : Z) : string :=
  let s := str_int n in
  if (s =? "0")%string then SENTINEL else s.

(** A body as the script stores it: [str( body )], [strip( '\n' )], then
    a quote on each side. *)
Definition quoted_body (body : option string) : string :=
  let body_str := str_opt body in
  let body_stripped := strip_chars body_str NL in
  (DQ ++ body_stripped ++ DQ)%string.

(** [closed_at.strftime( TIME_FORM_STR )]; [closed_at] is [None] for an
    entity that is still open. *)
Definition closed_date_str (closed_at : option datetime) : exn + string :=
  match closed_at with
  | Some d => inr (strftime_TIME_FORM_STR d)
  | None => inl AttributeError
  end.

(** [pr_info_list] as it stands when it is appended to [pr_metalist]. *)
Definition PR_info_list_of (output_type : string) (cur_pr : PullRequest)
    : exn + fragment :=
  let pr_num_str := number cur_pr in
  let pr_info_list := [VInt pr_num_str] in
  if (output_type =? "pr")%string then
    let pr_author_str := pr_login cur_pr in
    match closed_date_str (pr_closed_at cur_pr) with
    | inl e => inl e
    | inr pr_closed_date_str =>
        let pr_title_str := pr_title cur_pr in
        let pr_body_str := quoted_body (pr_body cur_pr) in
        let pr_comment_str := comment_str (pr_comments cur_pr) in
        inr (pr_info_list ++
               [VStr pr_author_str;
                VStr pr_body_str;
                VStr pr_closed_date_str;
                VStr pr_comment_str;
                VStr pr_title_str])%list
    end
  else inr pr_info_list.

(** The [try] block of [get_PR_info]. *)
Definition get_PR_info_try (pr_list : list PullRequest)
    (output_type : string) : M PR_locals unit :=
  i <- gets index ;;
  cur_pr <- paged_getitem pr_list i ;;
  let commits := pr_commits cur_pr in
  info <- lift (PR_info_list_of output_type cur_pr) ;;
  modify (fun l => mkPR_locals (commits_list l) (index l)
                     (most_recent_commit l) info (pr_metalist l)) ;;
  modify (fun l => mkPR_locals (commits_list l) (index l)
                     (most_recent_commit l) (pr_info_list l)
                     (pr_metalist l ++ [pr_info_list l])) ;;
  total <- totalCount commits ;;
  let last_commit_position := total - 1 in
  (if last_commit_position >=? 0 then
     c <- paged_getitem commits last_commit_position ;;
     modify (fun l => mkPR_locals (commits_list l) (index l)
                        (Ref c) (pr_info_list l) (pr_metalist l))
   else ret tt) ;;
  modify (fun l => mkPR_locals (commits_list l ++ [most_recent_commit l])
                     (index l) (most_recent_commit l) (pr_info_list l)
                     (pr_metalist l)) ;;
  modify (fun l => mkPR_locals (commits_list l) (index l + 1)
                     (most_recent_commit l) (pr_info_list l)
                     (pr_metalist l)).

Definition get_PR_info_loop (fuel : nat) (pr_list : list PullRequest)
    (output_type : string) : PR_locals -> world -> outcome PR_locals * world :=
  while_try fuel (fun l => index l <? RATE_LIMIT)
    (get_PR_info_try pr_list output_type).

Definition get_PR_info (fuel : nat) (pr_list : list PullRequest)
    (output_type : string) (w : world)
    : outcome (list fragment * list commit_ref) * world :=
  match get_PR_info_loop fuel pr_list output_type PR_init w with
  | (Returned l, w') => (Returned (pr_metalist l, commits_list l), w')
  | (Raised e, w') => (Raised e, w')
  | (OutOfFuel, w') => (OutOfFuel, w')
  end.

(** The locals of [get_PR_info] once [pr_info_list] has been built and
    appended to [pr_metalist]. *)
Definition PR_appended (info : fragment) (l : PR_locals) : PR_locals :=
  mkPR_locals (commits_list l) (index l) (most_recent_commit l) info
    (pr_metalist l ++ [info]).

(** The locals of [get_PR_info] at the end of an iteration that appends
    [c] to [commits_list]. *)
Definition PR_advanced (c : commit_ref) (l : PR_locals) : PR_locals :=
  mkPR_locals (commits_list l ++ [c]) (index l + 1) c (pr_info_list l)
    (pr_metalist l).

(** ** get_commit_info *)

Record commit_locals : Type := mkCommit_locals {
  commit_info_list     : fragment;
  commit_info_metalist : list fragment;
  commit_list_index    : Z
}.

Definition commit_init : commit_locals := mkCommit_locals [] [] 0.

(** The accumulators of the [for file in commit_files] loop. *)
Record file_totals : Type := mkFile_totals {
  file_list         : list string;
  commit_adds       : Z;
  commit_changes    : Z;
  commit_patch_text : string;
  commit_rms        : Z;
  commit_status_str : string
}.

Definition file_totals_step (t : file_totals) (file : File) : file_totals :=
  mkFile_totals
    (file_list t ++ [filename file])%list
    (commit_adds t + additions file)
    (commit_changes t + changes file)
    (commit_patch_text t ++ str_opt (patch file) ++ ", ")%string
    (commit_rms t + deletions file)
    (commit_status_str t ++ status file ++ ", ")%string.

(** [commit_info_list] as the branch [cur_commit != " =||= "] builds it. *)
Definition commit_info_list_of (output_type : string) (cur_commit : Commit)
    : fragment :=
  let commit_author := author_name cur_commit in
  let commit_message := (DQ ++ message cur_commit ++ DQ)%string in
  let commit_info_list := [VStr commit_author; VStr commit_message] in
  if (output_type =? "pr")%string then
    let commit_date_raw := author_date cur_commit in
    let commit_date := strftime_TIME_FORM_STR commit_date_raw in
    (commit_info_list ++ [VStr commit_date])%list
  else
    let commit_files := files cur_commit in
    let commit_committer := committer_name cur_commit in
    let commit_SHA := sha cur_commit in
    let t := fold_left file_totals_step commit_files
               (mkFile_totals [] 0 0 EmptyString 0 EmptyString) in
    let quoted_commit_status_str :=
      (DQ ++ commit_status_str t ++ DQ)%string in
    (commit_info_list ++
       [VStr commit_committer;
        VStr commit_SHA;
        VList (file_list t);
        VStr (commit_patch_text t);
        VInt (commit_adds t);
        VInt (commit_rms t);
        VStr quoted_commit_status_str;
        VInt (commit_changes t)])%list.

(** [commit_info_list] as it stands before the fields that depend on
    the output type are added to it. *)
Definition commit_base_list_of (cur_commit : Commit) : fragment :=
  let commit_author := author_name cur_commit in
  let commit_message := (DQ ++ message cur_commit ++ DQ)%string in
  [VStr commit_author; VStr commit_message].

(** The [try] block of [get_commit_info]. The locals that the function
    initialises to the sentinel ([commit_author], [commit_message], ...)
    are written only inside the branch for a real commit and are read
    nowhere else, so they are not part of [commit_locals]; for the
    sentinel, [commit_info_list] is appended as the previous iteration
    left it.

    A commit of the collection of a pull request comes with its author,
    committer, message and SHA, not with its files: [cur_commit.files]
    makes the object ask the service for them, and that request can be
    refused. It is read outside "pr" mode only, after [commit_info_list]
    has been set to author and message. The model asks at every
    reference to a commit, also at a second reference to an object that
    has its files by then. *)
Definition get_commit_info_try (commit_list : list commit_ref)
    (output_type : string) : M commit_locals unit :=
  i <- gets commit_list_index ;;
  cur_commit <- lift (item commit_list i) ;;
  match cur_commit with
  | Ref c =>
      modify (fun l => mkCommit_locals (commit_base_list_of c)
                         (commit_info_metalist l) (commit_list_index l)) ;;
      (if (output_type =? "pr")%string then ret tt
       else remote) ;;
      modify (fun l => mkCommit_locals (commit_info_list_of output_type c)
                         (commit_info_metalist l) (commit_list_index l))
  | NoCommit => ret tt
  end ;;
  modify (fun l => mkCommit_locals (commit_info_list l)
                     (commit_info_metalist l ++ [commit_info_list l])
                     (commit_list_index l)) ;;
  modify (fun l => mkCommit_locals (commit_info_list l)
                     (commit_info_metalist l) (commit_list_index l + 1)).

Definition get_commit_info_loop (fuel : nat) (commit_list : list commit_ref)
    (output_type : string)
    : commit_locals -> world -> outcome commit_locals * world :=
  while_try fuel (fun l => commit_list_index l <? RATE_LIMIT)
    (get_commit_info_try commit_list output_type).

Definition get_commit_info (fuel : nat) (commit_list : list commit_ref)
    (output_type : string) (w : world) : outcome (list fragment) * world :=
  match get_commit_info_loop fuel commit_list output_type commit_init w with
  | (Returned l, w') => (Returned (commit_info_metalist l), w')
  | (Raised e, w') => (Raised e, w')
  | (OutOfFuel, w') => (OutOfFuel, w')
  end.

(** ** get_issue_info *)

Record issue_locals : Type := mkIssue_locals {
  issue_index        : Z;
  isPR               : Z;
  issue_context_list : fragment;
  issue_metalist     : list fragment
}.

Definition issue_init : issue_locals := mkIssue_locals 0 0 [] [].

(** [issue_context_list] for the current issue, given the formatted
    closing date and the value [isPR] has at that point. *)
Definition issue_context_list_of (cur_issue : Issue)
    (issue_closed_date : string) (isPR : Z) : fragment :=
  let issue_author_str := str_opt (issue_user_name cur_issue) in
  let issue_title_str := issue_title cur_issue in
  let issue_body_str := quoted_body (issue_body cur_issue) in
  let issue_comment_str := comment_str (issue_comments cur_issue) in
  [VStr issue_closed_date;
   VStr issue_author_str;
   VStr issue_title_str;
   VStr issue_body_str;
   VStr issue_comment_str;
   VInt isPR].

(** The [try] block of [get_issue_info]. *)
Definition get_issue_info_try (issue_list : list Issue)
    : M issue_locals unit :=
  i <- gets issue_index ;;
  cur_issue <- paged_getitem issue_list i ;;
  issue_closed_date <- lift (closed_date_str (issue_closed_at cur_issue)) ;;
  match pull_request cur_issue with
  | Some _ =>
      modify (fun l => mkIssue_locals (issue_index l) 1
                         (issue_context_list l) (issue_metalist l))
  | None => ret tt
  end ;;
  modify (fun l => mkIssue_locals (issue_index l) (isPR l)
                     (issue_context_list_of cur_issue issue_closed_date
                        (isPR l))
                     (issue_metalist l)) ;;
  modify (fun l => mkIssue_locals (issue_index l) (isPR l)
                     (issue_context_list l)
                     (issue_metalist l ++ [issue_context_list l])) ;;
  modify (fun l => mkIssue_locals (issue_index l + 1) (isPR l)
                     (issue_context_list l) (issue_metalist l)).

Definition get_issue_info_loop (fuel : nat) (issue_list : list Issue)
    : issue_locals -> world -> outcome issue_locals * world :=
  while_try fuel (fun l => issue_index l <? RATE_LIMIT)
    (get_issue_info_try issue_list).

Definition get_issue_info (fuel : nat) (issue_list : list Issue)
    (w : world) : outcome (list fragment) * world :=
  match get_issue_info_loop fuel issue_list issue_init w with
  | (Returned l, w') => (Returned (issue_metalist l), w')
  | (Raised e, w') => (Raised e, w')
  | (OutOfFuel, w') => (OutOfFuel, w')
  end.

(** ** write_csv_output *)

(** Sequencing of list look-ups that may raise [IndexError]. *)
Definition and_then {A B : Type} (r : exn + A) (k : A -> exn + B)
    : exn + B :=
  match r with
  | inl e => inl e
  | inr a => k a
  end.

Notation "x <~ r ;; k" := (and_then r (fun x => k))
  (at level 61, r at next level, right associativity).

(** [output_row] for one value of [aggregation_index]. *)
Definition output_row_of (output_type : string)
    (commit_info_metalist pr_info_metalist issue_info_metalist
       : list fragment)
    (aggregation_index : Z) : exn + row :=
  cur_commit <~ item commit_info_metalist aggregation_index ;;
  commit_author <~ item cur_commit 0 ;;
  commit_message <~ item cur_commit 1 ;;
  cur_pr <~ item pr_info_metalist aggregation_index ;;
  pr_num <~ item cur_pr 0 ;;
  if (output_type =? "pr")%string then
    cur_issue <~ item issue_info_metalist aggregation_index ;;
    issue_closed_date <~ item cur_issue 0 ;;
    issue_author <~ item cur_issue 1 ;;
    issue_title <~ item cur_issue 2 ;;
    issue_body <~ item cur_issue 3 ;;
    issue_comments <~ item cur_issue 4 ;;
    isPR <~ item cur_issue 5 ;;
    commit_date <~ item cur_commit 2 ;;
    pr_author <~ item cur_pr 1 ;;
    pr_body <~ item cur_pr 2 ;;
    pr_closed_date <~ item cur_pr 3 ;;
    pr_comments <~ item cur_pr 4 ;;
    pr_title <~ item cur_pr 5 ;;
    inr [pr_num; issue_closed_date; issue_author;
         issue_title; issue_body; pr_closed_date;
         pr_title; pr_body; pr_comments;
         issue_comments; pr_author; commit_author;
         commit_date; commit_message; isPR]
  else
    commit_committer <~ item cur_commit 2 ;;
    commit_SHA <~ item cur_commit 3 ;;
    commit_file_list <~ item cur_commit 4 ;;
    commit_patch_text <~ item cur_commit 5 ;;
    commit_adds <~ item cur_commit 6 ;;
    commit_rms <~ item cur_commit 7 ;;
    commit_status <~ item cur_commit 8 ;;
    commit_changes <~ item cur_commit 9 ;;
    inr [commit_author; commit_committer; pr_num;
         commit_SHA; commit_message; commit_file_list;
         commit_patch_text; commit_adds; commit_rms;
         commit_status; commit_changes].

(** The aggregation loop [while aggregation_index < RATE_LIMIT]: the
    index grows by one in every iteration, so the loop is unrolled over
    the number [todo] of iterations left. [written] is what the writer
    has put into the file so far; it stays there when a row raises. *)
Fixpoint aggregate (todo : nat) (output_type : string)
    (commit_info_metalist pr_info_metalist issue_info_metalist
       : list fragment)
    (aggregation_index : Z) (written : list row)
    : (exn + unit) * list row :=
  match todo with
  | O => (inr tt, written)
  | S todo' =>
      match output_row_of output_type commit_info_metalist
              pr_info_metalist issue_info_metalist aggregation_index with
      | inl e => (inl e, written)
      | inr output_row =>
          aggregate todo' output_type commit_info_metalist
            pr_info_metalist issue_info_metalist
            (aggregation_index + 1) (written ++ [output_row])%list
      end
  end.

(** The header row of the file for an output type. *)
Definition label_cols (output_type : string) : row :=
  map VStr (if (output_type =? "pr")%string
            then PR_COL_NAMES else COMMIT_COL_NAMES).

(** The [with open( ... ) as csvfile] block: the header row, then the
    aggregation loop from index 0. *)
Definition write_rows (output_type : string)
    (commit_info_metalist pr_info_metalist issue_info_metalist
       : list fragment)
    : (exn + unit) * list row :=
  aggregate (Z.to_nat (RATE_LIMIT - 0)) output_type commit_info_metalist
    pr_info_metalist issue_info_metalist 0 [label_cols output_type].

(** What a call of [write_csv_output] leaves behind: how it ended, the
    rows of the output file ([None] when the file was never opened) and
    the world. *)
Record run : Type := mkRun {
  ending  : outcome unit;
  csvfile : option (list row);
  after   : world
}.

Definition write_csv_output (fuel : nat) (output_type : string)
    (list_tuple : list Issue * list PullRequest) (w : world) : run :=
  let (issues_list, pr_list) := list_tuple in
  match get_PR_info fuel pr_list output_type w with
  | (Raised e, w1) => mkRun (Raised e) None w1
  | (OutOfFuel, w1) => mkRun OutOfFuel None w1
  | (Returned (pr_info_metalist, commits_paginated_list), w1) =>
      match get_commit_info fuel commits_paginated_list output_type w1 with
      | (Raised e, w2) => mkRun (Raised e) None w2
      | (OutOfFuel, w2) => mkRun OutOfFuel None w2
      | (Returned commit_info_metalist, w2) =>
          match (if (output_type =? "pr")%string
                 then get_issue_info fuel issues_list w2
                 else (Returned [], w2)) with
          | (Raised e, w3) => mkRun (Raised e) None w3
          | (OutOfFuel, w3) => mkRun OutOfFuel None w3
          | (Returned issue_info_metalist, w3) =>
              match write_rows output_type commit_info_metalist
                      pr_info_metalist issue_info_metalist with
              | (inr tt, rows) => mkRun (Returned tt) (Some rows) w3
              | (inl e, rows) => mkRun (Raised e) (Some rows) w3
              end
          end
      end
  end.

End Extractor.

(* ===================================================================== *)
(** * Loop invariants *)
(* ===================================================================== *)

Module Progress.
Import Py GitHub Eff Extractor.

(** How far the loop of [get_PR_info] has come: [index] is within the
    bound and [commits_list] has one entry for each index passed. *)
Definition PR_progress (l : PR_locals) : Prop :=
  0 <= index l <= RATE_LIMIT /\
  Z.of_nat (List.length (commits_list l)) = index l.

(** The same for [get_commit_info] and [commit_info_metalist]. *)
Definition commit_progress (l : commit_locals) : Prop :=
  0 <= commit_list_index l <= RATE_LIMIT /\
  Z.of_nat (List.length (commit_info_metalist l)) = commit_list_index l.

(** The same for [get_issue_info] and [issue_metalist]. *)
Definition issue_progress (l : issue_locals) : Prop :=
  0 <= issue_index l <= RATE_LIMIT /\
  Z.of_nat (List.length (issue_metalist l)) = issue_index l.

End Progress.

(* ===================================================================== *)
(** * Sample repositories *)
(* ===================================================================== *)

Module Samples.
Import Py GitHub Eff Extractor.

Definition day1 : datetime := mkDatetime 2021 3 4 15 7 9.
Definition day2 : datetime := mkDatetime 2020 11 30 0 45 0.

Definition file_a : File :=
  mkFile "src/a.py" 3 5 (Some "@@ -1 +1 @@") 2 "modified".
Definition file_b : File := mkFile "README" 1 1 None 0 "added".

(** A commit by [who] with message [what]. *)
Definition commit_of (who what : string) : Commit :=
  mkCommit who day1 (who ++ "-committer") what ("sha-" ++ what)
    [file_a; file_b].

(** Pull request number [n], closed, with [count] comments. *)
Definition pr_of (n count : Z) (commits : list Commit) : PullRequest :=
  mkPullRequest n ("user" ++ str_int n) (Some ("body" ++ str_int n))
    (Some day2) count ("title" ++ str_int n) commits.

(** Closed issue [n] with [count] comments. *)
Definition issue_of (n count : Z) (link : option string) : Issue :=
  mkIssue (Some ("author" ++ str_int n)) (Some ("text" ++ str_int n))
    count (Some day1) ("issue" ++ str_int n) link.

Definition ann1 : Commit := commit_of "ann" "a1".
Definition ann2 : Commit := commit_of "ann" "a2".
Definition bob1 : Commit := commit_of "bob" "b1".
Definition cy1  : Commit := commit_of "cy" "c1".
Definition dee1 : Commit := commit_of "dee" "d1".
Definition eve1 : Commit := commit_of "eve" "e1".

(** Five pull requests, each with at least one commit. *)
Definition prs_ok : list PullRequest :=
  [pr_of 10 0 [ann1; ann2];
   pr_of 11 3 [bob1];
   pr_of 12 1 [cy1];
   pr_of 13 0 [dee1];
   pr_of 14 2 [eve1]].

(** The same, but the second pull request has no commit. *)
Definition prs_gap : list PullRequest :=
  [pr_of 10 0 [ann1; ann2];
   pr_of 11 3 [];
   pr_of 12 1 [cy1];
   pr_of 13 0 [dee1];
   pr_of 14 2 [eve1]].

(** The same, but the first pull request has no commit. *)
Definition prs_first_empty : list PullRequest :=
  [pr_of 10 0 [];
   pr_of 11 3 [bob1];
   pr_of 12 1 [cy1];
   pr_of 13 0 [dee1];
   pr_of 14 2 [eve1]].

(** Five closed issues; only the first and the fourth carry a pull
    request link. *)
Definition issues_ok : list Issue :=
  [issue_of 1 0 (Some "https://api.github.com/repos/o/r/pulls/1");
   issue_of 2 4 None;
   issue_of 3 0 None;
   issue_of 4 1 (Some "https://api.github.com/repos/o/r/pulls/4");
   issue_of 5 0 None].

(** A pull request and an issue whose bodies have a line break inside
    and one at the end. *)
Definition two_lines : string := "line1" ++ NL ++ "line2" ++ NL.
Definition pr_two_lines : PullRequest :=
  mkPullRequest 7 "ann" (Some two_lines) (Some day2) 3 "two lines" [ann1].
Definition issue_two_lines : Issue :=
  mkIssue (Some "bob") (Some two_lines) 0 (Some day1) "two lines" None.

(** An authentication file in the documented layout: the user name, then
    the personal access token, with a blank line in between. *)
Definition auth_text : string :=
  "octocat" ++ NL ++ NL ++ "  ghp_16C7e42F292c69 " ++ NL.

(** A service that answers the first request of a run and refuses the
    second, with the quota coming back at time 60. *)
Definition throttled_once : world := mkWorld [false; true] 0 60.

End Samples.

(* ===================================================================== *)
(** * extractor.py: command line, quota display, paginated lists, main *)
(* ===================================================================== *)

Module Driver.
Import Py GitHub Eff Extractor.

(** The [Namespace] that [arg_parser.parse_args()] returns: [arg_pr] is
    [CLI_args.pr], [arg_commit] is [CLI_args.commit]. *)
Record Namespace : Type := mkNamespace {
  arg_pr           : bool;
  arg_commit       : bool;
  repo_name        : string;
  auth_file        : string;
  output_file_name : string
}.

(** [get_CLI_args], after [parse_args]. *)
Definition get_CLI_args (CLI_args : Namespace)
    : string * string * string * string :=
  let output_type := "commit" in
  let output_type := if arg_pr CLI_args then "pr" else output_type in
  (repo_name CLI_args, auth_file CLI_args, output_file_name CLI_args,
   output_type).

(** The [github.Github] session as [get_limit_info] reads it:
    [rate_limiting] is the pair (remaining, limit); the reset time and the
    clock are those of the world. *)
Record Github : Type := mkGithub {
  rate_limiting : Z * Z;
  service       : world
}.

(** [get_limit_info]: [None] for a flag that is neither of the two. *)
Definition get_limit_info (session : Github) (type_flag : string)
    : option Z :=
  if (type_flag =? "remaining")%string then
    Some (fst (rate_limiting session))
  else if (type_flag =? "reset")%string then
    let reset_time_secs := rate_limiting_resettime (service session) in
    let cur_time_secs := clock (service session) in
    Some (reset_time_secs - cur_time_secs)
  else None.

(** Spaces in front of a string. *)
Fixpoint spaces (n : nat) (s : string) : string :=
  match n with
  | O => s
  | S n' => String " "%char (spaces n' s)
  end.

(** ['{:4d}'.format( n )]: the decimal string, right-aligned in a field
    of four characters. *)
Definition format_4d (n : Z) : string :=
  let s := str_int n in
  spaces (4 - String.length s) s.

(** The one-character string of a carriage return, the [end] of the
    in-place prints. *)
Definition CR : string := String "013"%char EmptyString.

(** What [print_rem_calls] writes to the console ([None] stands for the
    [TypeError] of formatting [None]). *)
Definition print_rem_calls (session : Github) : option string :=
  match get_limit_info session "remaining" with
  | Some remaining_calls =>
      let rem_calls_str := format_4d remaining_calls in
      Some ("    calls left: " ++ rem_calls_str ++ CR)%string
  | None => None
  end.

(** ['{:02d}'.format( n )]. *)
Definition format_02d (n : Z) : string :=
  if (0 <=? n) && (n <? 10) then ("0" ++ str_int n)%string else str_int n.

(** The text of one countdown line of [timer]. *)
Definition countdown_line (countdown_time : Z) : string :=
  let minutes := countdown_time / 60 in
  let seconds := countdown_time mod 60 in
  let countdown := (format_02d minutes ++ ":" ++ format_02d seconds)%string in
  ("Time until calls can be made: " ++ countdown ++ CR)%string.

(** The countdown lines of [timer], one for each second it sleeps: the
    loop [while countdown_time > 0] unrolled over the seconds left. *)
Fixpoint timer_lines (todo : nat) (countdown_time : Z) : list string :=
  match todo with
  | O => []
  | S todo' =>
      countdown_line countdown_time :: timer_lines todo' (countdown_time - 1)
  end.

(** What [timer] writes to the console after its empty line. *)
Definition timer_output (countdown_time : Z) : list string :=
  timer_lines (Z.to_nat countdown_time) countdown_time.

(** The repository of [session.get_repo( input_repo_str )], which is
    taken to exist: [get_pulls] stands for the collection behind
    [get_pulls( base='master', direction='asc', sort='created',
    state='all' )], [get_issues] for the one behind
    [get_issues( direction='asc', sort='created', state='closed' )].
    Building either makes no request. *)
Record Repository : Type := mkRepository {
  get_pulls  : list PullRequest;
  get_issues : list Issue
}.

Record lists_locals : Type := mkLists_locals {
  all_lists_retrieved : bool;
  found_issues        : list Issue;
  found_pulls         : list PullRequest
}.

Definition lists_init : lists_locals := mkLists_locals false [] [].

(** The [try] block of [get_paginated_lists]; [found_issues] and
    [found_pulls] are its locals [issues_list] and [pr_list]. *)
Definition get_paginated_lists_try (repo_obj : Repository)
    (output_type : string) : M lists_locals unit :=
  remote ;;
  modify (fun l => mkLists_locals (all_lists_retrieved l) (found_issues l)
                     (get_pulls repo_obj)) ;;
  (if (output_type =? "pr")%string then
     modify (fun l => mkLists_locals (all_lists_retrieved l)
                        (get_issues repo_obj) (found_pulls l))
   else ret tt) ;;
  modify (fun l => mkLists_locals true (found_issues l) (found_pulls l)).

Definition get_paginated_lists (fuel : nat) (repo_obj : Repository)
    (output_type : string) (w : world)
    : outcome (list Issue * list PullRequest) * world :=
  match while_try fuel (fun l => negb (all_lists_retrieved l))
          (get_paginated_lists_try repo_obj output_type) lists_init w with
  | (Returned l, w') => (Returned (found_issues l, found_pulls l), w')
  | (Raised e, w') => (Raised e, w')
  | (OutOfFuel, w') => (OutOfFuel, w')
  end.

(** [main]: the arguments, the text of the authentication file and the
    repository are given; the session is made from [userauth_list[0]]. *)
Definition main (fuel : nat) (CLI_args : Namespace) (auth_text : string)
    (repo_obj : Repository) (w : world) : run :=
  let '(repo_str, auth, output, output_type) := get_CLI_args CLI_args in
  match main_login_or_token auth_text with
  | inl e => mkRun (Raised e) None w
  | inr login_or_token =>
      match get_paginated_lists fuel repo_obj output_type w with
      | (Raised e, w1) => mkRun (Raised e) None w1
      | (OutOfFuel, w1) => mkRun OutOfFuel None w1
      | (Returned paged_list_tuple, w1) =>
          write_csv_output fuel output_type paged_list_tuple w1
      end
  end.

End Driver.

(* ===================================================================== *)
(** * GithubParser.py *)
(* ===================================================================== *)

Module GithubParser.
Import Py GitHub Eff.

Definition limit : Z := 5.

(** The header line of [main]. *)
Definition descriptors : string :=
  "PR_Number,Issue_Closed_Date, Issue_Author, Issue_Title, Issue_Body, Issue_comments, PR_Closed_Date,PR_Author, PR_Title, PR_Body, PR_Comments, Commit_Author, Commit_Date, Commit_Message, isPR".

(** Zeros in front of a string. *)
Fixpoint zeros (n : nat) (s : string) : string :=
  match n with
  | O => s
  | S n' => String "0"%char (zeros n' s)
  end.

(** A number zero-padded to [width] digits. *)
Definition zero_padded (width : nat) (n : Z) : string :=
  let s := str_int n in
  zeros (width - String.length s) s.

(** [str( d )] for a [datetime] without microseconds and time zone:
    [YYYY-MM-DD HH:MM:SS]. *)
Definition str_datetime (d : datetime) : string :=
  (zero_padded 4 (year d) ++ "-" ++ zero_padded 2 (month d) ++ "-"
   ++ zero_padded 2 (day d) ++ " " ++ zero_padded 2 (hour d) ++ ":"
   ++ zero_padded 2 (minute d) ++ ":" ++ zero_padded 2 (second d))%string.

(** [str( issue.closed_at )]. *)
Definition str_closed_at (closed_at : option datetime) : string :=
  match closed_at with
  | Some d => str_datetime d
  | None => "None"
  end.

(** The loop the six extraction functions share:
<<
      for x in paged:
          if index < inLimit:
              outList.append( field( x ) )
              index += 1
          else:
              break
      return outList
>>
    The iterator asks the service for each element it hands out; no
    exception is caught. *)
Fixpoint collect {A : Type} (field : A -> string) (paged : list A)
    (inLimit index : Z) (outList : list string) (w : world)
    : (exn + list string) * world :=
  match paged with
  | [] => (inr outList, w)
  | x :: rest =>
      match request w with
      | None => (inl RateLimitExceededException, refused w)
      | Some w' =>
          if index <? inLimit
          then collect field rest inLimit (index + 1)
                 (outList ++ [field x])%list w'
          else (inr outList, w')
      end
  end.

Definition getPRNumber (pulls : list PullRequest) (inLimit : Z)
    : world -> (exn + list string) * world :=
  collect (fun pr => let ftitle := EmptyString in
                     (str_int (number pr) ++ "," ++ ftitle)%string)
    pulls inLimit 0 [].

Definition getIssueClosedDate (issues : list Issue) (inLimit : Z)
    : world -> (exn + list string) * world :=
  collect (fun issue => str_closed_at (issue_closed_at issue))
    issues inLimit 0 [].

Definition getIssueAuthor (issues : list Issue) (inLimit : Z)
    : world -> (exn + list string) * world :=
  collect (fun issue => str_opt (issue_user_name issue)) issues inLimit 0 [].

Definition getIssueTitle (issues : list Issue) (inLimit : Z)
    : world -> (exn + list string) * world :=
  collect (fun issue => issue_title issue) issues inLimit 0 [].

Definition getIssueBody (issues : list Issue) (inLimit : Z)
    : world -> (exn + list string) * world :=
  collect (fun issue => str_opt (issue_body issue)) issues inLimit 0 [].

Definition getIssueComments (issues : list Issue) (inLimit : Z)
    : world -> (exn + list string) * world :=
  collect (fun issue => str_int (issue_comments issue)) issues inLimit 0 [].

(** One getter after the other; the first exception ends the sequence. *)
Definition then_get {A B : Type} (m : world -> (exn + A) * world)
    (k : A -> world -> (exn + B) * world) : world -> (exn + B) * world :=
  fun w =>
    match m w with
    | (inl e, w') => (inl e, w')
    | (inr a, w') => k a w'
    end.

(** [main]: how it ends, the rows of [github.csv] (one field each) and
    the world. The header is written before the first getter runs; the
    values of the issue getters are bound and never written. *)
Definition main (pulls : list PullRequest) (issues : list Issue)
    (w : world) : (exn + unit) * list (list string) * world :=
  let written := [[descriptors]] in
  match
    then_get (getPRNumber pulls limit) (fun prData =>
    then_get (getIssueClosedDate issues limit) (fun closedDates =>
    then_get (getIssueAuthor issues limit) (fun issueAuthors =>
    then_get (getIssueTitle issues limit) (fun issueTitles =>
    then_get (getIssueBody issues limit) (fun issueBodies w' =>
      (inr prData, w')))))) w
  with
  | (inl e, w') => (inl e, written, w')
  | (inr prData, w') =>
      (inr tt, (written ++ map (fun prIndex => [prIndex]) prData)%list, w')
  end.

End GithubParser.

(* ===================================================================== *)
(** * Invariants of the extractor loops *)
(* ===================================================================== *)

Module Invariants.
Import Py GitHub Eff Extractor Progress.

(** [get_PR_info]: every pull request passed that has commits of its own
    has its last commit at its index of [commits_list]. *)
Definition own_commits (pr_list : list PullRequest) (l : PR_locals) : Prop :=
  PR_progress l /\
  forall i cur_pr older c,
    Z.of_nat i < index l ->
    nth_error pr_list i = Some cur_pr ->
    pr_commits cur_pr = (older ++ [c])%list ->
    nth_error (commits_list l) i = Some (Ref c).

(** [get_PR_info] while no request is refused: [pr_metalist] has the
    fragment of each pull request passed at its index, and nothing else. *)
Definition own_fragments (pr_list : list PullRequest) (output_type : string)
    (l : PR_locals) (w : world) : Prop :=
  throttle w = [] /\ 0 <= index l /\
  Z.of_nat (List.length (pr_metalist l)) = index l /\
  forall i, Z.of_nat i < index l ->
    exists cur_pr info,
      nth_error pr_list i = Some cur_pr /\
      PR_info_list_of output_type cur_pr = inr info /\
      nth_error (pr_metalist l) i = Some info.

(** [get_issue_info]: every issue passed has its fragment at its index;
    the flag in it is 0 or 1, and 1 when the issue has a link. *)
Definition own_issues (issue_list : list Issue) (l : issue_locals) : Prop :=
  issue_progress l /\ (isPR l = 0 \/ isPR l = 1) /\
  forall i, Z.of_nat i < issue_index l ->
    exists cur_issue d flag,
      nth_error issue_list i = Some cur_issue /\
      closed_date_str (issue_closed_at cur_issue) = inr d /\
      nth_error (issue_metalist l) i
      = Some (issue_context_list_of cur_issue d flag) /\
      (flag = 0 \/ flag = 1) /\
      (pull_request cur_issue <> None -> flag = 1).

(** [get_commit_info]: every commit passed has its fragment at its
    index. *)
Definition own_commit_fragments (commit_list : list commit_ref)
    (output_type : string) (l : commit_locals) : Prop :=
  commit_progress l /\
  forall i c, Z.of_nat i < commit_list_index l ->
    nth_error commit_list i = Some (Ref c) ->
    nth_error (commit_info_metalist l) i
    = Some (commit_info_list_of output_type c).

(** [get_PR_info], whatever is refused: every entry of [pr_metalist] is
    the fragment of some pull request, there is at least one entry for
    each index passed, and the pull request at each index passed could be
    read. *)
Definition readable_pulls (pr_list : list PullRequest) (output_type : string)
    (l : PR_locals) : Prop :=
  0 <= index l /\
  Forall (fun f => exists cur_pr, PR_info_list_of output_type cur_pr = inr f)
    (pr_metalist l) /\
  index l <= Z.of_nat (List.length (pr_metalist l)) /\
  forall i, Z.of_nat i < index l ->
    exists cur_pr info,
      nth_error pr_list i = Some cur_pr /\
      PR_info_list_of output_type cur_pr = inr info.

(** [get_PR_info], whatever is refused: the pull request at each index
    passed has its fragment in [pr_metalist], and every entry of
    [pr_metalist] is the fragment of a pull request of the list. *)
Definition kept_fragments (pr_list : list PullRequest) (output_type : string)
    (l : PR_locals) : Prop :=
  0 <= index l /\
  (forall f, In f (pr_metalist l) ->
     exists cur_pr,
       In cur_pr pr_list /\ PR_info_list_of output_type cur_pr = inr f) /\
  forall i, Z.of_nat i < index l ->
    exists cur_pr info,
      nth_error pr_list i = Some cur_pr /\
      PR_info_list_of output_type cur_pr = inr info /\
      In info (pr_metalist l).

(** What [get_PR_info] needs to return: at each of the first
    [RATE_LIMIT] indices a pull request, closed when the output type is
    "pr". *)
Definition pulls_readable (output_type : string)
    (pr_list : list PullRequest) : Prop :=
  forall i, Z.of_nat i < RATE_LIMIT ->
    exists cur_pr,
      nth_error pr_list i = Some cur_pr /\
      ((output_type =? "pr")%string = true -> pr_closed_at cur_pr <> None).

(** What [get_issue_info] needs to return: at each of the first
    [RATE_LIMIT] indices an issue with a closing date. *)
Definition issues_readable (issue_list : list Issue) : Prop :=
  forall i, Z.of_nat i < RATE_LIMIT ->
    exists cur_issue,
      nth_error issue_list i = Some cur_issue /\
      issue_closed_at cur_issue <> None.

(** What a run needs of the pull requests: at each of the first
    [RATE_LIMIT] indices a pull request with at least one commit, closed
    when the output type is "pr". *)
Definition pulls_ready (output_type : string) (pr_list : list PullRequest)
    : Prop :=
  forall i, Z.of_nat i < RATE_LIMIT ->
    exists cur_pr older c,
      nth_error pr_list i = Some cur_pr /\
      pr_commits cur_pr = (older ++ [c])%list /\
      ((output_type =? "pr")%string = true -> pr_closed_at cur_pr <> None).

(** What a run in "pr" mode needs of the issues: at each of the first
    [RATE_LIMIT] indices an issue with a closing date. *)
Definition issues_ready (output_type : string) (issue_list : list Issue)
    : Prop :=
  (output_type =? "pr")%string = true ->
  forall i, Z.of_nat i < RATE_LIMIT ->
    exists cur_issue,
      nth_error issue_list i = Some cur_issue /\
      issue_closed_at cur_issue <> None.

End Invariants.

(* ===================================================================== *)
(** * Predicates on text *)
(* ===================================================================== *)

Module Text.
Import Py.

(** Every character of a string satisfies [p]. *)
Fixpoint all_chars (p : ascii -> bool) (s : string) : bool :=
  match s with
  | EmptyString => true
  | String c s' => p c && all_chars p s'
  end.

(** What [read_user_info] does to one line before it tests it. *)
Definition clean_line (value : string) : string :=
  strip (strip_chars value NL).

(** A [datetime] whose fields are in their calendar ranges. *)
Definition valid_datetime (d : datetime) : Prop :=
  0 <= year d /\ 1 <= month d <= 12 /\ 1 <= day d <= 31 /\
  0 <= hour d <= 23 /\ 0 <= minute d <= 59 /\ 0 <= second d <= 59.

End Text.

(* ===================================================================== *)
(** * Facts about the Python built-ins *)
(* ===================================================================== *)

Module PyFacts.
Import Py.

Lemma to_int_not_nil (n : Z) :
  Z.to_int n <> Decimal.Pos Decimal.Nil /\
  Z.to_int n <> Decimal.Neg Decimal.Nil.
Proof.
  destruct n as [|p|p]; simpl; split; try discriminate;
    intros [= H]; exact (Unsigned.to_uint_nonnil p H).
Qed.

(** [str] is injective on integers. *)
Lemma str_int_inj (n m : Z) : str_int n = str_int m -> n = m.
Proof.
  unfold str_int. intros H.
  apply DecimalZ.to_int_inj.
  destruct (to_int_not_nil n) as [Hp Hn].
  destruct (to_int_not_nil m) as [Hp' Hn'].
  pose proof (NilZero.isi _ Hp Hn) as E.
  pose proof (NilZero.isi _ Hp' Hn') as E'.
  rewrite H in E. rewrite E in E'. now injection E'.
Qed.

(** Only zero prints as ["0"]. *)
Lemma str_int_is_zero (n : Z) : (str_int n =? "0")%string = (n =? 0).
Proof.
  destruct (Z.eqb_spec n 0) as [->|Hn].
  - reflexivity.
  - apply String.eqb_neq. intros H. apply Hn.
    now apply str_int_inj.
Qed.

(** A string that neither starts nor ends with a character of the set
    is left alone by [strip]. *)
(** Stripping at the end keeps a kept character and all before it. *)
Lemma rstrip_keeps_last p c : p c = false ->
  forall t, rstrip p (t ++ String c EmptyString)%string
            = (t ++ String c EmptyString)%string.
Proof.
  intros Hc t. induction t as [|d t IH].
  - simpl. now rewrite Hc.
  - change (String d t ++ String c EmptyString)%string
      with (String d (t ++ String c EmptyString))%string.
    cbn [rstrip]. rewrite IH.
    destruct t; reflexivity.
Qed.

(** A body that neither starts nor ends with a line break is stored
    with every line break it has inside. *)
Lemma strip_chars_inner (c d : ascii) (s : string) :
  in_chars NL c = false -> in_chars NL d = false ->
  strip_chars (String c (s ++ String d EmptyString)) NL
  = String c (s ++ String d EmptyString).
Proof.
  intros Hc Hd. unfold strip_chars.
  cbn [lstrip]. rewrite Hc.
  exact (rstrip_keeps_last _ d Hd (String c s)).
Qed.

End PyFacts.

(* ===================================================================== *)
(** * Field normalisation: bodies and comment counts *)
(* ===================================================================== *)

Module Normalisation.
Import Py GitHub Eff Extractor Samples PyFacts.

(** The comment count is the sentinel for zero and the decimal string
    otherwise. *)
Lemma comment_str_spec (n : Z) :
  comment_str n = if n =? 0 then SENTINEL else str_int n.
Proof.
  unfold comment_str. cbv zeta. now rewrite str_int_is_zero.
Qed.

(** A decimal string is never the sentinel. *)
Lemma str_int_not_sentinel (n : Z) : str_int n <> SENTINEL.
Proof.
  unfold str_int, SENTINEL.
  destruct n as [|p|p]; simpl; try discriminate.
  unfold NilZero.string_of_uint.
  pose proof (Unsigned.to_uint_nonnil p) as Hnil.
  destruct (Pos.to_uint p); try (now destruct Hnil); discriminate.
Qed.

(** The stored body of an entity whose body neither starts nor ends with
    a line break is the body itself between two quotes. *)
Lemma quoted_body_inner (c d : ascii) (s : string) :
  in_chars NL c = false -> in_chars NL d = false ->
  quoted_body (Some (String c (s ++ String d EmptyString)))
  = (DQ ++ String c (s ++ String d EmptyString) ++ DQ)%string.
Proof.
  intros Hc Hd. unfold quoted_body. cbv zeta. cbn [str_opt].
  now rewrite strip_chars_inner.
Qed.

(** C7, on the code: the body [line1\nline2\n] of a pull request and of
    an issue is stored as [line1\nline2] between quotes. Only the line
    break at the end is removed; the one inside the body is still there
    in both stored fields, so the stored field does not render as
    [line1line2] between quotes. *)
Theorem body_keeps_embedded_newline :
  let stored := (DQ ++ "line1" ++ NL ++ "line2" ++ DQ)%string in
  PR_info_list_of "pr" pr_two_lines
    = inr [VInt 7; VStr "ann"; VStr stored; VStr "11/30/20 12:45:00 AM";
           VStr "3"; VStr "two lines"]
  /\ issue_context_list_of issue_two_lines "03/04/21 03:07:09 PM" 0
    = [VStr "03/04/21 03:07:09 PM"; VStr "bob"; VStr "two lines";
       VStr stored; VStr SENTINEL; VInt 0]
  /\ contains newline stored = true
  /\ stored <> (DQ ++ "line1line2" ++ DQ)%string.
Proof.
  cbv zeta. repeat split; try reflexivity. discriminate.
Qed.

(** The comment field of the fragment of a pull request in "pr" mode:
    the sentinel for the count zero, the decimal string otherwise. *)
Lemma PR_info_list_of_comment_field (cur_pr : PullRequest) (f : fragment) :
  PR_info_list_of "pr" cur_pr = inr f ->
  nth_error f 4
  = Some (VStr (if pr_comments cur_pr =? 0 then SENTINEL
                else str_int (pr_comments cur_pr))).
Proof.
  intros Hpr.
  unfold PR_info_list_of in Hpr. cbn [String.eqb Ascii.eqb] in Hpr.
  cbv zeta in Hpr. simpl String.eqb in Hpr. cbv iota in Hpr.
  destruct (closed_date_str (pr_closed_at cur_pr)) as [e|d];
    [discriminate|].
  injection Hpr as <-. cbn [app nth_error].
  now rewrite comment_str_spec.
Qed.

(** The same for the fragment of an issue. *)
Lemma issue_context_list_of_comment_field (cur_issue : Issue)
    (issue_closed_date : string) (isPR : Z) :
  nth_error (issue_context_list_of cur_issue issue_closed_date isPR) 4
  = Some (VStr (if issue_comments cur_issue =? 0 then SENTINEL
                else str_int (issue_comments cur_issue))).
Proof.
  unfold issue_context_list_of. cbn [nth_error].
  now rewrite comment_str_spec.
Qed.

End Normalisation.

(* ===================================================================== *)
(** * The credential of the session *)
(* ===================================================================== *)

Module Auth.
Import Py GitHub Eff Extractor Samples.

(** [main] hands the first non-blank line of the file to
    [github.Github], whatever follows it. *)
Lemma main_uses_first_line (text first : string) (rest : list string) :
  read_user_info text = first :: rest ->
  main_login_or_token text = inr first.
Proof.
  intros H. unfold main_login_or_token. cbv zeta. now rewrite H.
Qed.

(** C9, on the code: for the authentication file with the lines
    [octocat], a blank line and [ghp_16C7e42F292c69], the parsed list is
    the user name followed by the token, and the session is created with
    entry 0 of that list, the user name; the access token of the second
    non-blank line is entry 1 and is never read. *)
Theorem session_is_given_the_username :
  read_user_info auth_text = ["octocat"; "ghp_16C7e42F292c69"]
  /\ main_login_or_token auth_text = inr "octocat"
  /\ item (read_user_info auth_text) 1 = inr "ghp_16C7e42F292c69"
  /\ main_login_or_token auth_text <> inr "ghp_16C7e42F292c69".
Proof.
  repeat split; try reflexivity. discriminate.
Qed.

End Auth.

(* ===================================================================== *)
(** * The retry loops *)
(* ===================================================================== *)

Module Loops.
Import Py GitHub Eff Extractor Progress.

(** ** Sleeping does not change what the service will answer *)

Lemma timer_throttle (n : Z) (w : world) :
  throttle (timer n w) = throttle w.
Proof.
  unfold timer. destruct n as [|p|p]; simpl; try reflexivity.
  apply Pos.iter_invariant; [|reflexivity].
  intros x H. now rewrite <- H.
Qed.

Lemma run_timer_throttle (w : world) :
  throttle (run_timer w) = throttle w.
Proof. apply timer_throttle. Qed.

(** A request never lengthens the schedule; a refused one shortens it. *)
Lemma request_answered (w w' : world) :
  request w = Some w' ->
  (List.length (throttle w') <= List.length (throttle w))%nat.
Proof.
  unfold request. destruct (throttle w) as [|[|] rest] eqn:E;
    intros [= <-]; simpl; rewrite ?E; simpl; lia.
Qed.

Lemma request_refused (w : world) :
  request w = None ->
  (List.length (throttle (refused w)) < List.length (throttle w))%nat.
Proof.
  unfold request, refused. destruct (throttle w) as [|[|] rest];
    intros [=]; simpl; lia.
Qed.

(** With an empty schedule every request is answered and the world
    stays as it is. *)
Lemma request_unthrottled (w : world) :
  throttle w = [] -> request w = Some w.
Proof. unfold request. now intros ->. Qed.

(** ** The blocks in closed form *)

(** The last element of a non-empty collection is at position
    [totalCount - 1]. *)
Lemma nth_error_last {A : Type} (l : list A) (a : A) :
  nth_error (l ++ [a]) (Z.to_nat (Z.of_nat (List.length (l ++ [a])) - 1))
  = Some a.
Proof.
  rewrite length_app. simpl.
  replace (Z.to_nat (Z.of_nat (List.length l + 1) - 1)) with (List.length l)
    by lia.
  rewrite nth_error_app2 by lia. now rewrite Nat.sub_diag.
Qed.

Lemma get_PR_info_try_eq pr_list output_type l w :
  get_PR_info_try pr_list output_type l w =
  match request w with
  | None => (inl RateLimitExceededException, l, refused w)
  | Some w1 =>
      match lookup pr_list (index l) with
      | None => (inl IndexError, l, w1)
      | Some cur_pr =>
          match PR_info_list_of output_type cur_pr with
          | inl e => (inl e, l, w1)
          | inr info =>
              let l1 := PR_appended info l in
              match request w1 with
              | None => (inl RateLimitExceededException, l1, refused w1)
              | Some w2 =>
                  match rev (pr_commits cur_pr) with
                  | [] =>
                      (inr tt, PR_advanced (most_recent_commit l) l1, w2)
                  | c :: _ =>
                      match request w2 with
                      | None =>
                          (inl RateLimitExceededException, l1, refused w2)
                      | Some w3 => (inr tt, PR_advanced (Ref c) l1, w3)
                      end
                  end
              end
          end
      end
  end.
Proof.
  unfold get_PR_info_try, paged_getitem, totalCount, bind, gets, remote,
    lift, modify, ret, from_option, lookup.
  destruct (request w) as [w1|]; [|reflexivity].
  destruct (if 0 <=? index l then _ else _) as [cur_pr|]; [|reflexivity].
  destruct (PR_info_list_of output_type cur_pr) as [e|info]; [reflexivity|].
  cbn [index pr_info_list pr_metalist commits_list most_recent_commit].
  destruct (request w1) as [w2|]; [|reflexivity].
  destruct (rev (pr_commits cur_pr)) as [|c r] eqn:E.
  - apply (f_equal (@rev Commit)) in E. rewrite rev_involutive in E.
    rewrite E. reflexivity.
  - apply (f_equal (@rev Commit)) in E. rewrite rev_involutive in E.
    simpl in E. rewrite E.
    assert (Hlast : 0 <= Z.of_nat (List.length (rev r ++ [c])) - 1)
      by (rewrite length_app; simpl; lia).
    rewrite (proj2 (Z.geb_le _ _) Hlast).
    destruct (request w2) as [w3|]; [|reflexivity].
    rewrite (proj2 (Z.leb_le _ _) Hlast).
    rewrite nth_error_last. reflexivity.
Qed.

Lemma get_issue_info_try_eq issue_list l w :
  get_issue_info_try issue_list l w =
  match request w with
  | None => (inl RateLimitExceededException, l, refused w)
  | Some w1 =>
      match lookup issue_list (issue_index l) with
      | None => (inl IndexError, l, w1)
      | Some cur_issue =>
          match closed_date_str (issue_closed_at cur_issue) with
          | inl e => (inl e, l, w1)
          | inr issue_closed_date =>
              let flag := match pull_request cur_issue with
                          | Some _ => 1
                          | None => isPR l
                          end in
              let context :=
                issue_context_list_of cur_issue issue_closed_date flag in
              (inr tt,
               mkIssue_locals (issue_index l + 1) flag context
                 (issue_metalist l ++ [context]),
               w1)
          end
      end
  end.
Proof.
  unfold get_issue_info_try, paged_getitem, bind, gets, remote, lift,
    modify, ret, from_option, lookup.
  destruct (request w) as [w1|]; [|reflexivity].
  destruct (if 0 <=? issue_index l then _ else _) as [cur_issue|];
    [|reflexivity].
  destruct (closed_date_str (issue_closed_at cur_issue)); [reflexivity|].
  destruct (pull_request cur_issue); reflexivity.
Qed.

Lemma get_commit_info_try_eq commit_list output_type l w :
  get_commit_info_try commit_list output_type l w =
  match item commit_list (commit_list_index l) with
  | inl e => (inl e, l, w)
  | inr NoCommit =>
      (inr tt,
       mkCommit_locals (commit_info_list l)
         (commit_info_metalist l ++ [commit_info_list l])
         (commit_list_index l + 1),
       w)
  | inr (Ref c) =>
      let info := commit_info_list_of output_type c in
      let done := mkCommit_locals info (commit_info_metalist l ++ [info])
                    (commit_list_index l + 1) in
      if (output_type =? "pr")%string then (inr tt, done, w)
      else
        match request w with
        | Some w' => (inr tt, done, w')
        | None =>
            (inl RateLimitExceededException,
             mkCommit_locals (commit_base_list_of c)
               (commit_info_metalist l) (commit_list_index l),
             refused w)
        end
  end.
Proof.
  unfold get_commit_info_try, bind, gets, lift, modify, ret, remote.
  destruct (item commit_list (commit_list_index l)) as [e|[c|]];
    try reflexivity.
  destruct (output_type =? "pr")%string; [reflexivity|].
  destruct (request w); reflexivity.
Qed.

(** The pure parts of the blocks raise nothing that the loops catch. *)
Lemma closed_date_str_raises closed_at e :
  closed_date_str closed_at = inl e -> e = AttributeError.
Proof. destruct closed_at; simpl; congruence. Qed.

Lemma PR_info_list_of_raises output_type cur_pr e :
  PR_info_list_of output_type cur_pr = inl e -> e = AttributeError.
Proof.
  unfold PR_info_list_of. cbv zeta.
  destruct (output_type =? "pr")%string; [|discriminate].
  destruct (closed_date_str _) eqn:E; [|discriminate].
  intros [= <-]. eapply closed_date_str_raises; eauto.
Qed.

Lemma item_raises {A : Type} (l : list A) i e :
  item l i = inl e -> e = IndexError.
Proof. unfold item, from_option. destruct (getitem l i); congruence. Qed.

(** ** The loop itself *)

(** A property of the locals that every run of the block keeps, however
    the block ends, holds when the loop returns, and the loop condition
    is false then. *)
Lemma while_try_invariant {L : Type} (Inv : L -> Prop) (cond : L -> bool)
    (body : M L unit) :
  (forall l w r l' w',
      Inv l -> cond l = true -> body l w = (r, l', w') -> Inv l') ->
  forall fuel l w l' w',
    Inv l -> while_try fuel cond body l w = (Returned l', w') ->
    Inv l' /\ cond l' = false.
Proof.
  intros Hbody fuel.
  induction fuel as [|fuel IH]; intros l w l' w' Hl H; simpl in H.
  - discriminate.
  - destruct (cond l) eqn:Hc.
    + destruct (body l w) as [[r l1] w1] eqn:Hb.
      pose proof (Hbody _ _ _ _ _ Hl Hc Hb) as Hl1.
      destruct r as [[| |]|[]]; try discriminate; eauto.
    + injection H as <- <-. auto.
Qed.

(** The loop comes to an end when every normal run of the block brings
    the locals closer to the exit and every refused request uses up an
    entry of the schedule: [left l] iterations and the length of the
    schedule bound the fuel that is needed. *)
Lemma while_try_terminates {L : Type} (cond : L -> bool) (body : M L unit)
    (left : L -> nat) :
  (forall l w l' w',
      cond l = true -> body l w = (inr tt, l', w') ->
      (left l' < left l)%nat /\
      (List.length (throttle w') <= List.length (throttle w))%nat) ->
  (forall l w l' w',
      cond l = true ->
      body l w = (inl RateLimitExceededException, l', w') ->
      (left l' <= left l)%nat /\
      (List.length (throttle w') < List.length (throttle w))%nat) ->
  forall fuel l w,
    (left l + List.length (throttle w) < fuel)%nat ->
    fst (while_try fuel cond body l w) <> OutOfFuel.
Proof.
  intros Hok Hrate fuel.
  induction fuel as [|fuel IH]; intros l w Hfuel; [lia|].
  simpl. destruct (cond l) eqn:Hc; [|discriminate].
  destruct (body l w) as [[r l1] w1] eqn:Hb.
  destruct r as [[| |]|[]]; try discriminate.
  - destruct (Hrate _ _ _ _ Hc Hb). apply IH.
    rewrite run_timer_throttle. lia.
  - destruct (Hok _ _ _ _ Hc Hb). apply IH. lia.
Qed.

(** A loop whose block, under an invariant, raises nothing but what the
    loop catches does not raise. *)
Lemma while_try_never_raises {L : Type} (Inv : L -> Prop) (cond : L -> bool)
    (body : M L unit) :
  (forall l w r l' w',
      Inv l -> cond l = true -> body l w = (r, l', w') -> Inv l') ->
  (forall l w e l' w',
      Inv l -> cond l = true -> body l w = (inl e, l', w') ->
      e = RateLimitExceededException) ->
  forall fuel l w e w',
    Inv l -> while_try fuel cond body l w <> (Raised e, w').
Proof.
  intros Hkeep Hcatch fuel.
  induction fuel as [|fuel IH]; intros l w e w' Hl; simpl; [discriminate|].
  destruct (cond l) eqn:Hc; [|discriminate].
  destruct (body l w) as [[r l1] w1] eqn:Hb.
  pose proof (Hkeep _ _ _ _ _ Hl Hc Hb) as Hl1.
  destruct r as [e0|[]]; [|now apply IH].
  pose proof (Hcatch _ _ _ _ _ Hl Hc Hb) as ->. now apply IH.
Qed.

(** What a loop raises, its block has raised, and it is not what the
    loop catches. *)
Lemma while_try_raises {L : Type} (P : exn -> Prop) (cond : L -> bool)
    (body : M L unit) :
  (forall l w e l' w',
      cond l = true -> body l w = (inl e, l', w') ->
      e = RateLimitExceededException \/ P e) ->
  forall fuel l w e w',
    while_try fuel cond body l w = (Raised e, w') ->
    e <> RateLimitExceededException /\ P e.
Proof.
  intros Hbody fuel.
  induction fuel as [|fuel IH]; intros l w e w' H; simpl in H;
    [discriminate|].
  destruct (cond l) eqn:Hc; [|discriminate].
  destruct (body l w) as [[r l1] w1] eqn:Hb.
  destruct r as [e0|[]]; [|eauto].
  destruct (Hbody _ _ _ _ _ Hc Hb) as [->|HP]; [eauto|].
  destruct e0; [eauto| |]; injection H as <- <-; (split; [discriminate|]);
    exact HP.
Qed.

(** ** The index of each extractor *)

Ltac crack H :=
  repeat match type of H with
    | context [match request ?w with _ => _ end] =>
        let E := fresh "Hreq" in destruct (request w) eqn:E
    | context [match lookup ?l ?i with _ => _ end] =>
        destruct (lookup l i) eqn:?
    | context [match PR_info_list_of ?o ?p with _ => _ end] =>
        destruct (PR_info_list_of o p) eqn:?
    | context [match closed_date_str ?d with _ => _ end] =>
        destruct (closed_date_str d) eqn:?
    | context [match rev ?l with _ => _ end] =>
        destruct (rev l) eqn:?
    | context [match item ?l ?i with _ => _ end] =>
        destruct (item l i) eqn:?
    end;
  cbv zeta in H; try discriminate H; injection H; clear H; intros; subst.

(** The same for the block of [get_commit_info], whose cases are the
    reference, the output type and the answer of the service. *)
Ltac crack_commit H :=
  match type of H with
  | context [match item ?l ?i with _ => _ end] =>
      let E := fresh "Hitem" in
      destruct (item l i) as [?|[?|]] eqn:E
  end;
  cbv zeta in H;
  try match type of H with
    | context [if (?o =? "pr")%string then _ else _] =>
        let E := fresh "Hmode" in destruct (o =? "pr")%string eqn:E
    end;
  try match type of H with
    | context [match request ?w with _ => _ end] =>
        let E := fresh "Hreq" in destruct (request w) eqn:E
    end;
  try discriminate H; injection H; clear H; intros; subst.

(** Read the fields of the locals a block has built. *)
Ltac locals_simpl :=
  cbn [index commits_list most_recent_commit pr_info_list pr_metalist
       PR_advanced PR_appended
       commit_info_list commit_info_metalist commit_list_index
       issue_index isPR issue_context_list issue_metalist].

Lemma get_PR_info_try_progress pr_list output_type l w r l' w' :
  PR_progress l -> (index l <? RATE_LIMIT) = true ->
  get_PR_info_try pr_list output_type l w = (r, l', w') ->
  PR_progress l'.
Proof.
  unfold PR_progress. intros [Hi Hlen] Hc H.
  apply Z.ltb_lt in Hc.
  rewrite get_PR_info_try_eq in H. crack H; locals_simpl;
    rewrite ?length_app; simpl; lia.
Qed.

Lemma get_commit_info_try_progress commit_list output_type l w r l' w' :
  commit_progress l -> (commit_list_index l <? RATE_LIMIT) = true ->
  get_commit_info_try commit_list output_type l w = (r, l', w') ->
  commit_progress l'.
Proof.
  unfold commit_progress. intros [Hi Hlen] Hc H.
  apply Z.ltb_lt in Hc.
  rewrite get_commit_info_try_eq in H. crack_commit H; locals_simpl;
    rewrite ?length_app; simpl; lia.
Qed.

Lemma get_issue_info_try_progress issue_list l w r l' w' :
  issue_progress l -> (issue_index l <? RATE_LIMIT) = true ->
  get_issue_info_try issue_list l w = (r, l', w') ->
  issue_progress l'.
Proof.
  unfold issue_progress. intros [Hi Hlen] Hc H.
  apply Z.ltb_lt in Hc.
  rewrite get_issue_info_try_eq in H. crack H; locals_simpl;
    rewrite ?length_app; simpl; lia.
Qed.

(** Each extractor loop, when it returns, has brought its index to
    [RATE_LIMIT] and produced one entry per index. *)
Lemma get_PR_info_loop_returns fuel pr_list output_type w l w' :
  get_PR_info_loop fuel pr_list output_type PR_init w = (Returned l, w') ->
  index l = RATE_LIMIT /\
  Z.of_nat (List.length (commits_list l)) = RATE_LIMIT.
Proof.
  intros H.
  apply (while_try_invariant PR_progress) in H.
  - destruct H as [[Hi Hlen] Hc]. apply Z.ltb_ge in Hc. lia.
  - intros. eapply get_PR_info_try_progress; eauto.
  - unfold PR_progress, RATE_LIMIT. simpl. lia.
Qed.

Lemma get_commit_info_loop_returns fuel commit_list output_type w l w' :
  get_commit_info_loop fuel commit_list output_type commit_init w
    = (Returned l, w') ->
  commit_list_index l = RATE_LIMIT /\
  Z.of_nat (List.length (commit_info_metalist l)) = RATE_LIMIT.
Proof.
  intros H.
  apply (while_try_invariant commit_progress) in H.
  - destruct H as [[Hi Hlen] Hc]. apply Z.ltb_ge in Hc. lia.
  - intros. eapply get_commit_info_try_progress; eauto.
  - unfold commit_progress, RATE_LIMIT. simpl. lia.
Qed.

Lemma get_issue_info_loop_returns fuel issue_list w l w' :
  get_issue_info_loop fuel issue_list issue_init w = (Returned l, w') ->
  issue_index l = RATE_LIMIT /\
  Z.of_nat (List.length (issue_metalist l)) = RATE_LIMIT.
Proof.
  intros H.
  apply (while_try_invariant issue_progress) in H.
  - destruct H as [[Hi Hlen] Hc]. apply Z.ltb_ge in Hc. lia.
  - intros. eapply get_issue_info_try_progress; eauto.
  - unfold issue_progress, RATE_LIMIT. simpl. lia.
Qed.

(** ** Termination *)

(** Iterations an extractor still has to make at a given index. *)
Lemma get_PR_info_loop_terminates fuel pr_list output_type l w :
  (Z.to_nat (RATE_LIMIT - index l) + List.length (throttle w) < fuel)%nat ->
  fst (get_PR_info_loop fuel pr_list output_type l w) <> OutOfFuel.
Proof.
  apply (while_try_terminates _ _ (fun l => Z.to_nat (RATE_LIMIT - index l))).
  - intros l0 w0 l' w' Hc H. apply Z.ltb_lt in Hc.
    rewrite get_PR_info_try_eq in H. crack H; locals_simpl;
      repeat match goal with
        | E : request _ = Some _ |- _ => apply request_answered in E
        end; lia.
  - intros l0 w0 l' w' Hc H. apply Z.ltb_lt in Hc.
    rewrite get_PR_info_try_eq in H. crack H; locals_simpl;
      repeat match goal with
        | E : request _ = Some _ |- _ => apply request_answered in E
        | E : request _ = None |- _ => apply request_refused in E
        | E : PR_info_list_of _ _ = inl _ |- _ =>
            apply PR_info_list_of_raises in E; discriminate E
        | E : closed_date_str _ = inl _ |- _ =>
            apply closed_date_str_raises in E; discriminate E
        | E : item _ _ = inl _ |- _ =>
            apply item_raises in E; discriminate E
        end; lia.
Qed.

Lemma get_issue_info_loop_terminates fuel issue_list l w :
  (Z.to_nat (RATE_LIMIT - issue_index l) + List.length (throttle w)
   < fuel)%nat ->
  fst (get_issue_info_loop fuel issue_list l w) <> OutOfFuel.
Proof.
  apply (while_try_terminates _ _
           (fun l => Z.to_nat (RATE_LIMIT - issue_index l))).
  - intros l0 w0 l' w' Hc H. apply Z.ltb_lt in Hc.
    rewrite get_issue_info_try_eq in H. crack H; locals_simpl;
      repeat match goal with
        | E : request _ = Some _ |- _ => apply request_answered in E
        end; lia.
  - intros l0 w0 l' w' Hc H. apply Z.ltb_lt in Hc.
    rewrite get_issue_info_try_eq in H. crack H; locals_simpl;
      repeat match goal with
        | E : request _ = Some _ |- _ => apply request_answered in E
        | E : request _ = None |- _ => apply request_refused in E
        | E : PR_info_list_of _ _ = inl _ |- _ =>
            apply PR_info_list_of_raises in E; discriminate E
        | E : closed_date_str _ = inl _ |- _ =>
            apply closed_date_str_raises in E; discriminate E
        | E : item _ _ = inl _ |- _ =>
            apply item_raises in E; discriminate E
        end; lia.
Qed.

Lemma get_commit_info_loop_terminates fuel commit_list output_type l w :
  (Z.to_nat (RATE_LIMIT - commit_list_index l) + List.length (throttle w)
   < fuel)%nat ->
  fst (get_commit_info_loop fuel commit_list output_type l w) <> OutOfFuel.
Proof.
  apply (while_try_terminates _ _
           (fun l => Z.to_nat (RATE_LIMIT - commit_list_index l))).
  - intros l0 w0 l' w' Hc H. apply Z.ltb_lt in Hc.
    rewrite get_commit_info_try_eq in H. crack_commit H; locals_simpl;
      try match goal with
        | E : request _ = Some _ |- _ => apply request_answered in E
        end; lia.
  - intros l0 w0 l' w' Hc H.
    rewrite get_commit_info_try_eq in H. crack_commit H; locals_simpl.
    + match goal with
      | E : item _ _ = inl _ |- _ => apply item_raises in E; discriminate E
      end.
    + match goal with
      | E : request _ = None |- _ => apply request_refused in E
      end. lia.
Qed.

End Loops.

(* ===================================================================== *)
(** * Row alignment *)
(* ===================================================================== *)

Module Alignment.
Import Py GitHub Eff Extractor Progress Samples Loops.

(** ** Look-ups *)

Lemma item_in_range {A : Type} (l : list A) (i : Z) (a : A) :
  0 <= i -> item l i = inr a -> i < Z.of_nat (List.length l).
Proof.
  unfold item, from_option, getitem. intros Hi.
  rewrite (proj2 (Z.leb_le _ _) Hi).
  destruct (nth_error l (Z.to_nat i)) eqn:E; [|discriminate].
  intros _. assert (Z.to_nat i < List.length l)%nat; [|lia].
  apply nth_error_Some. congruence.
Qed.

Lemma item_out_of_range {A : Type} (l : list A) (i : Z) :
  Z.of_nat (List.length l) <= i -> item l i = inl IndexError.
Proof.
  unfold item, from_option, getitem. intros Hi.
  assert (H0 : 0 <= i) by lia. rewrite (proj2 (Z.leb_le _ _) H0).
  rewrite (proj2 (nth_error_None l (Z.to_nat i))); [reflexivity|lia].
Qed.

Lemma item_nth_error {A : Type} (l : list A) (n : nat) (a : A) :
  item l (Z.of_nat n) = inr a -> nth_error l n = Some a.
Proof.
  unfold item, from_option, getitem.
  rewrite (proj2 (Z.leb_le 0 (Z.of_nat n))) by lia.
  rewrite Nat2Z.id. destruct (nth_error l n); congruence.
Qed.

(** ** One row *)

Ltac open_row H :=
  unfold output_row_of, and_then in H;
  repeat match type of H with
    | context [if (?a =? ?b)%string then _ else _] =>
        let E := fresh "Hmode" in
        destruct (a =? b)%string eqn:E;
        try (vm_compute in E; discriminate E)
    | context [match item ?l ?i with _ => _ end] =>
        let E := fresh "Hitem" in destruct (item l i) eqn:E
    end.

(** A row that cannot be built raises [IndexError], nothing else. *)
Lemma output_row_of_raises output_type cm pm im i e :
  output_row_of output_type cm pm im i = inl e -> e = IndexError.
Proof.
  intros H. open_row H; try discriminate;
    injection H as <-; eauto using item_raises.
Qed.

(** A row that is built needs a fragment at its index in every sequence
    the output type uses. *)
Lemma output_row_of_in_range output_type cm pm im i r :
  0 <= i -> output_row_of output_type cm pm im i = inr r ->
  i < Z.of_nat (List.length cm) /\ i < Z.of_nat (List.length pm) /\
  ((output_type =? "pr")%string = true -> i < Z.of_nat (List.length im)).
Proof.
  intros Hi H. open_row H; try discriminate;
    repeat split; eauto using item_in_range; discriminate.
Qed.

(** The number of fields of a row: the width of the schema. *)
Lemma output_row_of_width output_type cm pm im i r :
  output_row_of output_type cm pm im i = inr r ->
  List.length r = List.length (label_cols output_type).
Proof.
  intros H. unfold label_cols. open_row H; try discriminate;
    injection H as <-; reflexivity.
Qed.

(** The layout of a row in "pr" mode: which entry of which fragment each
    of its fifteen positions holds. *)
Lemma output_row_of_pr_layout cm pm im i r :
  output_row_of "pr" cm pm im i = inr r ->
  exists cur_commit cur_pr cur_issue,
    item cm i = inr cur_commit /\ item pm i = inr cur_pr /\
    item im i = inr cur_issue /\
    map Some r =
      [nth_error cur_pr 0; nth_error cur_issue 0; nth_error cur_issue 1;
       nth_error cur_issue 2; nth_error cur_issue 3; nth_error cur_pr 3;
       nth_error cur_pr 5; nth_error cur_pr 2; nth_error cur_pr 4;
       nth_error cur_issue 4; nth_error cur_pr 1; nth_error cur_commit 0;
       nth_error cur_commit 2; nth_error cur_commit 1;
       nth_error cur_issue 5].
Proof.
  intros H. open_row H; try discriminate. injection H as <-.
  repeat match goal with
    | E : item _ (Zpos ?p) = inr _ |- _ =>
        apply (item_nth_error _ (Pos.to_nat p)) in E;
        let n := eval compute in (Pos.to_nat p) in
        change (Pos.to_nat p) with n in E
    | E : item _ 0 = inr _ |- _ =>
        apply (item_nth_error _ 0%nat) in E
    end.
  do 3 eexists. repeat (split; [reflexivity|]).
  cbn [map].
  repeat match goal with
    | E : nth_error _ _ = Some _ |- _ => rewrite E; clear E
    end.
  reflexivity.
Qed.

(** ** The aggregation loop *)

(** What the aggregation loop leaves in the file: the rows already there,
    then one row for each index it got through. When it returns, that is
    every index, and each sequence the output type uses reaches past the
    last one; when it raises, the exception is [IndexError] and at least
    one row is missing. *)
Lemma aggregate_spec output_type cm pm im todo :
  forall i written r rows,
    0 <= i ->
    aggregate todo output_type cm pm im i written = (r, rows) ->
    exists new,
      rows = (written ++ new)%list /\
      Forall (fun row => List.length row
                         = List.length (label_cols output_type)) new /\
      match r with
      | inr _ =>
          List.length new = todo /\
          (todo <> 0%nat ->
           i + Z.of_nat todo <= Z.of_nat (List.length cm) /\
           i + Z.of_nat todo <= Z.of_nat (List.length pm) /\
           ((output_type =? "pr")%string = true ->
            i + Z.of_nat todo <= Z.of_nat (List.length im)))
      | inl e => e = IndexError /\ (List.length new < todo)%nat
      end.
Proof.
  induction todo as [|todo IH]; intros i written r rows Hi H; simpl in H.
  - injection H as <- <-. exists []. rewrite app_nil_r.
    split; [reflexivity|]. split; [constructor|].
    split; [reflexivity|]. now intros [].
  - destruct (output_row_of output_type cm pm im i) as [e|output_row] eqn:E.
    + injection H as <- <-. exists []. rewrite app_nil_r.
      repeat split; auto.
      * eapply output_row_of_raises; eauto.
      * simpl. lia.
    + apply IH in H; [|lia].
      destruct H as (new & -> & Hwidth & Hr).
      exists (output_row :: new). rewrite <- app_assoc. simpl.
      split; [reflexivity|]. split.
      * constructor; [eapply output_row_of_width; eauto|assumption].
      * pose proof (output_row_of_in_range _ _ _ _ _ _ Hi E)
          as (Hcm & Hpm & Him).
        destruct r as [e|[]].
        -- destruct Hr as [-> Hlen]. split; [reflexivity|lia].
        -- destruct Hr as [Hlen Hreach]. split; [lia|].
           intros _. destruct todo as [|todo'].
           ++ repeat split; try lia. intros Hm. specialize (Him Hm). lia.
           ++ destruct Hreach as (Hc & Hp & Hi'); [discriminate|].
              repeat split; try lia. intros Hm. specialize (Hi' Hm). lia.
Qed.

(** ** The whole run *)

(** What [get_PR_info], [get_commit_info] and [get_issue_info] return is
    what their loops leave in the locals. *)
Lemma get_PR_info_returned fuel pr_list output_type w pm cl w1 :
  get_PR_info fuel pr_list output_type w = (Returned (pm, cl), w1) ->
  exists l,
    get_PR_info_loop fuel pr_list output_type PR_init w = (Returned l, w1)
    /\ pm = pr_metalist l /\ cl = commits_list l.
Proof.
  unfold get_PR_info.
  destruct (get_PR_info_loop fuel pr_list output_type PR_init w)
    as [[l| |] w'] eqn:E; intros [= <- <- <-]. eauto.
Qed.

Lemma get_commit_info_returned fuel commit_list output_type w cm w1 :
  get_commit_info fuel commit_list output_type w = (Returned cm, w1) ->
  exists l,
    get_commit_info_loop fuel commit_list output_type commit_init w
      = (Returned l, w1)
    /\ cm = commit_info_metalist l.
Proof.
  unfold get_commit_info.
  destruct (get_commit_info_loop fuel commit_list output_type commit_init w)
    as [[l| |] w'] eqn:E; intros [= <- <-]. eauto.
Qed.

Lemma get_issue_info_returned fuel issue_list w im w1 :
  get_issue_info fuel issue_list w = (Returned im, w1) ->
  exists l,
    get_issue_info_loop fuel issue_list issue_init w = (Returned l, w1)
    /\ im = issue_metalist l.
Proof.
  unfold get_issue_info.
  destruct (get_issue_info_loop fuel issue_list issue_init w)
    as [[l| |] w'] eqn:E; intros [= <- <-]. eauto.
Qed.

(** The stages of a run that returned. *)
Lemma write_csv_output_returned fuel output_type issues_list pr_list w :
  ending (write_csv_output fuel output_type (issues_list, pr_list) w)
    = Returned tt ->
  exists pm cl w1 cm w2 im w3 rows,
    get_PR_info fuel pr_list output_type w = (Returned (pm, cl), w1) /\
    get_commit_info fuel cl output_type w1 = (Returned cm, w2) /\
    (if (output_type =? "pr")%string
     then get_issue_info fuel issues_list w2
     else (Returned [], w2)) = (Returned im, w3) /\
    write_rows output_type cm pm im = (inr tt, rows) /\
    write_csv_output fuel output_type (issues_list, pr_list) w
      = mkRun (Returned tt) (Some rows) w3.
Proof.
  unfold write_csv_output.
  destruct (get_PR_info fuel pr_list output_type w)
    as [[[pm cl]| |] w1] eqn:E1; try discriminate.
  destruct (get_commit_info fuel cl output_type w1)
    as [[cm| |] w2] eqn:E2; try discriminate.
  destruct (if (output_type =? "pr")%string then _ else _)
    as [[im| |] w3] eqn:E3; try discriminate.
  destruct (write_rows output_type cm pm im) as [[e|[]] rows] eqn:E4;
    try discriminate.
  intros _. exists pm, cl, w1, cm, w2, im, w3, rows.
  rewrite E2, E3, E4. repeat split; reflexivity.
Qed.

(** C10: the fetch bound is the constant [RATE_LIMIT] = 5. Whatever the
    output type, the repository, the answers of the service and the fuel,
    a run that returns has taken every extractor loop it ran to index 5,
    and has written the header row followed by exactly 5 data rows. *)
Theorem fetch_bound_is_RATE_LIMIT fuel output_type issues_list pr_list w
    (Hok : ending (write_csv_output fuel output_type
                     (issues_list, pr_list) w) = Returned tt) :
  RATE_LIMIT = 5 /\
  (exists l w1,
      get_PR_info_loop fuel pr_list output_type PR_init w = (Returned l, w1)
      /\ index l = 5 /\
      exists lc w2,
        get_commit_info_loop fuel (commits_list l) output_type commit_init w1
          = (Returned lc, w2)
        /\ commit_list_index lc = 5 /\
        ((output_type =? "pr")%string = true ->
         exists li w3,
           get_issue_info_loop fuel issues_list issue_init w2
             = (Returned li, w3)
           /\ issue_index li = 5)) /\
  exists rows,
    csvfile (write_csv_output fuel output_type (issues_list, pr_list) w)
      = Some (label_cols output_type :: rows)
    /\ List.length rows = 5%nat.
Proof.
  apply write_csv_output_returned in Hok.
  destruct Hok as (pm & cl & w1 & cm & w2 & im & w3 & rows
                   & Hpr & Hcommit & Hissue & Hrows & ->).
  split; [reflexivity|]. split.
  - apply get_PR_info_returned in Hpr. destruct Hpr as (l & Hl & -> & ->).
    exists l, w1. split; [assumption|].
    split; [apply (get_PR_info_loop_returns _ _ _ _ _ _ Hl)|].
    apply get_commit_info_returned in Hcommit.
    destruct Hcommit as (lc & Hlc & ->).
    exists lc, w2. split; [assumption|].
    split; [apply (get_commit_info_loop_returns _ _ _ _ _ _ Hlc)|].
    intros Hmode. rewrite Hmode in Hissue.
    apply get_issue_info_returned in Hissue.
    destruct Hissue as (li & Hli & ->).
    exists li, w3. split; [assumption|].
    apply (get_issue_info_loop_returns _ _ _ _ _ Hli).
  - unfold write_rows in Hrows.
    apply aggregate_spec in Hrows; [|lia].
    destruct Hrows as (new & -> & _ & Hlen & _).
    exists new. split; [reflexivity|exact Hlen].
Qed.

Lemma fetch_bound_is_RATE_LIMIT_witness :
  ending (write_csv_output 6 "pr" (issues_ok, prs_ok) (unthrottled 0))
    = Returned tt
  /\ exists rows,
      csvfile (write_csv_output 6 "pr" (issues_ok, prs_ok) (unthrottled 0))
        = Some (label_cols "pr" :: rows)
      /\ List.length rows = 5%nat.
Proof.
  split.
  - vm_compute. reflexivity.
  - apply (fetch_bound_is_RATE_LIMIT 6 "pr" issues_ok prs_ok (unthrottled 0)).
    vm_compute. reflexivity.
Defined.

End Alignment.

(* ===================================================================== *)
(** * Commits and the pull requests they are joined to *)
(* ===================================================================== *)

Module Commits.
Import Py GitHub Eff Extractor Progress Samples Loops Alignment.

(** A pull request with at least one commit gets its own last commit, and
    the commit is remembered for the iterations that follow. *)
Lemma get_PR_info_try_own_commit pr_list output_type l w l' w' cur_pr c older :
  lookup pr_list (index l) = Some cur_pr ->
  pr_commits cur_pr = (older ++ [c])%list ->
  get_PR_info_try pr_list output_type l w = (inr tt, l', w') ->
  commits_list l' = (commits_list l ++ [Ref c])%list /\
  most_recent_commit l' = Ref c.
Proof.
  intros Hpr Hc H. rewrite get_PR_info_try_eq, Hpr, Hc in H.
  rewrite rev_app_distr in H. simpl in H.
  crack H. locals_simpl. auto.
Qed.

(** A pull request without commits gets whatever [most_recent_commit]
    holds: the last commit of the nearest earlier pull request that had
    one, or the sentinel when there is none. *)
Lemma get_PR_info_try_no_commit pr_list output_type l w l' w' cur_pr :
  lookup pr_list (index l) = Some cur_pr ->
  pr_commits cur_pr = [] ->
  get_PR_info_try pr_list output_type l w = (inr tt, l', w') ->
  commits_list l' = (commits_list l ++ [most_recent_commit l])%list /\
  most_recent_commit l' = most_recent_commit l.
Proof.
  intros Hpr Hc H. rewrite get_PR_info_try_eq, Hpr, Hc in H.
  simpl in H. crack H. locals_simpl. auto.
Qed.

(** The fragment of the sentinel is the fragment of the entry before it,
    and the empty list at index 0. *)
Lemma get_commit_info_try_sentinel commit_list output_type l w l' w' :
  item commit_list (commit_list_index l) = inr NoCommit ->
  get_commit_info_try commit_list output_type l w = (inr tt, l', w') ->
  commit_info_metalist l'
  = (commit_info_metalist l ++ [commit_info_list l])%list.
Proof.
  intros Hc H. rewrite get_commit_info_try_eq, Hc in H.
  crack H. reflexivity.
Qed.

(** C1, on the code: in [prs_gap] the pull request at index 1 has no
    commit, and the one at index 0 has the commits [ann1] and [ann2].
    [get_PR_info] hands over [ann2] for index 0 and again for index 1,
    [get_commit_info] builds the fragment of index 1 from it, and data
    row 1 of the file joins pull request 11 to the author, date and
    message of [ann2], a commit of pull request 10. *)
Theorem commit_of_previous_PR_joined :
  option_map pr_commits (nth_error prs_gap 1) = Some []
  /\ option_map pr_commits (nth_error prs_gap 0) = Some [ann1; ann2]
  /\ (exists pm,
        fst (get_PR_info 6 prs_gap "pr" (unthrottled 0))
        = Returned (pm, [Ref ann2; Ref ann2; Ref cy1; Ref dee1; Ref eve1]))
  /\ (exists cm,
        fst (get_commit_info 6
               [Ref ann2; Ref ann2; Ref cy1; Ref dee1; Ref eve1] "pr"
               (unthrottled 0))
        = Returned cm
        /\ nth_error cm 1 = Some (commit_info_list_of "pr" ann2))
  /\ (exists rows,
        write_csv_output 6 "pr" (issues_ok, prs_gap) (unthrottled 0)
        = mkRun (Returned tt) (Some rows) (unthrottled 0)
        /\ nth_error rows 2
           = Some [VInt 11; VStr "03/04/21 03:07:09 PM"; VStr "author2";
                   VStr "issue2"; VStr (DQ ++ "text2" ++ DQ);
                   VStr "11/30/20 12:45:00 AM"; VStr "title11";
                   VStr (DQ ++ "body11" ++ DQ); VStr "3"; VStr "4";
                   VStr "user11"; VStr "ann"; VStr "03/04/21 03:07:09 PM";
                   VStr (DQ ++ "a2" ++ DQ); VInt 1]).
Proof.
  split; [reflexivity|]. split; [reflexivity|].
  split; [eexists; vm_compute; reflexivity|].
  split; [eexists; split; vm_compute; reflexivity|].
  eexists. split; vm_compute; reflexivity.
Qed.

(** C2, on the code. In [prs_gap] the pull request at index 1 has no
    commit, yet the commit fragment of row 1 is the fragment of [ann2]
    and none of its three columns is the sentinel. In [prs_first_empty]
    the pull request at index 0 has no commit: its commit reference is
    the sentinel, its commit fragment is the empty list, which has no
    column, and the run ends in [IndexError] on the first data row with
    only the header written. *)
Theorem no_commit_fragment_is_not_sentinel_filled :
  (option_map pr_commits (nth_error prs_gap 1) = Some []
   /\ exists pm cl cm,
       fst (get_PR_info 6 prs_gap "pr" (unthrottled 0)) = Returned (pm, cl)
       /\ fst (get_commit_info 6 cl "pr" (unthrottled 0)) = Returned cm
       /\ nth_error cm 1
          = Some [VStr "ann"; VStr (DQ ++ "a2" ++ DQ);
                  VStr "03/04/21 03:07:09 PM"]
       /\ ~ In (VStr SENTINEL)
              [VStr "ann"; VStr (DQ ++ "a2" ++ DQ);
               VStr "03/04/21 03:07:09 PM"])
  /\ (option_map pr_commits (nth_error prs_first_empty 0) = Some []
      /\ exists pm cl cm,
          fst (get_PR_info 6 prs_first_empty "pr" (unthrottled 0))
          = Returned (pm, cl)
          /\ nth_error cl 0 = Some NoCommit
          /\ fst (get_commit_info 6 cl "pr" (unthrottled 0)) = Returned cm
          /\ nth_error cm 0 = Some []
          /\ write_csv_output 6 "pr" (issues_ok, prs_first_empty)
               (unthrottled 0)
             = mkRun (Raised IndexError) (Some [label_cols "pr"])
                 (unthrottled 0)).
Proof.
  split.
  - split; [reflexivity|]. do 3 eexists.
    split; [vm_compute; reflexivity|].
    split; [vm_compute; reflexivity|].
    split; [reflexivity|].
    simpl. intros [H|[H|[H|[]]]]; discriminate H.
  - split; [reflexivity|]. do 3 eexists.
    split; [vm_compute; reflexivity|].
    split; [reflexivity|].
    split; [vm_compute; reflexivity|].
    split; [reflexivity|].
    vm_compute. reflexivity.
Qed.

(** The row of "pr" mode, each field next to the column name the header
    gives it: the fields under [PR_Author], [PR_Title], [PR_Body],
    [PR_Comments] and [Issue_Comments] are not the ones the names
    announce. *)
Lemma pr_row_under_header cur_pr cur_issue c flag pr_info d :
  PR_info_list_of "pr" cur_pr = inr pr_info ->
  exists r,
    output_row_of "pr" [commit_info_list_of "pr" c] [pr_info]
      [issue_context_list_of cur_issue d flag] 0 = inr r
    /\ List.length r = 15%nat
    /\ exists pr_closed_date,
        closed_date_str (pr_closed_at cur_pr) = inr pr_closed_date /\
        combine PR_COL_NAMES r =
        [("PR_Number", VInt (number cur_pr));
         ("Issue_Closed_Date", VStr d);
         ("Issue_Author", VStr (str_opt (issue_user_name cur_issue)));
         ("Issue_Title", VStr (issue_title cur_issue));
         ("Issue_Body", VStr (quoted_body (issue_body cur_issue)));
         ("PR_Closed_Date", VStr pr_closed_date);
         ("PR_Author", VStr (pr_title cur_pr));
         ("PR_Title", VStr (quoted_body (pr_body cur_pr)));
         ("PR_Body", VStr (comment_str (pr_comments cur_pr)));
         ("PR_Comments", VStr (comment_str (issue_comments cur_issue)));
         ("Issue_Comments", VStr (pr_login cur_pr));
         ("Commit_Author", VStr (author_name c));
         ("Commit_Date", VStr (strftime_TIME_FORM_STR (author_date c)));
         ("Commit_Message", VStr (DQ ++ message c ++ DQ));
         ("isPR", VInt flag)].
Proof.
  unfold PR_info_list_of. simpl String.eqb. cbv iota zeta.
  destruct (closed_date_str (pr_closed_at cur_pr)) as [e|pr_closed_date];
    [discriminate|].
  intros [= <-]. eexists. split; [reflexivity|]. split; [reflexivity|].
  eexists. split; reflexivity.
Qed.

(** The row of "commit" mode follows its header name by name. *)
Lemma commit_row_under_header cur_pr c :
  let t := fold_left file_totals_step (files c)
             (mkFile_totals [] 0 0 EmptyString 0 EmptyString) in
  exists pr_info r,
    PR_info_list_of "commit" cur_pr = inr pr_info
    /\ output_row_of "commit" [commit_info_list_of "commit" c] [pr_info]
         [] 0 = inr r
    /\ combine COMMIT_COL_NAMES r =
       [("Author_Login", VStr (author_name c));
        ("Committer_login", VStr (committer_name c));
        ("PR_Number", VInt (number cur_pr));
        ("SHA", VStr (sha c));
        ("Commit_Message", VStr (DQ ++ message c ++ DQ));
        ("File_name", VList (file_list t));
        ("Patch_text", VStr (commit_patch_text t));
        ("Additions", VInt (commit_adds t));
        ("Deletions", VInt (commit_rms t));
        ("Status", VStr (DQ ++ commit_status_str t ++ DQ));
        ("Changes", VInt (commit_changes t))].
Proof.
  cbv zeta. do 2 eexists. repeat split; reflexivity.
Qed.

(** C6, on the code: in "pr" mode the file of the run over [prs_ok] and
    [issues_ok] starts with the 15 names of [PR_COL_NAMES], and its data
    rows have 15 fields; but in data row 1 the field under [PR_Author] is
    the title of the pull request, the one under [PR_Title] its body, the
    one under [PR_Body] its comment count, the one under [PR_Comments] the
    comment count of the issue, and the one under [Issue_Comments] the
    login of the author of the pull request. *)
Theorem pr_row_does_not_follow_header :
  exists header first second rest,
    csvfile (write_csv_output 6 "pr" (issues_ok, prs_ok) (unthrottled 0))
      = Some (header :: first :: second :: rest)
    /\ header = map VStr PR_COL_NAMES
    /\ List.length header = 15%nat /\ List.length second = 15%nat
    /\ nth_error prs_ok 1 = Some (pr_of 11 3 [bob1])
    /\ nth_error issues_ok 1 = Some (issue_of 2 4 None)
    /\ (nth_error header 6, nth_error second 6)
       = (Some (VStr "PR_Author"), Some (VStr (pr_title (pr_of 11 3 [bob1]))))
    /\ (nth_error header 7, nth_error second 7)
       = (Some (VStr "PR_Title"),
          Some (VStr (quoted_body (pr_body (pr_of 11 3 [bob1])))))
    /\ (nth_error header 8, nth_error second 8)
       = (Some (VStr "PR_Body"), Some (VStr "3"))
    /\ (nth_error header 9, nth_error second 9)
       = (Some (VStr "PR_Comments"), Some (VStr "4"))
    /\ (nth_error header 10, nth_error second 10)
       = (Some (VStr "Issue_Comments"),
          Some (VStr (pr_login (pr_of 11 3 [bob1])))).
Proof.
  do 4 eexists. split; [vm_compute; reflexivity|].
  repeat split; vm_compute; reflexivity.
Qed.

End Commits.

(* ===================================================================== *)
(** * Issues and the isPR flag *)
(* ===================================================================== *)

Module Issues.
Import Py GitHub Eff Extractor Progress Samples Loops.

(** The flag an iteration stores: 1 for an issue with a pull request
    link, and for one without, the value the flag had before. *)
Lemma get_issue_info_try_flag issue_list l w l' w' cur_issue :
  lookup issue_list (issue_index l) = Some cur_issue ->
  get_issue_info_try issue_list l w = (inr tt, l', w') ->
  isPR l' = match pull_request cur_issue with
            | Some _ => 1
            | None => isPR l
            end
  /\ exists d,
      issue_metalist l'
      = (issue_metalist l
           ++ [issue_context_list_of cur_issue d (isPR l')])%list.
Proof.
  intros Hi H. rewrite get_issue_info_try_eq, Hi in H.
  crack H. locals_simpl. eauto.
Qed.

(** C3, on the code: in [issues_ok] only the issues at index 0 and 3
    carry a pull request link, yet the isPR field is 1 in all five
    fragments; and when the issue at index 0 is replaced by one without a
    link, the isPR field of the untouched issues at index 1 and 2 changes
    from 1 to 0. *)
Theorem isPR_is_carried_to_later_issues :
  map pull_request issues_ok
  = [Some "https://api.github.com/repos/o/r/pulls/1"; None; None;
     Some "https://api.github.com/repos/o/r/pulls/4"; None]
  /\ (exists im,
        fst (get_issue_info 6 issues_ok (unthrottled 0)) = Returned im
        /\ map (fun f => nth_error f 5) im
           = [Some (VInt 1); Some (VInt 1); Some (VInt 1); Some (VInt 1);
              Some (VInt 1)])
  /\ (exists im,
        fst (get_issue_info 6 (issue_of 1 0 None :: tl issues_ok)
               (unthrottled 0)) = Returned im
        /\ map (fun f => nth_error f 5) im
           = [Some (VInt 0); Some (VInt 0); Some (VInt 0); Some (VInt 1);
              Some (VInt 1)]).
Proof.
  split; [reflexivity|].
  split; eexists; split; vm_compute; reflexivity.
Qed.

End Issues.

(* ===================================================================== *)
(** * Backoff and retry *)
(* ===================================================================== *)

Module Backoff.
Import Py GitHub Eff Extractor Progress Samples Loops Alignment.

(** A refused request leaves the locals of [get_issue_info] untouched. *)
Lemma get_issue_info_try_refused issue_list l w l' w' :
  get_issue_info_try issue_list l w
    = (inl RateLimitExceededException, l', w') ->
  l' = l.
Proof.
  intros H. rewrite get_issue_info_try_eq in H. crack H; reflexivity.
Qed.

(** A refused request leaves [index] and [commits_list] of [get_PR_info]
    untouched; [pr_metalist] is untouched too or has the fragment of the
    current pull request appended already. *)
Lemma get_PR_info_try_refused pr_list output_type l w l' w' :
  get_PR_info_try pr_list output_type l w
    = (inl RateLimitExceededException, l', w') ->
  index l' = index l /\ commits_list l' = commits_list l /\
  most_recent_commit l' = most_recent_commit l /\
  (pr_metalist l' = pr_metalist l \/
   exists info, pr_metalist l' = (pr_metalist l ++ [info])%list).
Proof.
  intros H. rewrite get_PR_info_try_eq in H.
  crack H; locals_simpl; repeat split; eauto.
Qed.

(** The block of [get_issue_info] makes one request. When it is refused,
    nothing has happened; when it is answered, the block goes on as it
    does in a world without throttling. *)
Lemma get_issue_info_try_cases issue_list l w r l' w' :
  get_issue_info_try issue_list l w = (r, l', w') ->
  (request w = None /\ r = inl RateLimitExceededException /\ l' = l /\
   w' = refused w)
  \/
  (request w = Some w' /\ r <> inl RateLimitExceededException /\
   (r = inr tt -> issue_index l' = issue_index l + 1) /\
   forall w0, throttle w0 = [] ->
              get_issue_info_try issue_list l w0 = (r, l', w0)).
Proof.
  intros H. rewrite get_issue_info_try_eq in H.
  destruct (request w) as [w1|] eqn:Hw.
  - right.
    assert (Hpure : forall w0, throttle w0 = [] ->
                get_issue_info_try issue_list l w0
                = (r, l', w0) /\ w' = w1).
    { intros w0 Hw0.
      rewrite get_issue_info_try_eq, (request_unthrottled _ Hw0).
      crack H; auto. }
    assert (Hw' : w' = w1) by (apply (Hpure (unthrottled 0)); reflexivity).
    subst w1. split; [reflexivity|].
    split; [|split; [|intros; now apply Hpure]].
    + crack H; try discriminate.
      match goal with
      | E : closed_date_str _ = inl _ |- _ =>
          apply closed_date_str_raises in E; subst; discriminate
      end.
    + intros ->. crack H. reflexivity.
  - left. injection H as <- <- <-. auto.
Qed.

(** Backoff is idempotent for [get_issue_info]: however often and
    wherever the service refuses a request, the loop, given the fuel for
    its retries, ends as the loop of a run without throttling ends, with
    the same locals or the same exception. *)
Lemma get_issue_info_loop_backoff issue_list fuel :
  forall l w fuel0 w0,
    (Z.to_nat (RATE_LIMIT - issue_index l) + List.length (throttle w)
     < fuel)%nat ->
    (Z.to_nat (RATE_LIMIT - issue_index l) < fuel0)%nat ->
    throttle w0 = [] ->
    fst (get_issue_info_loop fuel issue_list l w)
    = fst (get_issue_info_loop fuel0 issue_list l w0).
Proof.
  unfold get_issue_info_loop.
  induction fuel as [|fuel IH]; intros l w fuel0 w0 Hfuel Hfuel0 Hw0; [lia|].
  cbn [while_try].
  destruct (issue_index l <? RATE_LIMIT) eqn:Hc.
  - apply Z.ltb_lt in Hc.
    destruct (get_issue_info_try issue_list l w) as [[r l'] w'] eqn:Hb.
    apply get_issue_info_try_cases in Hb.
    destruct Hb as [(Hw & -> & -> & ->)|(Hw & Hr & Hidx & Hpure)].
    + apply IH; auto.
      rewrite run_timer_throttle. apply request_refused in Hw. lia.
    + destruct fuel0 as [|fuel0]; [lia|].
      cbn [while_try]. rewrite (proj2 (Z.ltb_lt _ _) Hc).
      rewrite (Hpure w0 Hw0).
      apply request_answered in Hw.
      destruct r as [[| |]|[]]; try reflexivity; [now destruct Hr|].
      specialize (Hidx eq_refl).
      apply IH; auto; lia.
  - destruct fuel0 as [|fuel0]; [lia|].
    cbn [while_try]. now rewrite Hc.
Qed.

(** The same for the function: with fuel for every retry,
    [get_issue_info] returns or raises what it returns or raises when no
    request is refused. *)
Lemma get_issue_info_backoff_idempotent issue_list w fuel :
  (5 + List.length (throttle w) < fuel)%nat ->
  fst (get_issue_info fuel issue_list w)
  = fst (get_issue_info 6 issue_list (unthrottled 0)).
Proof.
  intros Hfuel. unfold get_issue_info.
  pose proof (get_issue_info_loop_backoff issue_list fuel issue_init w 6
                (unthrottled 0)) as H.
  destruct (get_issue_info_loop fuel issue_list issue_init w) as [o w1].
  destruct (get_issue_info_loop 6 issue_list issue_init (unthrottled 0))
    as [o0 w2].
  simpl in H. rewrite H by (simpl; lia || reflexivity).
  destruct o0; reflexivity.
Qed.

(** ** Every run comes to an end *)

(** A loop whose block never lengthens the schedule leaves a schedule
    that is no longer than the one it started with. *)
Lemma while_try_throttle {L : Type} (cond : L -> bool) (body : M L unit) :
  (forall l w r l' w',
      body l w = (r, l', w') ->
      (List.length (throttle w') <= List.length (throttle w))%nat) ->
  forall fuel l w,
    (List.length (throttle (snd (while_try fuel cond body l w)))
     <= List.length (throttle w))%nat.
Proof.
  intros Hbody fuel.
  induction fuel as [|fuel IH]; intros l w; simpl; [lia|].
  destruct (cond l); [|simpl; lia].
  destruct (body l w) as [[r l1] w1] eqn:Hb.
  apply Hbody in Hb.
  destruct r as [[| |]|[]]; simpl; try lia.
  - specialize (IH l1 (run_timer w1)).
    rewrite run_timer_throttle in IH. lia.
  - specialize (IH l1 w1). lia.
Qed.

Ltac count_requests :=
  repeat match goal with
    | E : request _ = Some _ |- _ => apply request_answered in E
    | E : request _ = None |- _ =>
        apply request_refused in E; apply Nat.lt_le_incl in E
    end.

Lemma get_PR_info_throttle fuel pr_list output_type w :
  (List.length (throttle (snd (get_PR_info fuel pr_list output_type w)))
   <= List.length (throttle w))%nat.
Proof.
  unfold get_PR_info.
  pose proof (while_try_throttle (fun l => index l <? RATE_LIMIT)
                (get_PR_info_try pr_list output_type)) as H.
  specialize (H (fun l w r l' w' Hb =>
                   ltac:(rewrite get_PR_info_try_eq in Hb; crack Hb;
                         count_requests; lia)) fuel PR_init w).
  unfold get_PR_info_loop.
  destruct (while_try _ _ _ _ _) as [[l| |] w']; exact H.
Qed.

Lemma get_commit_info_throttle fuel commit_list output_type w :
  (List.length
     (throttle (snd (get_commit_info fuel commit_list output_type w)))
   <= List.length (throttle w))%nat.
Proof.
  unfold get_commit_info.
  pose proof (while_try_throttle
                (fun l => commit_list_index l <? RATE_LIMIT)
                (get_commit_info_try commit_list output_type)) as H.
  specialize (H (fun l w r l' w' Hb =>
                   ltac:(rewrite get_commit_info_try_eq in Hb;
                         crack_commit Hb; count_requests; lia))
               fuel commit_init w).
  unfold get_commit_info_loop.
  destruct (while_try _ _ _ _ _) as [[l| |] w']; exact H.
Qed.

(** With fuel for five iterations and for every entry of the schedule,
    none of the extractors runs out of fuel. *)
Lemma get_PR_info_terminates fuel pr_list output_type w :
  (5 + List.length (throttle w) < fuel)%nat ->
  fst (get_PR_info fuel pr_list output_type w) <> OutOfFuel.
Proof.
  intros Hfuel. unfold get_PR_info.
  pose proof (get_PR_info_loop_terminates fuel pr_list output_type PR_init w
                Hfuel) as H.
  destruct (get_PR_info_loop _ _ _ _ _) as [[l| |] w'];
    simpl in *; congruence.
Qed.

Lemma get_commit_info_terminates fuel commit_list output_type w :
  (5 + List.length (throttle w) < fuel)%nat ->
  fst (get_commit_info fuel commit_list output_type w) <> OutOfFuel.
Proof.
  intros Hfuel. unfold get_commit_info.
  pose proof (get_commit_info_loop_terminates fuel commit_list output_type
                commit_init w Hfuel) as H.
  destruct (get_commit_info_loop _ _ _ _ _) as [[l| |] w'];
    simpl in *; congruence.
Qed.

Lemma get_issue_info_terminates fuel issue_list w :
  (5 + List.length (throttle w) < fuel)%nat ->
  fst (get_issue_info fuel issue_list w) <> OutOfFuel.
Proof.
  intros Hfuel. unfold get_issue_info.
  pose proof (get_issue_info_loop_terminates fuel issue_list issue_init w
                Hfuel) as H.
  destruct (get_issue_info_loop _ _ _ _) as [[l| |] w'];
    simpl in *; congruence.
Qed.

(** A run returns or raises: refused requests delay it, and each of them
    uses up an entry of the schedule. *)
Lemma write_csv_output_terminates fuel output_type list_tuple w :
  (5 + List.length (throttle w) < fuel)%nat ->
  ending (write_csv_output fuel output_type list_tuple w) <> OutOfFuel.
Proof.
  intros Hfuel. destruct list_tuple as [issues_list pr_list].
  unfold write_csv_output.
  pose proof (get_PR_info_terminates fuel pr_list output_type w Hfuel) as H1.
  pose proof (get_PR_info_throttle fuel pr_list output_type w) as T1.
  destruct (get_PR_info fuel pr_list output_type w)
    as [[[pm cl]| |] w1]; simpl in *; try congruence.
  assert (Hfuel1 : (5 + List.length (throttle w1) < fuel)%nat) by lia.
  pose proof (get_commit_info_terminates fuel cl output_type w1 Hfuel1) as H2.
  pose proof (get_commit_info_throttle fuel cl output_type w1) as T2.
  destruct (get_commit_info fuel cl output_type w1)
    as [[cm| |] w2]; simpl in *; try congruence.
  assert (Hfuel2 : (5 + List.length (throttle w2) < fuel)%nat) by lia.
  pose proof (get_issue_info_terminates fuel issues_list w2 Hfuel2) as H3.
  destruct (output_type =? "pr")%string.
  - destruct (get_issue_info fuel issues_list w2)
      as [[im| |] w3]; simpl in *; try congruence.
    destruct (write_rows _ _ _ _) as [[e|[]] rows]; simpl; congruence.
  - destruct (write_rows _ _ _ _) as [[e|[]] rows]; simpl; congruence.
Qed.

(** C5, on the code: the service answers the request for pull request 0
    of [prs_ok] and refuses the next one, the [totalCount] of its
    commits. The index does not advance and pull request 0 is fetched
    again, but its fragment had been appended before the refusal and is
    appended a second time: [pr_metalist] holds six fragments, and from
    data row 1 on the file joins each commit to the number of the pull
    request before it. The run without throttling over the same data
    writes another file. *)
Theorem refused_request_duplicates_PR_fragment :
  let commits := [Ref ann2; Ref bob1; Ref cy1; Ref dee1; Ref eve1] in
  throttle throttled_once = [false; true]
  /\ fst (get_PR_info 7 prs_ok "commit" throttled_once)
     = Returned ([[VInt 10]; [VInt 10]; [VInt 11]; [VInt 12]; [VInt 13];
                  [VInt 14]], commits)
  /\ fst (get_PR_info 7 prs_ok "commit" (unthrottled 0))
     = Returned ([[VInt 10]; [VInt 11]; [VInt 12]; [VInt 13]; [VInt 14]],
                 commits)
  /\ ending (write_csv_output 7 "commit" (issues_ok, prs_ok) throttled_once)
     = Returned tt
  /\ ending (write_csv_output 7 "commit" (issues_ok, prs_ok) (unthrottled 0))
     = Returned tt
  /\ (exists rows rows',
        csvfile (write_csv_output 7 "commit" (issues_ok, prs_ok)
                   throttled_once) = Some rows
        /\ csvfile (write_csv_output 7 "commit" (issues_ok, prs_ok)
                      (unthrottled 0)) = Some rows'
        /\ option_map (fun r => (nth_error r 0, nth_error r 2))
             (nth_error rows 2)
           = Some (Some (VStr "bob"), Some (VInt 10))
        /\ option_map (fun r => (nth_error r 0, nth_error r 2))
             (nth_error rows' 2)
           = Some (Some (VStr "bob"), Some (VInt 11))
        /\ rows <> rows').
Proof.
  cbv zeta. split; [reflexivity|].
  split; [vm_compute; reflexivity|].
  split; [vm_compute; reflexivity|].
  split; [vm_compute; reflexivity|].
  split; [vm_compute; reflexivity|].
  do 2 eexists.
  split; [vm_compute; reflexivity|].
  split; [vm_compute; reflexivity|].
  split; [vm_compute; reflexivity|].
  split; [vm_compute; reflexivity|].
  discriminate.
Qed.

End Backoff.

(* ===================================================================== *)
(** * Waiting for the quota and the console lines *)
(* ===================================================================== *)

Module Timing.
Import Py GitHub Eff Extractor Driver Text.

Lemma sleep1_iter p w :
  Pos.iter sleep1 w p
  = mkWorld (throttle w) (clock w + Zpos p) (rate_limiting_resettime w).
Proof.
  induction p as [|p IH] using Pos.peano_ind.
  - reflexivity.
  - rewrite Pos.iter_succ, IH. unfold sleep1. simpl. f_equal. lia.
Qed.

(** X1. [run_timer] sleeps until the reset time and not a second longer:
    afterwards the clock shows the later of the time before and the reset
    time, so a reset time that has passed costs no sleep; the schedule of
    the service and the reset time are as before, and the wait that
    [get_limit_info] would now compute is not positive. *)
Theorem run_timer_sleeps_until_reset (w : world) :
  clock (run_timer w) = Z.max (clock w) (rate_limiting_resettime w)
  /\ rate_limiting_resettime (run_timer w) = rate_limiting_resettime w
  /\ throttle (run_timer w) = throttle w
  /\ get_limit_info_reset (run_timer w) <= 0.
Proof.
  assert (H : run_timer w
              = mkWorld (throttle w)
                  (Z.max (clock w) (rate_limiting_resettime w))
                  (rate_limiting_resettime w)).
  { unfold run_timer, timer, get_limit_info_reset. cbv zeta.
    destruct w as [t c r]. cbn [clock rate_limiting_resettime throttle].
    destruct (r - c) as [|p|p] eqn:E; cbn [Z.iter].
    - f_equal. lia.
    - rewrite sleep1_iter. cbn [clock rate_limiting_resettime throttle].
      f_equal. lia.
    - f_equal. lia. }
  rewrite H. unfold get_limit_info_reset.
  cbn [clock rate_limiting_resettime throttle]. repeat split. lia.
Qed.

(** The two flags of [get_limit_info] that the script uses give a number;
    the "reset" one is the wait [run_timer] computes. *)
Lemma get_limit_info_reset_eq (session : Github) :
  get_limit_info session "reset"
  = Some (get_limit_info_reset (service session)).
Proof. reflexivity. Qed.

Lemma spaces_length (n : nat) (s : string) :
  String.length (spaces n s) = (n + String.length s)%nat.
Proof. induction n as [|n IH]; simpl; [reflexivity|now rewrite IH]. Qed.

Lemma append_length (s t : string) :
  String.length (s ++ t) = (String.length s + String.length t)%nat.
Proof. induction s as [|c s IH]; simpl; [reflexivity|now rewrite IH]. Qed.

Lemma str_int_length_le_4 (n : Z) :
  0 <= n <= 9999 -> (String.length (str_int n) <= 4)%nat.
Proof.
  intros Hn.
  assert (Hall : forallb (fun k => Nat.leb (String.length
                                              (str_int (Z.of_nat k))) 4)
                   (seq 0 (Z.to_nat 10000)) = true) by (vm_compute; reflexivity).
  rewrite forallb_forall in Hall.
  specialize (Hall (Z.to_nat n)).
  rewrite Z2Nat.id in Hall by lia.
  apply Nat.leb_le, Hall, in_seq. lia.
Qed.

Lemma format_02d_length (n : Z) :
  0 <= n < 100 -> String.length (format_02d n) = 2%nat.
Proof.
  intros Hn.
  assert (Hall : forallb (fun k => Nat.eqb (String.length
                                              (format_02d (Z.of_nat k))) 2)
                   (seq 0 (Z.to_nat 100)) = true) by (vm_compute; reflexivity).
  rewrite forallb_forall in Hall.
  specialize (Hall (Z.to_nat n)).
  rewrite Z2Nat.id in Hall by lia.
  apply Nat.eqb_eq, Hall, in_seq. lia.
Qed.

Lemma append_assoc (s t u : string) :
  ((s ++ t) ++ u = s ++ t ++ u)%string.
Proof. induction s as [|c s IH]; simpl; [reflexivity|now rewrite IH]. Qed.

Lemma spaces_split (n : nat) (s : string) :
  spaces n s = (spaces n EmptyString ++ s)%string
  /\ all_chars (Ascii.eqb " ") (spaces n EmptyString) = true.
Proof.
  induction n as [|n [IH1 IH2]]; simpl; [auto|].
  rewrite IH1 at 1. auto.
Qed.

(** X2. For every number of remaining calls from 0 to 9999, the line
    of [print_rem_calls] is the label, then the decimal string of that
    number with nothing but spaces in front of it, the two filling four
    characters, then the carriage return: 21 characters in all, so each
    line printed in place covers the one before it. *)
Theorem print_rem_calls_fixed_width (session : Github)
    (Hrange : 0 <= fst (rate_limiting session) <= 9999) :
  exists line pad,
    print_rem_calls session = Some line
    /\ line = ("    calls left: " ++ pad
               ++ str_int (fst (rate_limiting session)) ++ CR)%string
    /\ all_chars (Ascii.eqb " ") pad = true
    /\ String.length (pad ++ str_int (fst (rate_limiting session))) = 4%nat
    /\ String.length line = 21%nat.
Proof.
  unfold print_rem_calls. cbn [get_limit_info String.eqb Ascii.eqb].
  simpl String.eqb. cbv iota zeta.
  set (n := fst (rate_limiting session)) in *.
  pose proof (str_int_length_le_4 n Hrange) as Hle.
  destruct (spaces_split (4 - String.length (str_int n)) (str_int n))
    as [Hsplit Hpad].
  assert (Hw : String.length (format_4d n) = 4%nat).
  { unfold format_4d. cbv zeta. rewrite spaces_length. lia. }
  exists ("    calls left: " ++ format_4d n ++ CR)%string,
         (spaces (4 - String.length (str_int n)) EmptyString).
  split; [reflexivity|]. split.
  - unfold format_4d. cbv zeta. rewrite Hsplit at 1.
    now rewrite append_assoc.
  - split; [exact Hpad|]. split.
    + rewrite <- Hsplit. exact Hw.
    + rewrite !append_length, Hw. reflexivity.
Qed.

Lemma print_rem_calls_fixed_width_witness :
  0 <= fst (rate_limiting (mkGithub (87, 5000) (unthrottled 0))) <= 9999
  /\ exists line pad,
      print_rem_calls (mkGithub (87, 5000) (unthrottled 0)) = Some line
      /\ line = ("    calls left: " ++ pad
                 ++ str_int (fst (rate_limiting
                                    (mkGithub (87, 5000) (unthrottled 0))))
                 ++ CR)%string
      /\ all_chars (Ascii.eqb " ") pad = true
      /\ String.length
           (pad ++ str_int (fst (rate_limiting
                                   (mkGithub (87, 5000) (unthrottled 0)))))
         = 4%nat
      /\ String.length line = 21%nat.
Proof.
  assert (H : 0 <= fst (rate_limiting
                          (mkGithub (87, 5000) (unthrottled 0))) <= 9999)
    by (simpl; lia).
  split; [exact H|].
  exact (print_rem_calls_fixed_width _ H).
Defined.

(** X3. [timer] prints one countdown line for each second of a positive
    wait, none otherwise; a line for a wait below 100 minutes has 36
    characters, and its minutes and seconds, read as numbers, add up to
    the seconds left, the seconds being below 60. *)
Theorem timer_countdown_lines (countdown_time : Z) :
  List.length (timer_output countdown_time) = Z.to_nat countdown_time
  /\ (forall k, (k < Z.to_nat countdown_time)%nat ->
        nth_error (timer_output countdown_time) k
        = Some (countdown_line (countdown_time - Z.of_nat k)))
  /\ (forall t, 0 <= t < 6000 ->
        String.length (countdown_line t) = 36%nat
        /\ countdown_line t
           = ("Time until calls can be made: "
              ++ (format_02d (t / 60) ++ ":" ++ format_02d (t mod 60))
              ++ CR)%string
        /\ 0 <= t mod 60 < 60 /\ 60 * (t / 60) + t mod 60 = t).
Proof.
  unfold timer_output.
  assert (Hlen : forall n t, List.length (timer_lines n t) = n).
  { induction n as [|n IH]; intros t; simpl; [reflexivity|now rewrite IH]. }
  assert (Hnth : forall n t k, (k < n)%nat ->
             nth_error (timer_lines n t) k
             = Some (countdown_line (t - Z.of_nat k))).
  { induction n as [|n IH]; intros t k Hk; [lia|].
    destruct k as [|k]; simpl.
    - now rewrite Z.sub_0_r.
    - rewrite IH by lia. do 2 f_equal. lia. }
  split; [apply Hlen|]. split; [intros k Hk; now apply Hnth|].
  intros t Ht.
  assert (Hm : 0 <= t / 60 < 100).
  { split; [apply Z.div_pos; lia|apply Z.div_lt_upper_bound; lia]. }
  pose proof (Z.mod_pos_bound t 60 ltac:(lia)) as Hs.
  split.
  - unfold countdown_line. cbv zeta. rewrite !append_length.
    rewrite !format_02d_length by lia. reflexivity.
  - split; [reflexivity|]. split; [lia|].
    symmetry. apply Z.div_mod. lia.
Qed.

End Timing.

(* ===================================================================== *)
(** * What the extractors hand over *)
(* ===================================================================== *)

Module Extraction.
Import Py GitHub Eff Extractor Progress Invariants Samples Loops Alignment
       Backoff.

(** An invariant of the locals and the world that the block keeps and
    that sleeping does not disturb holds when the loop returns. *)
Lemma while_try_invariant_world {L : Type} (Inv : L -> world -> Prop)
    (cond : L -> bool) (body : M L unit) :
  (forall l w r l' w',
      Inv l w -> cond l = true -> body l w = (r, l', w') -> Inv l' w') ->
  (forall l w, Inv l w -> Inv l (run_timer w)) ->
  forall fuel l w l' w',
    Inv l w -> while_try fuel cond body l w = (Returned l', w') ->
    Inv l' w' /\ cond l' = false.
Proof.
  intros Hbody Hsleep fuel.
  induction fuel as [|fuel IH]; intros l w l' w' Hl H; simpl in H.
  - discriminate.
  - destruct (cond l) eqn:Hc.
    + destruct (body l w) as [[r l1] w1] eqn:Hb.
      pose proof (Hbody _ _ _ _ _ Hl Hc Hb) as Hl1.
      destruct r as [[| |]|[]]; try discriminate; eauto.
    + injection H as <- <-. auto.
Qed.

Lemma lookup_nth_error {A : Type} (l : list A) (i : nat) :
  lookup l (Z.of_nat i) = nth_error l i.
Proof.
  unfold lookup. rewrite (proj2 (Z.leb_le 0 (Z.of_nat i))) by lia.
  now rewrite Nat2Z.id.
Qed.

Lemma nth_error_snoc {A : Type} (l : list A) (a : A) (i : nat) :
  nth_error (l ++ [a]) i
  = if (i <? List.length l)%nat then nth_error l i
    else if (i =? List.length l)%nat then Some a else None.
Proof.
  destruct (Nat.ltb_spec i (List.length l)) as [Hi|Hi].
  - now apply nth_error_app1.
  - rewrite nth_error_app2 by assumption.
    destruct (Nat.eqb_spec i (List.length l)) as [->|Hne].
    + now rewrite Nat.sub_diag.
    + destruct (i - List.length l)%nat as [|k] eqn:E; [lia|].
      simpl. now destruct k.
Qed.

(** ** Pull requests that have commits *)

Lemma get_PR_info_try_own_commits pr_list output_type l w r l' w' :
  own_commits pr_list l -> (index l <? RATE_LIMIT) = true ->
  get_PR_info_try pr_list output_type l w = (r, l', w') ->
  own_commits pr_list l'.
Proof.
  intros [Hp Hown] Hc H. split.
  { eapply get_PR_info_try_progress; eauto. }
  destruct Hp as [Hi Hlen].
  assert (Hnew : forall ref,
             (forall cur_pr older c,
                 lookup pr_list (index l) = Some cur_pr ->
                 pr_commits cur_pr = (older ++ [c])%list -> ref = Ref c) ->
             forall j cur_pr older c,
               Z.of_nat j < index l + 1 ->
               nth_error pr_list j = Some cur_pr ->
               pr_commits cur_pr = (older ++ [c])%list ->
               nth_error (commits_list l ++ [ref]) j = Some (Ref c)).
  { intros ref Href j cur_pr older c Hlt Hnth Hcommits.
    rewrite nth_error_snoc.
    destruct (Nat.ltb_spec j (List.length (commits_list l))) as [Hj|Hj].
    - apply (Hown j cur_pr older c); [lia|assumption|assumption].
    - assert (Hj' : j = List.length (commits_list l)) by lia.
      rewrite Hj', Nat.eqb_refl. f_equal.
      apply (Href cur_pr older c); [|assumption].
      rewrite <- Hlen, <- Hj', lookup_nth_error. assumption. }
  rewrite get_PR_info_try_eq in H.
  destruct (request w) as [w1|]; [|injection H as <- <- <-; exact Hown].
  destruct (lookup pr_list (index l)) as [cur|] eqn:Hcur;
    [|injection H as <- <- <-; exact Hown].
  destruct (PR_info_list_of output_type cur) as [e|info];
    [injection H as <- <- <-; exact Hown|].
  cbv zeta in H.
  destruct (request w1) as [w2|]; [|injection H as <- <- <-; exact Hown].
  destruct (rev (pr_commits cur)) as [|c0 r0] eqn:Hrev.
  - injection H as <- <- <-. locals_simpl. apply Hnew.
    intros cur_pr older c Hsame Hcommits.
    assert (cur_pr = cur) by congruence. subst cur_pr.
    rewrite Hcommits, rev_app_distr in Hrev. discriminate Hrev.
  - destruct (request w2) as [w3|]; [|injection H as <- <- <-; exact Hown].
    injection H as <- <- <-. locals_simpl. apply Hnew.
    intros cur_pr older c Hsame Hcommits.
    assert (cur_pr = cur) by congruence. subst cur_pr.
    rewrite Hcommits, rev_app_distr in Hrev. simpl in Hrev. congruence.
Qed.

Lemma get_PR_info_loop_own_commits fuel pr_list output_type w l w' :
  get_PR_info_loop fuel pr_list output_type PR_init w = (Returned l, w') ->
  own_commits pr_list l /\ index l = RATE_LIMIT.
Proof.
  intros Hl.
  apply (while_try_invariant (own_commits pr_list)) in Hl.
  - destruct Hl as [Hown Hc]. apply Z.ltb_ge in Hc.
    split; [assumption|]. destruct Hown as [[Hidx _] _]. lia.
  - intros. eapply get_PR_info_try_own_commits; eauto.
  - split; [unfold PR_progress, RATE_LIMIT; simpl; lia|].
    intros j ? ? ? Hj. simpl in Hj. lia.
Qed.

(** X4. Whatever requests the service refuses, when [get_PR_info]
    returns, [commits_list] has [RATE_LIMIT] entries, and the entry at
    the index of a pull request that has at least one commit is the last
    commit of that pull request. *)
Theorem PR_with_commits_gets_its_last_commit
    fuel pr_list output_type w pm cl w' i cur_pr older c
    (Hrun : get_PR_info fuel pr_list output_type w = (Returned (pm, cl), w'))
    (Hi : Z.of_nat i < RATE_LIMIT)
    (Hpr : nth_error pr_list i = Some cur_pr)
    (Hcommits : pr_commits cur_pr = (older ++ [c])%list) :
  Z.of_nat (List.length cl) = RATE_LIMIT /\ nth_error cl i = Some (Ref c).
Proof.
  apply get_PR_info_returned in Hrun. destruct Hrun as (l & Hl & -> & ->).
  apply get_PR_info_loop_own_commits in Hl.
  destruct Hl as [[[Hidx Hlen] Hown] Hend].
  split; [lia|].
  apply (Hown i cur_pr older c); [lia|assumption|assumption].
Qed.

Lemma PR_with_commits_gets_its_last_commit_witness :
  exists pm cl w',
    get_PR_info 6 prs_gap "pr" (unthrottled 0) = (Returned (pm, cl), w')
    /\ Z.of_nat 2 < RATE_LIMIT
    /\ nth_error prs_gap 2 = Some (pr_of 12 1 [cy1])
    /\ pr_commits (pr_of 12 1 [cy1]) = ([] ++ [cy1])%list
    /\ Z.of_nat (List.length cl) = RATE_LIMIT
    /\ nth_error cl 2 = Some (Ref cy1).
Proof.
  do 3 eexists.
  split; [vm_compute; reflexivity|].
  split; [reflexivity|]. split; [reflexivity|]. split; [reflexivity|].
  eapply (PR_with_commits_gets_its_last_commit 6 prs_gap "pr" (unthrottled 0)
           _ _ _ 2 (pr_of 12 1 [cy1]) [] cy1);
    [vm_compute; reflexivity|reflexivity|reflexivity|reflexivity].
Defined.

(** ** Issues *)

Lemma get_issue_info_try_own_issues issue_list l w r l' w' :
  own_issues issue_list l -> (issue_index l <? RATE_LIMIT) = true ->
  get_issue_info_try issue_list l w = (r, l', w') ->
  own_issues issue_list l'.
Proof.
  intros (Hp & Hflag & Hown) Hc H. split.
  { eapply get_issue_info_try_progress; eauto. }
  destruct Hp as [Hi Hlen].
  rewrite get_issue_info_try_eq in H.
  destruct (request w) as [w1|];
    [|injection H as <- <- <-; split; assumption].
  destruct (lookup issue_list (issue_index l)) as [cur|] eqn:Hcur;
    [|injection H as <- <- <-; split; assumption].
  destruct (closed_date_str (issue_closed_at cur)) as [e|d] eqn:Hd;
    [injection H as <- <- <-; split; assumption|].
  cbv zeta in H. injection H as <- <- <-. locals_simpl.
  assert (Hnew : match pull_request cur with
                 | Some _ => 1
                 | None => isPR l
                 end = 0 \/
                 match pull_request cur with
                 | Some _ => 1
                 | None => isPR l
                 end = 1)
    by (destruct (pull_request cur); auto).
  split; [exact Hnew|].
  intros j Hj. rewrite nth_error_snoc.
  destruct (Nat.ltb_spec j (List.length (issue_metalist l))) as [Hlt|Hge].
  - apply Hown. lia.
  - assert (Hj' : j = List.length (issue_metalist l)) by lia.
    rewrite Hj', Nat.eqb_refl.
    exists cur, d. eexists. split.
    + rewrite <- lookup_nth_error, Hlen. exact Hcur.
    + split; [exact Hd|]. split; [reflexivity|]. split; [exact Hnew|].
      destruct (pull_request cur); [reflexivity|]. now intros [].
Qed.

Lemma get_issue_info_loop_own_issues fuel issue_list w l w' :
  get_issue_info_loop fuel issue_list issue_init w = (Returned l, w') ->
  own_issues issue_list l /\ issue_index l = RATE_LIMIT.
Proof.
  intros Hl.
  apply (while_try_invariant (own_issues issue_list)) in Hl.
  - destruct Hl as [Hown Hc]. apply Z.ltb_ge in Hc.
    split; [assumption|]. destruct Hown as [[Hidx _] _]. lia.
  - intros. eapply get_issue_info_try_own_issues; eauto.
  - split; [unfold issue_progress, RATE_LIMIT; simpl; lia|].
    split; [now left|]. intros j Hj. simpl in Hj. lia.
Qed.

(** X5. Whatever requests the service refuses, when [get_issue_info]
    returns, it returns [RATE_LIMIT] fragments, and the fragment at index
    [i] is built from the issue at index [i]: its closing date, author,
    title, stored body and comment count; its isPR field is 0 or 1, and
    it is 1 when that issue carries a pull request link. *)
Theorem issue_fragment_is_of_its_issue
    fuel issue_list w im w' i
    (Hrun : get_issue_info fuel issue_list w = (Returned im, w'))
    (Hi : Z.of_nat i < RATE_LIMIT) :
  Z.of_nat (List.length im) = RATE_LIMIT /\
  exists cur_issue d flag,
    nth_error issue_list i = Some cur_issue /\
    closed_date_str (issue_closed_at cur_issue) = inr d /\
    nth_error im i
    = Some [VStr d; VStr (str_opt (issue_user_name cur_issue));
            VStr (issue_title cur_issue);
            VStr (quoted_body (issue_body cur_issue));
            VStr (comment_str (issue_comments cur_issue)); VInt flag] /\
    (flag = 0 \/ flag = 1) /\
    (pull_request cur_issue <> None -> flag = 1).
Proof.
  apply get_issue_info_returned in Hrun. destruct Hrun as (l & Hl & ->).
  apply get_issue_info_loop_own_issues in Hl.
  destruct Hl as [([Hidx Hlen] & _ & Hown) Hend].
  split; [lia|]. apply Hown. lia.
Qed.

Lemma issue_fragment_is_of_its_issue_witness :
  exists im w',
    get_issue_info 9 issues_ok throttled_once = (Returned im, w')
    /\ Z.of_nat 3 < RATE_LIMIT
    /\ Z.of_nat (List.length im) = RATE_LIMIT
    /\ exists cur_issue d flag,
        nth_error issues_ok 3 = Some cur_issue /\
        closed_date_str (issue_closed_at cur_issue) = inr d /\
        nth_error im 3
        = Some [VStr d; VStr (str_opt (issue_user_name cur_issue));
                VStr (issue_title cur_issue);
                VStr (quoted_body (issue_body cur_issue));
                VStr (comment_str (issue_comments cur_issue)); VInt flag] /\
        (flag = 0 \/ flag = 1) /\
        (pull_request cur_issue <> None -> flag = 1).
Proof.
  do 2 eexists.
  split; [vm_compute; reflexivity|]. split; [reflexivity|].
  eapply (issue_fragment_is_of_its_issue 9 issues_ok throttled_once _ _ 3);
    [vm_compute; reflexivity|reflexivity].
Defined.

(** ** Commits *)

Lemma item_of_nat {A : Type} (l : list A) (i : nat) :
  item l (Z.of_nat i) = from_option IndexError (nth_error l i).
Proof.
  unfold item, getitem.
  rewrite (proj2 (Z.leb_le 0 (Z.of_nat i))) by lia. now rewrite Nat2Z.id.
Qed.

Lemma item_nonneg {A : Type} (l : list A) (i : Z) :
  0 <= i -> item l i = from_option IndexError (nth_error l (Z.to_nat i)).
Proof.
  intros Hi. unfold item, getitem. now rewrite (proj2 (Z.leb_le 0 i)).
Qed.

Lemma get_commit_info_try_own commit_list output_type l w r l' w' :
  own_commit_fragments commit_list output_type l ->
  (commit_list_index l <? RATE_LIMIT) = true ->
  get_commit_info_try commit_list output_type l w = (r, l', w') ->
  own_commit_fragments commit_list output_type l'.
Proof.
  intros [Hp Hown] Hc H. split.
  { eapply get_commit_info_try_progress; eauto. }
  destruct Hp as [Hi Hlen].
  assert (Hnew : forall cur info,
             item commit_list (commit_list_index l) = inr cur ->
             (forall c, cur = Ref c ->
                        info = commit_info_list_of output_type c) ->
             forall j c,
               Z.of_nat j < commit_list_index l + 1 ->
               nth_error commit_list j = Some (Ref c) ->
               nth_error (commit_info_metalist l ++ [info]) j
               = Some (commit_info_list_of output_type c)).
  { intros cur info Hcur Hinfo j c Hj Hnth. rewrite nth_error_snoc.
    destruct (Nat.ltb_spec j (List.length (commit_info_metalist l)))
      as [Hlt|Hge].
    - apply Hown; [lia|assumption].
    - assert (Hj' : j = List.length (commit_info_metalist l)) by lia.
      rewrite Hj', Nat.eqb_refl.
      rewrite <- Hlen, <- Hj', item_of_nat, Hnth in Hcur.
      injection Hcur as <-. now rewrite (Hinfo c eq_refl). }
  rewrite get_commit_info_try_eq in H.
  destruct (item commit_list (commit_list_index l)) as [e|[c0|]] eqn:Hcur.
  - injection H as <- <- <-. exact Hown.
  - cbv zeta in H.
    destruct (output_type =? "pr")%string.
    + injection H as <- <- <-. locals_simpl.
      apply (Hnew _ _ eq_refl). now intros c [= <-].
    + destruct (request w) as [w1|]; injection H as <- <- <-; locals_simpl.
      * apply (Hnew _ _ eq_refl). now intros c [= <-].
      * exact Hown.
  - injection H as <- <- <-. locals_simpl.
    apply (Hnew _ _ eq_refl). discriminate.
Qed.

(** In "pr" mode [get_commit_info] makes no request and never sleeps. *)
Lemma get_commit_info_loop_world commit_list fuel :
  forall l w,
    snd (get_commit_info_loop fuel commit_list "pr" l w) = w.
Proof.
  unfold get_commit_info_loop.
  induction fuel as [|fuel IH]; intros l w; simpl; [reflexivity|].
  destruct (commit_list_index l <? RATE_LIMIT); [|reflexivity].
  rewrite get_commit_info_try_eq.
  destruct (item commit_list (commit_list_index l)) as [e|[c|]] eqn:E.
  - apply item_raises in E. subst e. reflexivity.
  - cbv zeta. cbn [String.eqb Ascii.eqb Bool.eqb]. apply IH.
  - apply IH.
Qed.

(** The block of [get_commit_info] raises nothing but [IndexError],
    at an index past the end of [commit_list], and what the loop
    catches. *)
Lemma get_commit_info_try_raises commit_list output_type l w e l' w' :
  0 <= commit_list_index l ->
  get_commit_info_try commit_list output_type l w = (inl e, l', w') ->
  e = RateLimitExceededException
  \/ (e = IndexError
      /\ Z.of_nat (List.length commit_list) <= commit_list_index l).
Proof.
  intros Hi H. rewrite get_commit_info_try_eq in H.
  rewrite item_nonneg in H by assumption.
  destruct (nth_error commit_list (Z.to_nat (commit_list_index l)))
    as [[c|]|] eqn:E; cbn [from_option] in H.
  - cbv zeta in H. destruct (output_type =? "pr")%string; [discriminate|].
    destruct (request w); [discriminate|].
    injection H as <- _ _. now left.
  - discriminate.
  - injection H as <- _ _. right. split; [reflexivity|].
    apply nth_error_None in E. lia.
Qed.

(** With a reference for each index, the loop of [get_commit_info]
    returns, whatever is refused. *)
Lemma get_commit_info_loop_runs fuel commit_list output_type w :
  RATE_LIMIT <= Z.of_nat (List.length commit_list) ->
  (5 + List.length (throttle w) < fuel)%nat ->
  exists l' w',
    get_commit_info_loop fuel commit_list output_type commit_init w
    = (Returned l', w')
    /\ (List.length (throttle w') <= List.length (throttle w))%nat.
Proof.
  intros Hlen Hfuel.
  pose proof (get_commit_info_loop_terminates fuel commit_list output_type
                commit_init w Hfuel) as Hend.
  pose proof (get_commit_info_throttle fuel commit_list output_type w)
    as Hthr.
  unfold get_commit_info in Hthr.
  destruct (get_commit_info_loop fuel commit_list output_type commit_init w)
    as [[l|e|] w'] eqn:Hl.
  - exists l, w'. split; [reflexivity|exact Hthr].
  - exfalso. revert Hl. unfold get_commit_info_loop.
    apply (while_try_never_raises commit_progress).
    + intros. eapply get_commit_info_try_progress; eauto.
    + intros l0 w0 e0 l1 w1 [Hidx _] Hc H. apply Z.ltb_lt in Hc.
      apply get_commit_info_try_raises in H; [|lia].
      destruct H as [H|[_ H]]; [exact H|lia].
    + unfold commit_progress, RATE_LIMIT. simpl. lia.
  - now destruct Hend.
Qed.

(** With fewer references than [RATE_LIMIT], the loop ends in
    [IndexError], whatever is refused. *)
Lemma get_commit_info_loop_short fuel commit_list output_type w :
  Z.of_nat (List.length commit_list) < RATE_LIMIT ->
  (5 + List.length (throttle w) < fuel)%nat ->
  fst (get_commit_info_loop fuel commit_list output_type commit_init w)
  = Raised IndexError.
Proof.
  intros Hlen Hfuel.
  pose proof (get_commit_info_loop_terminates fuel commit_list output_type
                commit_init w Hfuel) as Hend.
  destruct (get_commit_info_loop fuel commit_list output_type commit_init w)
    as [[l|e|] w'] eqn:Hl; simpl.
  - exfalso. unfold get_commit_info_loop in Hl.
    apply (while_try_invariant
             (fun l => 0 <= commit_list_index l
                       <= Z.of_nat (List.length commit_list))) in Hl.
    + destruct Hl as [Hi Hc]. apply Z.ltb_ge in Hc. lia.
    + intros l0 w0 r l1 w1 Hi Hc H.
      rewrite get_commit_info_try_eq in H.
      rewrite item_nonneg in H by lia.
      destruct (nth_error commit_list (Z.to_nat (commit_list_index l0)))
        as [cur|] eqn:E; cbn [from_option] in H.
      * assert (Hlt : (Z.to_nat (commit_list_index l0)
                       < List.length commit_list)%nat)
          by (apply nth_error_Some; congruence).
        destruct cur as [c|]; cbv zeta in H;
          [destruct (output_type =? "pr")%string;
           [|destruct (request w0)]|];
          injection H as <- <- <-; locals_simpl; lia.
      * injection H as <- <- <-. exact Hi.
    + simpl. lia.
  - unfold get_commit_info_loop in Hl.
    apply (while_try_raises (fun e => e = IndexError)) in Hl.
    + now destruct Hl as [_ ->].
    + intros l0 w0 e0 l1 w1 Hc H.
      rewrite get_commit_info_try_eq in H.
      destruct (item commit_list (commit_list_index l0))
        as [e1|[c|]] eqn:E.
      * apply item_raises in E. injection H as <- _ _. now right.
      * cbv zeta in H. destruct (output_type =? "pr")%string;
          [discriminate|].
        destruct (request w0); [discriminate|].
        injection H as <- _ _. now left.
      * discriminate.
  - now destruct Hend.
Qed.

Lemma get_commit_info_loop_own fuel commit_list output_type w l w' :
  get_commit_info_loop fuel commit_list output_type commit_init w
    = (Returned l, w') ->
  own_commit_fragments commit_list output_type l /\
  commit_list_index l = RATE_LIMIT.
Proof.
  intros Hl.
  apply (while_try_invariant
           (own_commit_fragments commit_list output_type)) in Hl.
  - destruct Hl as [Hown Hc]. apply Z.ltb_ge in Hc.
    split; [assumption|]. destruct Hown as [[Hidx _] _]. lia.
  - intros. eapply get_commit_info_try_own; eauto.
  - split; [unfold commit_progress, RATE_LIMIT; simpl; lia|].
    intros j c Hj. simpl in Hj. lia.
Qed.

(** X6. Whatever requests the service refuses, [get_commit_info] hands
    over the same fragments: given at least [RATE_LIMIT] commit
    references it returns [RATE_LIMIT] fragments, and the fragment at the
    index of a commit is built from that commit; given fewer it raises
    [IndexError]. A refused request for the files of a commit costs a
    retry of the same index and nothing else. In "pr" mode it asks the
    service nothing and leaves the world as it found it. *)
Theorem get_commit_info_outlasts_refusals fuel commit_list output_type w
    (Hfuel : (5 + List.length (throttle w) < fuel)%nat) :
  (if RATE_LIMIT <=? Z.of_nat (List.length commit_list) then
     exists cm,
       fst (get_commit_info fuel commit_list output_type w) = Returned cm /\
       Z.of_nat (List.length cm) = RATE_LIMIT /\
       forall i c,
         Z.of_nat i < RATE_LIMIT ->
         nth_error commit_list i = Some (Ref c) ->
         nth_error cm i = Some (commit_info_list_of output_type c)
   else
     fst (get_commit_info fuel commit_list output_type w)
     = Raised IndexError)
  /\ (output_type = "pr" ->
      snd (get_commit_info fuel commit_list output_type w) = w).
Proof.
  split.
  - destruct (Z.leb_spec RATE_LIMIT (Z.of_nat (List.length commit_list)))
      as [Hlen|Hlen].
    + destruct (get_commit_info_loop_runs fuel commit_list output_type w
                  Hlen Hfuel) as (l & w' & Hl & _).
      unfold get_commit_info. rewrite Hl. exists (commit_info_metalist l).
      split; [reflexivity|].
      apply get_commit_info_loop_own in Hl.
      destruct Hl as [[[Hidx Hl] Hown] Hend].
      split; [lia|]. intros i c Hi. apply Hown. lia.
    + pose proof (get_commit_info_loop_short fuel commit_list output_type w
                    Hlen Hfuel) as H.
      unfold get_commit_info.
      destruct (get_commit_info_loop _ _ _ _ _) as [[l|e|] w'];
        simpl in H; try discriminate H.
      injection H as ->. reflexivity.
  - intros ->. unfold get_commit_info.
    pose proof (get_commit_info_loop_world commit_list fuel commit_init w)
      as H.
    destruct (get_commit_info_loop _ _ _ _ _) as [[l| |] w']; exact H.
Qed.

Lemma get_commit_info_outlasts_refusals_witness :
  (5 + List.length (throttle throttled_once) < 8)%nat /\
  (exists cm,
      fst (get_commit_info 8
             [Ref ann2; NoCommit; Ref cy1; Ref dee1; Ref eve1]
             "commit" throttled_once) = Returned cm /\
      Z.of_nat (List.length cm) = RATE_LIMIT /\
      forall i c,
        Z.of_nat i < RATE_LIMIT ->
        nth_error [Ref ann2; NoCommit; Ref cy1; Ref dee1; Ref eve1] i
        = Some (Ref c) ->
        nth_error cm i = Some (commit_info_list_of "commit" c)).
Proof.
  assert (H : (5 + List.length (throttle throttled_once) < 8)%nat)
    by (simpl; lia).
  split; [exact H|].
  exact (proj1 (get_commit_info_outlasts_refusals 8
                  [Ref ann2; NoCommit; Ref cy1; Ref dee1; Ref eve1]
                  "commit" throttled_once H)).
Defined.

(** ** Pull request fragments while nothing is refused *)

Lemma get_PR_info_try_own_fragments pr_list output_type l w r l' w' :
  own_fragments pr_list output_type l w ->
  get_PR_info_try pr_list output_type l w = (r, l', w') ->
  own_fragments pr_list output_type l' w'.
Proof.
  intros (Hw & Hi & Hlen & Hown) H.
  rewrite get_PR_info_try_eq in H.
  rewrite (request_unthrottled w Hw) in H.
  destruct (lookup pr_list (index l)) as [cur|] eqn:Hcur;
    [|injection H as <- <- <-; repeat split; assumption].
  destruct (PR_info_list_of output_type cur) as [e|info] eqn:Hinfo;
    [injection H as <- <- <-; repeat split; assumption|].
  cbv zeta in H. rewrite (request_unthrottled w Hw) in H.
  assert (Hnew : forall j, Z.of_nat j < index l + 1 ->
             exists cur_pr info0,
               nth_error pr_list j = Some cur_pr /\
               PR_info_list_of output_type cur_pr = inr info0 /\
               nth_error (pr_metalist l ++ [info]) j = Some info0).
  { intros j Hj. rewrite nth_error_snoc.
    destruct (Nat.ltb_spec j (List.length (pr_metalist l))) as [Hlt|Hge].
    - apply Hown. lia.
    - assert (Hj' : j = List.length (pr_metalist l)) by lia.
      rewrite Hj', Nat.eqb_refl. exists cur, info.
      split; [|split; [assumption|reflexivity]].
      rewrite <- lookup_nth_error, Hlen. exact Hcur. }
  destruct (rev (pr_commits cur)) as [|c0 r0].
  - injection H as <- <- <-. unfold own_fragments. locals_simpl.
    split; [assumption|]. split; [lia|].
    split; [rewrite length_app; cbn [List.length]; lia|exact Hnew].
  - rewrite (request_unthrottled w Hw) in H.
    injection H as <- <- <-. unfold own_fragments. locals_simpl.
    split; [assumption|]. split; [lia|].
    split; [rewrite length_app; cbn [List.length]; lia|exact Hnew].
Qed.

(** When no request is refused and [get_PR_info] returns, [pr_metalist]
    holds the fragments of the first [RATE_LIMIT] pull requests, each at
    its index. *)
Lemma get_PR_info_unthrottled fuel pr_list output_type w pm cl w' i :
  throttle w = [] ->
  get_PR_info fuel pr_list output_type w = (Returned (pm, cl), w') ->
  Z.of_nat i < RATE_LIMIT ->
  throttle w' = [] /\
  exists cur_pr info,
    nth_error pr_list i = Some cur_pr /\
    PR_info_list_of output_type cur_pr = inr info /\
    nth_error pm i = Some info.
Proof.
  intros Hw Hrun Hi.
  apply get_PR_info_returned in Hrun. destruct Hrun as (l & Hl & -> & ->).
  pose proof (get_PR_info_loop_returns _ _ _ _ _ _ Hl) as [Hidx _].
  apply (while_try_invariant_world (own_fragments pr_list output_type))
    in Hl.
  - destruct Hl as [(Hw' & _ & _ & Hown) _].
    split; [assumption|]. apply Hown. lia.
  - intros. eapply get_PR_info_try_own_fragments; eauto.
  - intros l0 w0 (Hw0 & H0). split; [|assumption].
    now rewrite run_timer_throttle.
  - split; [assumption|]. split; [simpl; lia|]. split; [reflexivity|].
    intros j Hj. simpl in Hj. lia.
Qed.

(** ** The rows of a run that returns *)

(** The aggregation loop, when it returns, has written the row of every
    index it passed at that index. *)
Lemma aggregate_rows output_type cm pm im todo :
  forall i written rows k,
    0 <= i ->
    aggregate todo output_type cm pm im i written = (inr tt, rows) ->
    (k < todo)%nat ->
    exists r,
      output_row_of output_type cm pm im (i + Z.of_nat k) = inr r /\
      nth_error rows (List.length written + k) = Some r.
Proof.
  induction todo as [|todo IH]; intros i written rows k Hi H Hk; [lia|].
  simpl in H.
  destruct (output_row_of output_type cm pm im i) as [e|r0] eqn:E;
    [discriminate|].
  destruct k as [|k].
  - exists r0. rewrite Z.add_0_r, Nat.add_0_r. split; [assumption|].
    apply aggregate_spec in H; [|lia].
    destruct H as (new & -> & _).
    rewrite <- app_assoc. rewrite nth_error_app2 by lia.
    now rewrite Nat.sub_diag.
  - destruct (IH (i + 1) (written ++ [r0])%list rows k) as (r & Hr & Hnth);
      [lia|assumption|lia|].
    exists r. split.
    + rewrite <- Hr. f_equal. lia.
    + rewrite <- Hnth. f_equal. rewrite length_app. simpl. lia.
Qed.

(** A row depends on the three sequences through their entries at its
    index only. *)
Lemma output_row_of_entries output_type cm pm im i cf pf :
  nth_error cm i = Some cf -> nth_error pm i = Some pf ->
  output_row_of output_type cm pm im (Z.of_nat i)
  = output_row_of output_type [cf] [pf]
      (match nth_error im i with Some f => [f] | None => [] end) 0.
Proof.
  intros Hc Hp. unfold output_row_of.
  rewrite !item_of_nat, Hc, Hp.
  change (item [cf] 0) with (inr (B := fragment) (A := exn) cf).
  change (item [pf] 0) with (inr (B := fragment) (A := exn) pf).
  cbn [from_option and_then].
  destruct (nth_error im i) as [f|]; reflexivity.
Qed.

(** The entries at one index of the three sequences of a run in which
    no request is refused and which returns, and the row made of them. *)
Lemma clean_run_entries
    fuel output_type issues_list pr_list w rows w' i cur_pr older c :
  throttle w = [] ->
  write_csv_output fuel output_type (issues_list, pr_list) w
    = mkRun (Returned tt) (Some rows) w' ->
  Z.of_nat i < RATE_LIMIT ->
  nth_error pr_list i = Some cur_pr ->
  pr_commits cur_pr = (older ++ [c])%list ->
  exists cm pm im info r,
    PR_info_list_of output_type cur_pr = inr info /\
    nth_error cm i = Some (commit_info_list_of output_type c) /\
    nth_error pm i = Some info /\
    output_row_of output_type cm pm im (Z.of_nat i) = inr r /\
    nth_error rows (S i) = Some r /\
    if (output_type =? "pr")%string then
      exists cur_issue d flag,
        nth_error issues_list i = Some cur_issue /\
        closed_date_str (issue_closed_at cur_issue) = inr d /\
        (flag = 0 \/ flag = 1) /\
        nth_error im i = Some (issue_context_list_of cur_issue d flag)
    else im = [].
Proof.
  intros Hw Hrun Hi Hpr Hcommits.
  assert (Hok : ending (write_csv_output fuel output_type
                          (issues_list, pr_list) w) = Returned tt)
    by now rewrite Hrun.
  apply write_csv_output_returned in Hok.
  destruct Hok as (pm & cl & w1 & cm & w2 & im & w3 & rows0
                   & Hprs & Hcommit & Hissue & Hrows & Heq).
  rewrite Hrun in Heq. injection Heq as -> _.
  (* the pull request fragment and the commit reference of index i *)
  destruct (get_PR_info_unthrottled _ _ _ _ _ _ _ i Hw Hprs Hi)
    as (_ & pr0 & info & Hpr0 & Hinfo & Hpm).
  assert (pr0 = cur_pr) by congruence. subst pr0.
  apply get_PR_info_returned in Hprs. destruct Hprs as (l & Hl & -> & ->).
  apply get_PR_info_loop_own_commits in Hl.
  destruct Hl as [[[Hidx Hlen] Hown] Hend].
  assert (Hcl : nth_error (commits_list l) i = Some (Ref c))
    by (apply (Hown i cur_pr older c); [lia|assumption|assumption]).
  (* the commit fragment of index i *)
  apply get_commit_info_returned in Hcommit.
  destruct Hcommit as (lc & Hlc & ->).
  apply get_commit_info_loop_own in Hlc.
  destruct Hlc as [[_ Hownc] Hendc].
  assert (Hcm : nth_error (commit_info_metalist lc) i
                = Some (commit_info_list_of output_type c))
    by (apply Hownc; [lia|assumption]).
  (* the row of index i *)
  unfold write_rows in Hrows.
  destruct (aggregate_rows _ _ _ _ _ 0 [label_cols output_type] rows0 i
              ltac:(lia) Hrows ltac:(unfold RATE_LIMIT in *; lia))
    as (r & Hr & Hnth).
  rewrite Z.add_0_l in Hr.
  exists (commit_info_metalist lc), (pr_metalist l), im, info, r.
  do 5 (split; [assumption|]).
  destruct (output_type =? "pr")%string eqn:Hmode.
  - apply get_issue_info_returned in Hissue.
    destruct Hissue as (li & Hli & ->).
    apply get_issue_info_loop_own_issues in Hli.
    destruct Hli as [(_ & _ & Howni) Hendi].
    destruct (Howni i ltac:(lia))
      as (cur_issue & d & flag & Hiss & Hd & Him & Hflag & _).
    exists cur_issue, d, flag. auto.
  - now injection Hissue as <- _.
Qed.

(** X7. In a run in which no request is refused and which returns, data
    row [i] is the join of fragments of one and the same index: when the
    pull request at index [i] has at least one commit, the row is made of
    the fragment of that pull request, the fragment of its last commit
    and, in "pr" mode, the fragment of the issue at index [i]. *)
Theorem clean_run_joins_fragments_of_one_index
    fuel output_type issues_list pr_list w rows w' i cur_pr older c
    (Hw : throttle w = [])
    (Hrun : write_csv_output fuel output_type (issues_list, pr_list) w
            = mkRun (Returned tt) (Some rows) w')
    (Hi : Z.of_nat i < RATE_LIMIT)
    (Hpr : nth_error pr_list i = Some cur_pr)
    (Hcommits : pr_commits cur_pr = (older ++ [c])%list) :
  exists info issue_part r,
    PR_info_list_of output_type cur_pr = inr info /\
    (if (output_type =? "pr")%string then
       exists cur_issue d flag,
         nth_error issues_list i = Some cur_issue /\
         closed_date_str (issue_closed_at cur_issue) = inr d /\
         (flag = 0 \/ flag = 1) /\
         issue_part = [issue_context_list_of cur_issue d flag]
     else issue_part = []) /\
    output_row_of output_type [commit_info_list_of output_type c] [info]
      issue_part 0 = inr r /\
    nth_error rows (S i) = Some r.
Proof.
  destruct (clean_run_entries _ _ _ _ _ _ _ _ _ _ _ Hw Hrun Hi Hpr Hcommits)
    as (cm & pm & im & info & r & Hinfo & Hcm & Hpm & Hr & Hnth & Him).
  rewrite (output_row_of_entries _ _ _ _ _ _ _ Hcm Hpm) in Hr.
  exists info. eexists. exists r.
  split; [assumption|]. split; [|split; [exact Hr|exact Hnth]].
  destruct (output_type =? "pr")%string.
  - destruct Him as (cur_issue & d & flag & Hiss & Hd & Hflag & Him).
    exists cur_issue, d, flag. rewrite Him. auto.
  - subst im. now destruct i.
Qed.

Lemma clean_run_joins_fragments_of_one_index_witness :
  exists rows w',
    throttle (unthrottled 0) = []
    /\ write_csv_output 6 "pr" (issues_ok, prs_gap) (unthrottled 0)
       = mkRun (Returned tt) (Some rows) w'
    /\ Z.of_nat 2 < RATE_LIMIT
    /\ nth_error prs_gap 2 = Some (pr_of 12 1 [cy1])
    /\ pr_commits (pr_of 12 1 [cy1]) = ([] ++ [cy1])%list
    /\ exists info issue_part r,
        PR_info_list_of "pr" (pr_of 12 1 [cy1]) = inr info /\
        (exists cur_issue d flag,
            nth_error issues_ok 2 = Some cur_issue /\
            closed_date_str (issue_closed_at cur_issue) = inr d /\
            (flag = 0 \/ flag = 1) /\
            issue_part = [issue_context_list_of cur_issue d flag]) /\
        output_row_of "pr" [commit_info_list_of "pr" cy1] [info]
          issue_part 0 = inr r /\
        nth_error rows 3 = Some r.
Proof.
  do 2 eexists.
  split; [reflexivity|]. split; [vm_compute; reflexivity|].
  split; [reflexivity|]. split; [reflexivity|]. split; [reflexivity|].
  eapply (clean_run_joins_fragments_of_one_index 6 "pr" issues_ok prs_gap
            (unthrottled 0) _ _ 2 (pr_of 12 1 [cy1]) [] cy1);
    [reflexivity|vm_compute; reflexivity|reflexivity|reflexivity
    |reflexivity].
Defined.

(** X8. In "commit" mode, in a run in which no request is refused and
    which returns, data row [i] of a pull request with at least one
    commit holds, under the column names of [COMMIT_COL_NAMES] in their
    order: author and committer of its last commit, the number of the
    pull request, the SHA, the quoted message, the file names and the
    totals over the files of that commit. *)
Theorem clean_commit_run_row
    fuel output_type issues_list pr_list w rows w' i cur_pr older c
    (Hmode : (output_type =? "pr")%string = false)
    (Hw : throttle w = [])
    (Hrun : write_csv_output fuel output_type (issues_list, pr_list) w
            = mkRun (Returned tt) (Some rows) w')
    (Hi : Z.of_nat i < RATE_LIMIT)
    (Hpr : nth_error pr_list i = Some cur_pr)
    (Hcommits : pr_commits cur_pr = (older ++ [c])%list) :
  let t := fold_left file_totals_step (files c)
             (mkFile_totals [] 0 0 EmptyString 0 EmptyString) in
  nth_error rows 0 = Some (map VStr COMMIT_COL_NAMES) /\
  exists r,
    nth_error rows (S i) = Some r /\
    combine COMMIT_COL_NAMES r =
    [("Author_Login", VStr (author_name c));
     ("Committer_login", VStr (committer_name c));
     ("PR_Number", VInt (number cur_pr));
     ("SHA", VStr (sha c));
     ("Commit_Message", VStr (DQ ++ message c ++ DQ));
     ("File_name", VList (file_list t));
     ("Patch_text", VStr (commit_patch_text t));
     ("Additions", VInt (commit_adds t));
     ("Deletions", VInt (commit_rms t));
     ("Status", VStr (DQ ++ commit_status_str t ++ DQ));
     ("Changes", VInt (commit_changes t))].
Proof.
  cbv zeta.
  destruct (clean_run_entries _ _ _ _ _ _ _ _ _ _ _ Hw Hrun Hi Hpr Hcommits)
    as (cm & pm & im & info & r & Hinfo & Hcm & Hpm & Hr & Hnth & Him).
  split.
  - assert (Hok : ending (write_csv_output fuel output_type
                            (issues_list, pr_list) w) = Returned tt)
      by now rewrite Hrun.
    apply write_csv_output_returned in Hok.
    destruct Hok as (? & ? & ? & ? & ? & ? & ? & rows0 & _ & _ & _ & Hrows
                     & Heq).
    rewrite Hrun in Heq. injection Heq as -> _.
    unfold write_rows in Hrows. apply aggregate_spec in Hrows; [|lia].
    destruct Hrows as (new & -> & _). unfold label_cols.
    now rewrite Hmode.
  - exists r. split; [assumption|].
    rewrite (output_row_of_entries _ _ _ _ _ _ _ Hcm Hpm) in Hr.
    unfold PR_info_list_of in Hinfo. rewrite Hmode in Hinfo.
    injection Hinfo as <-.
    unfold output_row_of, commit_info_list_of in Hr. rewrite Hmode in Hr.
    cbv zeta in Hr. injection Hr as <-. reflexivity.
Qed.

Lemma clean_commit_run_row_witness :
  exists rows w',
    ("commit" =? "pr")%string = false
    /\ throttle (unthrottled 0) = []
    /\ write_csv_output 6 "commit" ([], prs_ok) (unthrottled 0)
       = mkRun (Returned tt) (Some rows) w'
    /\ Z.of_nat 1 < RATE_LIMIT
    /\ nth_error prs_ok 1 = Some (pr_of 11 3 [bob1])
    /\ pr_commits (pr_of 11 3 [bob1]) = ([] ++ [bob1])%list
    /\ nth_error rows 0 = Some (map VStr COMMIT_COL_NAMES)
    /\ exists r,
        nth_error rows 2 = Some r /\
        combine COMMIT_COL_NAMES r =
        [("Author_Login", VStr "bob");
         ("Committer_login", VStr "bob-committer");
         ("PR_Number", VInt 11);
         ("SHA", VStr "sha-b1");
         ("Commit_Message", VStr (DQ ++ "b1" ++ DQ));
         ("File_name", VList ["src/a.py"; "README"]);
         ("Patch_text", VStr "@@ -1 +1 @@, None, ");
         ("Additions", VInt 4);
         ("Deletions", VInt 2);
         ("Status", VStr (DQ ++ "modified, added, " ++ DQ));
         ("Changes", VInt 6)].
Proof.
  do 2 eexists.
  split; [reflexivity|]. split; [reflexivity|].
  split; [vm_compute; reflexivity|].
  split; [reflexivity|]. split; [reflexivity|]. split; [reflexivity|].
  eapply (clean_commit_run_row 6 "commit" [] prs_ok (unthrottled 0) _ _ 1
            (pr_of 11 3 [bob1]) [] bob1);
    [reflexivity|reflexivity|vm_compute; reflexivity|reflexivity
    |reflexivity|reflexivity].
Defined.

End Extraction.

(* ===================================================================== *)
(** * Text: stripping, the authentication file, stored fields *)
(* ===================================================================== *)

Module TextFacts.
Import Py GitHub Eff Extractor Text Samples PyFacts Normalisation Timing.

(** ** [lstrip] and [rstrip] cut off ends and nothing else *)

Lemma lstrip_split p s :
  exists a, s = (a ++ lstrip p s)%string /\ all_chars p a = true.
Proof.
  induction s as [|c s IH]; simpl.
  - now exists EmptyString.
  - destruct (p c) eqn:Hc.
    + destruct IH as (a & Ha & Hp). exists (String c a). simpl.
      rewrite Hc, Hp. split; [now rewrite <- Ha|reflexivity].
    + now exists EmptyString.
Qed.

Lemma rstrip_split p s :
  exists z, s = (rstrip p s ++ z)%string /\ all_chars p z = true.
Proof.
  induction s as [|c s IH]; simpl.
  - now exists EmptyString.
  - destruct IH as (z & Hz & Hp).
    destruct (rstrip p s) as [|a r] eqn:E.
    + destruct (p c) eqn:Hc.
      * simpl in Hz. subst z. exists (String c s). simpl.
        split; [reflexivity|]. now rewrite Hc, Hp.
      * simpl in Hz. subst z. exists s. split; [reflexivity|assumption].
    + exists z. simpl. split; [|assumption].
      f_equal. exact Hz.
Qed.

Lemma lstrip_stable p s : lstrip p (lstrip p s) = lstrip p s.
Proof.
  induction s as [|c s IH]; simpl; [reflexivity|].
  destruct (p c) eqn:Hc; [assumption|]. simpl. now rewrite Hc.
Qed.

Lemma rstrip_stable p s : rstrip p (rstrip p s) = rstrip p s.
Proof.
  induction s as [|c s IH]; simpl; [reflexivity|].
  destruct (rstrip p s) as [|a r] eqn:E.
  - destruct (p c) eqn:Hc; simpl; [reflexivity|now rewrite Hc].
  - cbn [rstrip]. cbn [rstrip] in IH. rewrite IH. reflexivity.
Qed.

Lemma lstrip_head p s c x : lstrip p s = String c x -> p c = false.
Proof.
  induction s as [|d s IH]; simpl; [discriminate|].
  destruct (p d) eqn:Hd; [assumption|].
  intros [= <- _]. assumption.
Qed.

(** Stripping the end does not uncover anything to strip at the front. *)
Lemma lstrip_rstrip_lstrip p s :
  lstrip p (rstrip p (lstrip p s)) = rstrip p (lstrip p s).
Proof.
  destruct (lstrip p s) as [|c x] eqn:E; [reflexivity|].
  apply lstrip_head in E.
  cbn [rstrip]. destruct (rstrip p x); rewrite ?E; simpl; now rewrite E.
Qed.

Lemma all_chars_lstrip q p s :
  all_chars q s = true -> all_chars q (lstrip p s) = true.
Proof.
  induction s as [|c s IH]; simpl; [reflexivity|].
  intros H. apply andb_prop in H. destruct H as [Hc Hs].
  destruct (p c); [auto|]. simpl. now rewrite Hc, Hs.
Qed.

Lemma all_chars_rstrip q p s :
  all_chars q s = true -> all_chars q (rstrip p s) = true.
Proof.
  induction s as [|c s IH]; simpl; [reflexivity|].
  intros H. apply andb_prop in H. destruct H as [Hc Hs].
  specialize (IH Hs).
  destruct (rstrip p s) as [|a r].
  - destruct (p c); simpl; [reflexivity|now rewrite Hc].
  - cbn [all_chars]. cbn [all_chars] in IH. now rewrite Hc, IH.
Qed.

Lemma lstrip_all p s : all_chars p s = true -> lstrip p s = EmptyString.
Proof.
  induction s as [|c s IH]; simpl; [reflexivity|].
  intros H. apply andb_prop in H. destruct H as [Hc Hs]. rewrite Hc. auto.
Qed.

(** [str.strip()] and [str.strip( chars )] change nothing when applied a
    second time. *)
Lemma strip_twice p s :
  rstrip p (lstrip p (rstrip p (lstrip p s))) = rstrip p (lstrip p s).
Proof. now rewrite lstrip_rstrip_lstrip, rstrip_stable. Qed.

(** ** The authentication file *)

Lemma read_user_info_fold lines :
  forall parsed,
    fold_left read_user_info_step lines parsed
    = (parsed ++ filter nonempty (map clean_line lines))%list.
Proof.
  induction lines as [|v lines IH]; intros parsed; simpl.
  - now rewrite app_nil_r.
  - rewrite IH. unfold read_user_info_step, clean_line. cbv zeta.
    destruct (nonempty (strip (strip_chars v NL))).
    + now rewrite <- app_assoc.
    + reflexivity.
Qed.

Lemma read_user_info_filter (userinfo_text : string) :
  read_user_info userinfo_text
  = filter nonempty (map clean_line (readlines userinfo_text)).
Proof. unfold read_user_info. cbv zeta. now rewrite read_user_info_fold. Qed.

(** X9. [read_user_info] returns the lines of the file in their order,
    each stripped of line breaks and of surrounding whitespace, without
    the lines that are empty after that: no entry is empty, and
    stripping an entry again changes nothing. *)
Theorem read_user_info_entries (userinfo_text : string) :
  read_user_info userinfo_text
  = filter nonempty (map clean_line (readlines userinfo_text))
  /\ Forall (fun entry => nonempty entry = true /\ strip entry = entry)
       (read_user_info userinfo_text).
Proof.
  pose proof (read_user_info_filter userinfo_text) as H.
  split; [exact H|]. rewrite H.
  apply Forall_forall. intros entry Hin.
  apply filter_In in Hin. destruct Hin as [Hin Hne].
  split; [exact Hne|].
  apply in_map_iff in Hin. destruct Hin as (v & <- & _).
  unfold clean_line, strip. apply strip_twice.
Qed.

Lemma readlines_all_chars p text :
  all_chars p text = true ->
  Forall (fun line => all_chars p line = true) (readlines text).
Proof.
  induction text as [|c text IH]; simpl; [constructor|].
  intros H. apply andb_prop in H. destruct H as [Hc Ht].
  specialize (IH Ht).
  destruct (Ascii.eqb c newline).
  - constructor; [simpl; now rewrite Hc|assumption].
  - destruct (readlines text) as [|line lines].
    + constructor; [simpl; now rewrite Hc|constructor].
    + inversion IH as [|? ? Hline Hlines]; subst.
      constructor; [simpl; now rewrite Hc, Hline|assumption].
Qed.

(** A file that holds nothing but whitespace gives no entry. *)
Lemma read_user_info_blank (userinfo_text : string) :
  all_chars isspace userinfo_text = true ->
  read_user_info userinfo_text = [].
Proof.
  intros Hblank. rewrite read_user_info_filter.
  apply readlines_all_chars in Hblank.
  induction Hblank as [|line lines Hline _ IH]; [reflexivity|].
  simpl. rewrite IH.
  assert (Hclean : clean_line line = EmptyString).
  { unfold clean_line, strip, strip_chars.
    rewrite (lstrip_all isspace); [reflexivity|].
    now apply all_chars_rstrip, all_chars_lstrip. }
  now rewrite Hclean.
Qed.

(** ** Stored fields *)

(** X11. The stored body of a pull request or an issue is the text of
    the body between two quote characters, less the line breaks it
    starts with and the line breaks it ends with: nothing else is taken
    away, the rest is kept in place, and what is kept neither starts nor
    ends with a line break. *)
Theorem stored_body_keeps_all_but_outer_newlines (body : option string) :
  exists before kept after,
    str_opt body = (before ++ kept ++ after)%string
    /\ all_chars (in_chars NL) before = true
    /\ all_chars (in_chars NL) after = true
    /\ quoted_body body = (DQ ++ kept ++ DQ)%string
    /\ strip_chars kept NL = kept.
Proof.
  destruct (lstrip_split (in_chars NL) (str_opt body)) as (a & Ha & Hpa).
  destruct (rstrip_split (in_chars NL) (lstrip (in_chars NL) (str_opt body)))
    as (z & Hz & Hpz).
  exists a, (rstrip (in_chars NL) (lstrip (in_chars NL) (str_opt body))), z.
  split; [now rewrite <- Hz|].
  split; [assumption|]. split; [assumption|]. split; [reflexivity|].
  unfold strip_chars. apply strip_twice.
Qed.

(** X12. The comment-count field is the sentinel exactly when the count
    is zero: no other count is rendered as the sentinel, and different
    counts are rendered differently. *)
Theorem sentinel_only_for_zero_comments (n m : Z) :
  (comment_str n = SENTINEL <-> n = 0)
  /\ (comment_str n = comment_str m -> n = m).
Proof.
  assert (Hs : forall k, comment_str k = SENTINEL <-> k = 0).
  { intros k. rewrite comment_str_spec.
    destruct (Z.eqb_spec k 0) as [->|Hk].
    - split; reflexivity.
    - split; [intros H; now apply str_int_not_sentinel in H|contradiction]. }
  split; [apply Hs|].
  intros H. destruct (Z.eq_dec n 0) as [->|Hn].
  - symmetry. apply Hs. now rewrite <- H.
  - destruct (Z.eq_dec m 0) as [->|Hm].
    + apply Hs. now rewrite H.
    + rewrite !comment_str_spec in H.
      rewrite (proj2 (Z.eqb_neq n 0) Hn), (proj2 (Z.eqb_neq m 0) Hm) in H.
      now apply str_int_inj.
Qed.

Lemma two_digits_length (n : Z) :
  0 <= n < 100 -> String.length (two_digits n) = 2%nat.
Proof.
  intros Hn.
  assert (Hall : forallb (fun k => Nat.eqb (String.length
                                              (two_digits (Z.of_nat k))) 2)
                   (seq 0 (Z.to_nat 100)) = true) by (vm_compute; reflexivity).
  rewrite forallb_forall in Hall.
  specialize (Hall (Z.to_nat n)).
  rewrite Z2Nat.id in Hall by lia.
  apply Nat.eqb_eq, Hall, in_seq. lia.
Qed.

(** X13. A date in its calendar ranges is formatted by [TIME_FORM_STR]
    as a string of exactly 20 characters that ends in [AM] or [PM],
    whatever the year. *)
Theorem strftime_has_fixed_width (d : datetime) (Hd : valid_datetime d) :
  String.length (strftime_TIME_FORM_STR d) = 20%nat
  /\ exists stamp,
      strftime_TIME_FORM_STR d = (stamp ++ " " ++ am_pm (hour d))%string
      /\ (am_pm (hour d) = "AM" \/ am_pm (hour d) = "PM").
Proof.
  destruct Hd as (Hy & Hmo & Hda & Hh & Hmi & Hs).
  assert (Hy2 : 0 <= year d mod 100 < 100) by (apply Z.mod_pos_bound; lia).
  assert (Hh12 : 0 <= hour12 (hour d) < 100).
  { unfold hour12. pose proof (Z.mod_pos_bound (hour d) 12 ltac:(lia)).
    destruct (hour d mod 12 =? 0); lia. }
  assert (Hap : String.length (am_pm (hour d)) = 2%nat)
    by (unfold am_pm; destruct (hour d <? 12); reflexivity).
  split.
  - unfold strftime_TIME_FORM_STR. rewrite !append_length.
    rewrite !two_digits_length by lia. rewrite Hap. reflexivity.
  - unfold strftime_TIME_FORM_STR.
    exists (two_digits (month d) ++ "/" ++ two_digits (day d) ++ "/"
            ++ two_digits (year d mod 100) ++ " "
            ++ two_digits (hour12 (hour d)) ++ ":" ++ two_digits (minute d)
            ++ ":" ++ two_digits (second d))%string.
    split.
    + assert (Happ : forall a b c : string,
                 ((a ++ b) ++ c = a ++ b ++ c)%string).
      { intros a b c. induction a as [|x a IH]; simpl; [reflexivity|].
        now rewrite IH. }
      now rewrite !Happ.
    + unfold am_pm. destruct (hour d <? 12); auto.
Qed.

Lemma strftime_has_fixed_width_witness :
  valid_datetime day1
  /\ String.length (strftime_TIME_FORM_STR day1) = 20%nat
  /\ exists stamp,
      strftime_TIME_FORM_STR day1 = (stamp ++ " " ++ am_pm (hour day1))%string
      /\ (am_pm (hour day1) = "AM" \/ am_pm (hour day1) = "PM").
Proof.
  assert (H : valid_datetime day1) by (unfold valid_datetime; simpl; lia).
  split; [exact H|].
  exact (strftime_has_fixed_width day1 H).
Defined.

End TextFacts.

(* ===================================================================== *)
(** * The output file *)
(* ===================================================================== *)

Module Output.
Import Py GitHub Eff Extractor Progress Invariants Samples Loops Alignment.

Lemma file_totals_fold files :
  forall t,
    let t' := fold_left file_totals_step files t in
    file_list t' = (file_list t ++ map filename files)%list
    /\ commit_adds t'
       = commit_adds t + fold_right Z.add 0 (map additions files)
    /\ commit_rms t'
       = commit_rms t + fold_right Z.add 0 (map deletions files)
    /\ commit_changes t'
       = commit_changes t + fold_right Z.add 0 (map changes files)
    /\ commit_patch_text t'
       = (commit_patch_text t
          ++ fold_right append EmptyString
               (map (fun f => str_opt (patch f) ++ ", ") files))%string
    /\ commit_status_str t'
       = (commit_status_str t
          ++ fold_right append EmptyString
               (map (fun f => status f ++ ", ") files))%string.
Proof.
  assert (Happ : forall a b c : string,
             ((a ++ b) ++ c = a ++ b ++ c)%string).
  { intros a b c. induction a as [|x a IH]; simpl; [reflexivity|].
    now rewrite IH. }
  assert (Hnil : forall a : string, (a ++ EmptyString = a)%string).
  { induction a as [|x a IH]; simpl; [reflexivity|now rewrite IH]. }
  induction files as [|f files IH]; intros t; cbv zeta; simpl.
  - rewrite app_nil_r, !Hnil. repeat split; lia.
  - destruct (IH (file_totals_step t f)) as (H1 & H2 & H3 & H4 & H5 & H6).
    rewrite H1, H2, H3, H4, H5, H6. unfold file_totals_step. simpl.
    rewrite <- app_assoc, !Happ. simpl. repeat split; lia.
Qed.

(** X14. In "commit" mode the fragment of a commit has ten fields:
    author, quoted message, committer, SHA, the names of its files in
    their order, the patch texts of the files each followed by a comma
    and a space (the text [None] for a file without patch), the sum of
    the additions, the sum of the deletions, the quoted statuses each
    followed by a comma and a space, and the sum of the changes. *)
Theorem commit_fragment_totals (output_type : string) (c : Commit)
    (Hmode : (output_type =? "pr")%string = false) :
  commit_info_list_of output_type c =
  [VStr (author_name c);
   VStr (DQ ++ message c ++ DQ);
   VStr (committer_name c);
   VStr (sha c);
   VList (map filename (files c));
   VStr (fold_right append EmptyString
           (map (fun f => str_opt (patch f) ++ ", ") (files c)));
   VInt (fold_right Z.add 0 (map additions (files c)));
   VInt (fold_right Z.add 0 (map deletions (files c)));
   VStr (DQ ++ fold_right append EmptyString
                 (map (fun f => status f ++ ", ") (files c)) ++ DQ);
   VInt (fold_right Z.add 0 (map changes (files c)))].
Proof.
  unfold commit_info_list_of. rewrite Hmode. cbv zeta.
  destruct (file_totals_fold (files c)
              (mkFile_totals [] 0 0 EmptyString 0 EmptyString))
    as (H1 & H2 & H3 & H4 & H5 & H6).
  cbv zeta in H1, H2, H3, H4, H5, H6.
  rewrite H1, H2, H3, H4, H5, H6. reflexivity.
Qed.

Lemma commit_fragment_totals_witness :
  ("commit" =? "pr")%string = false
  /\ commit_info_list_of "commit" bob1 =
     [VStr "bob"; VStr (DQ ++ "b1" ++ DQ); VStr "bob-committer";
      VStr "sha-b1"; VList ["src/a.py"; "README"];
      VStr "@@ -1 +1 @@, None, "; VInt 4; VInt 2;
      VStr (DQ ++ "modified, added, " ++ DQ); VInt 6].
Proof.
  assert (H : ("commit" =? "pr")%string = false) by reflexivity.
  split; [exact H|].
  exact (commit_fragment_totals "commit" bob1 H).
Defined.

(** X15. Whenever a run has opened the output file, the file starts with
    the header row of the output type, 15 names in "pr" mode and 11
    otherwise, followed by at most [RATE_LIMIT] data rows, each with as
    many fields as the header; the data rows are [RATE_LIMIT] exactly
    when the run returned, and fewer when it raised. *)
Theorem output_file_shape fuel output_type list_tuple w rows
    (Hfile : csvfile (write_csv_output fuel output_type list_tuple w)
             = Some rows) :
  exists data,
    rows = label_cols output_type :: data
    /\ List.length (label_cols output_type)
       = (if (output_type =? "pr")%string then 15 else 11)%nat
    /\ Forall (fun r => List.length r
                        = List.length (label_cols output_type)) data
    /\ match ending (write_csv_output fuel output_type list_tuple w) with
       | Returned _ => Z.of_nat (List.length data) = RATE_LIMIT
       | Raised e => e = IndexError /\ Z.of_nat (List.length data) < RATE_LIMIT
       | OutOfFuel => False
       end.
Proof.
  destruct list_tuple as [issues_list pr_list].
  unfold write_csv_output in *.
  destruct (get_PR_info fuel pr_list output_type w)
    as [[[pm cl]| |] w1]; try discriminate.
  destruct (get_commit_info fuel cl output_type w1)
    as [[cm| |] w2]; try discriminate.
  destruct (if (output_type =? "pr")%string then _ else _)
    as [[im| |] w3]; try discriminate.
  unfold write_rows in *.
  destruct (aggregate _ _ _ _ _ _ _) as [r rows0] eqn:E.
  apply aggregate_spec in E; [|lia].
  destruct E as (new & -> & Hwidth & Hr).
  assert (Hrows : rows = label_cols output_type :: new)
    by (destruct r as [e|[]]; simpl in Hfile; congruence).
  exists new. split; [assumption|]. split.
  { unfold label_cols. destruct (output_type =? "pr")%string; reflexivity. }
  split; [assumption|].
  destruct r as [e|[]]; simpl.
  - destruct Hr as [-> Hlen]. split; [reflexivity|].
    unfold RATE_LIMIT in *. simpl in Hlen. lia.
  - destruct Hr as [Hlen _]. unfold RATE_LIMIT in *. simpl in Hlen. lia.
Qed.

Lemma output_file_shape_witness :
  exists rows,
    csvfile (write_csv_output 6 "pr" (issues_ok, prs_first_empty)
               (unthrottled 0)) = Some rows
    /\ exists data,
        rows = label_cols "pr" :: data
        /\ List.length (label_cols "pr") = 15%nat
        /\ Forall (fun r => List.length r = List.length (label_cols "pr"))
             data
        /\ IndexError = IndexError /\ Z.of_nat (List.length data) < RATE_LIMIT.
Proof.
  eexists. split; [vm_compute; reflexivity|].
  eapply (output_file_shape 6 "pr" (issues_ok, prs_first_empty)
            (unthrottled 0)).
  vm_compute. reflexivity.
Defined.

End Output.

(* ===================================================================== *)
(** * get_paginated_lists and main *)
(* ===================================================================== *)

Module DriverFacts.
Import Py GitHub Eff Extractor Text Samples Loops Alignment Backoff Driver
       TextFacts.

(** Loops over blocks that do the same do the same. *)
Lemma while_try_ext {L : Type} (cond : L -> bool) (body body' : M L unit) :
  (forall l w, body l w = body' l w) ->
  forall fuel l w,
    while_try fuel cond body l w = while_try fuel cond body' l w.
Proof.
  intros Hext fuel. induction fuel as [|fuel IH]; intros l w; simpl.
  - reflexivity.
  - destruct (cond l); [|reflexivity]. rewrite <- Hext.
    destruct (body l w) as [[[[| |]|[]] l1] w1]; auto.
Qed.

Lemma get_paginated_lists_try_eq repo_obj output_type l w :
  get_paginated_lists_try repo_obj output_type l w =
  match request w with
  | None => (inl RateLimitExceededException, l, refused w)
  | Some w1 =>
      (inr tt,
       mkLists_locals true
         (if (output_type =? "pr")%string then get_issues repo_obj
          else found_issues l)
         (get_pulls repo_obj),
       w1)
  end.
Proof.
  unfold get_paginated_lists_try, bind, remote, modify, ret.
  destruct (request w) as [w1|]; [|reflexivity].
  destruct (output_type =? "pr")%string; reflexivity.
Qed.

Lemma get_paginated_lists_loop repo_obj output_type fuel :
  forall l w,
    all_lists_retrieved l = false ->
    (1 + List.length (throttle w) < fuel)%nat ->
    exists w',
      while_try fuel (fun l => negb (all_lists_retrieved l))
        (get_paginated_lists_try repo_obj output_type) l w
      = (Returned
           (mkLists_locals true
              (if (output_type =? "pr")%string then get_issues repo_obj
               else found_issues l)
              (get_pulls repo_obj)), w')
      /\ (List.length (throttle w') <= List.length (throttle w))%nat.
Proof.
  induction fuel as [|fuel IH]; intros l w Hl Hfuel; [lia|].
  cbn [while_try]. rewrite Hl. cbn [negb].
  rewrite get_paginated_lists_try_eq.
  destruct (request w) as [w1|] eqn:Hw.
  - apply request_answered in Hw.
    destruct fuel as [|fuel]; [lia|]. cbn [while_try all_lists_retrieved negb].
    eauto.
  - apply request_refused in Hw.
    destruct (IH l (run_timer (refused w)) Hl) as (w' & -> & Hlen).
    + rewrite run_timer_throttle. lia.
    + rewrite run_timer_throttle in Hlen. exists w'. split; [reflexivity|lia].
Qed.

(** X16. [get_paginated_lists] returns the pull requests of the
    repository and, in "pr" mode, its closed issues, however many times
    the service refuses the request for the repository; outside "pr"
    mode the list of issues it returns is empty. *)
Theorem get_paginated_lists_returns fuel repo_obj output_type w
    (Hfuel : (1 + List.length (throttle w) < fuel)%nat) :
  fst (get_paginated_lists fuel repo_obj output_type w)
  = Returned ((if (output_type =? "pr")%string then get_issues repo_obj
               else []),
              get_pulls repo_obj)
  /\ (List.length (throttle (snd (get_paginated_lists fuel repo_obj
                                    output_type w)))
      <= List.length (throttle w))%nat.
Proof.
  unfold get_paginated_lists.
  destruct (get_paginated_lists_loop repo_obj output_type fuel lists_init w
              eq_refl Hfuel) as (w' & -> & Hlen).
  split; [reflexivity|exact Hlen].
Qed.

Lemma get_paginated_lists_returns_witness :
  (1 + List.length (throttle throttled_once) < 4)%nat
  /\ fst (get_paginated_lists 4 (mkRepository prs_ok issues_ok) "commit"
            throttled_once)
     = Returned ([], prs_ok)
  /\ (List.length
        (throttle (snd (get_paginated_lists 4
                          (mkRepository prs_ok issues_ok) "commit"
                          throttled_once)))
      <= List.length (throttle throttled_once))%nat.
Proof.
  assert (H : (1 + List.length (throttle throttled_once) < 4)%nat)
    by (simpl; lia).
  split; [exact H|].
  exact (get_paginated_lists_returns 4 (mkRepository prs_ok issues_ok)
           "commit" throttled_once H).
Defined.

(** X17. With an authentication file that holds nothing but whitespace,
    [main] ends in [IndexError] at [userauth_list[0]]: no request has
    been made and no output file has been opened. *)
Theorem main_blank_auth_file fuel CLI_args auth_text repo_obj w
    (Hblank : all_chars isspace auth_text = true) :
  main fuel CLI_args auth_text repo_obj w = mkRun (Raised IndexError) None w.
Proof.
  unfold main. destruct (get_CLI_args CLI_args) as [[[repo_str auth] out] ot].
  unfold main_login_or_token. cbv zeta.
  rewrite (read_user_info_blank _ Hblank). reflexivity.
Qed.

Lemma main_blank_auth_file_witness :
  all_chars isspace (NL ++ "  " ++ NL)%string = true
  /\ main 6 (mkNamespace true false "o/r" "auth.txt" "out.csv")
       (NL ++ "  " ++ NL)%string (mkRepository prs_ok issues_ok)
       throttled_once
     = mkRun (Raised IndexError) None throttled_once.
Proof.
  assert (H : all_chars isspace (NL ++ "  " ++ NL)%string = true)
    by reflexivity.
  split; [exact H|].
  exact (main_blank_auth_file 6 _ _ _ throttled_once H).
Defined.

(** X18. Without [--pr], [main] never looks at the issues of the
    repository, and the flag [--commit] is never read: two calls that
    differ in nothing but these end alike, with the same file. *)
Theorem main_commit_mode_ignores_issues
    fuel commit_flag commit_flag' repo auth out auth_text pulls issues
    issues' w :
  main fuel (mkNamespace false commit_flag repo auth out) auth_text
    (mkRepository pulls issues) w
  = main fuel (mkNamespace false commit_flag' repo auth out) auth_text
      (mkRepository pulls issues') w.
Proof.
  unfold main, get_CLI_args. cbn [arg_pr repo_name auth_file output_file_name].
  destruct (main_login_or_token auth_text) as [e|token]; [reflexivity|].
  assert (Hlists : get_paginated_lists fuel (mkRepository pulls issues)
                     "commit" w
                   = get_paginated_lists fuel (mkRepository pulls issues')
                       "commit" w).
  { unfold get_paginated_lists.
    rewrite (while_try_ext _ _
               (get_paginated_lists_try (mkRepository pulls issues')
                  "commit")); [reflexivity|].
    intros l0 w0. now rewrite !get_paginated_lists_try_eq. }
  now rewrite Hlists.
Qed.

(** X19. [main] comes to an end: with fuel for five iterations of each
    loop and one retry for each refused request, it returns or raises,
    whatever the arguments, the repository and the answers of the
    service. *)
Theorem main_terminates fuel CLI_args auth_text repo_obj w
    (Hfuel : (5 + List.length (throttle w) < fuel)%nat) :
  ending (main fuel CLI_args auth_text repo_obj w) <> OutOfFuel.
Proof.
  unfold main. destruct (get_CLI_args CLI_args) as [[[repo_str auth] out] ot].
  destruct (main_login_or_token auth_text) as [e|token]; [discriminate|].
  unfold get_paginated_lists.
  destruct (get_paginated_lists_loop repo_obj ot fuel lists_init w eq_refl)
    as (w' & -> & Hlen); [lia|].
  apply write_csv_output_terminates. lia.
Qed.

Lemma main_terminates_witness :
  (5 + List.length (throttle throttled_once) < 8)%nat
  /\ ending (main 8 (mkNamespace false true "o/r" "auth.txt" "out.csv")
               auth_text (mkRepository prs_ok issues_ok) throttled_once)
     <> OutOfFuel.
Proof.
  assert (H : (5 + List.length (throttle throttled_once) < 8)%nat)
    by (simpl; lia).
  split; [exact H|].
  exact (main_terminates 8 _ auth_text _ throttled_once H).
Defined.

End DriverFacts.

(* ===================================================================== *)
(** * GithubParser.py *)
(* ===================================================================== *)

Module GithubParserFacts.
Import Py GitHub Eff Samples Loops GithubParser.

(** The loop of the extraction functions gives the fields of the first
    [inLimit - index] elements, unless a request is refused. *)
Lemma collect_spec {A : Type} (field : A -> string) (paged : list A) :
  forall inLimit index outList w,
    match collect field paged inLimit index outList w with
    | (inr out, w') =>
        out = (outList
                 ++ map field (firstn (Z.to_nat (inLimit - index)) paged))%list
        /\ (throttle w = [] -> w' = w)
    | (inl e, _) => e = RateLimitExceededException /\ throttle w <> []
    end.
Proof.
  induction paged as [|x rest IH]; intros inLimit index outList w; simpl.
  - rewrite firstn_nil, app_nil_r. auto.
  - unfold request. destruct (throttle w) as [|[|] schedule] eqn:Hw.
    + destruct (index <? inLimit) eqn:Hlt.
      * apply Z.ltb_lt in Hlt.
        specialize (IH inLimit (index + 1) (outList ++ [field x])%list w).
        destruct (collect field rest inLimit (index + 1) _ w)
          as [[e|out] w'].
        -- destruct IH as [He Hne]. now rewrite Hw in Hne.
        -- destruct IH as [-> Hsame]. split; [|now rewrite Hw in Hsame].
           replace (Z.to_nat (inLimit - index))
             with (S (Z.to_nat (inLimit - (index + 1)))) by lia.
           simpl. now rewrite <- app_assoc.
      * apply Z.ltb_ge in Hlt.
        replace (Z.to_nat (inLimit - index)) with 0%nat by lia.
        simpl. rewrite app_nil_r. auto.
    + split; [reflexivity|discriminate].
    + destruct (index <? inLimit) eqn:Hlt.
      * apply Z.ltb_lt in Hlt.
        specialize (IH inLimit (index + 1) (outList ++ [field x])%list
                      (mkWorld schedule (clock w)
                         (rate_limiting_resettime w))).
        destruct (collect field rest inLimit (index + 1) _ _)
          as [[e|out] w'].
        -- destruct IH as [He _]. split; [assumption|discriminate].
        -- destruct IH as [-> _]. split; [|discriminate].
           replace (Z.to_nat (inLimit - index))
             with (S (Z.to_nat (inLimit - (index + 1)))) by lia.
           simpl. now rewrite <- app_assoc.
      * apply Z.ltb_ge in Hlt.
        replace (Z.to_nat (inLimit - index)) with 0%nat by lia.
        simpl. rewrite app_nil_r. split; [reflexivity|discriminate].
Qed.

(** X20. With a service that refuses nothing, each extraction function
    returns the field it reads of the first [inLimit] elements of its
    collection, in their order, fewer when the collection is shorter and
    none for a limit that is not positive, and leaves the world as it
    was. *)
Theorem getters_return_the_first_items pulls issues inLimit w
    (Hw : throttle w = []) :
  let first_pulls := firstn (Z.to_nat inLimit) pulls in
  let first_issues := firstn (Z.to_nat inLimit) issues in
  getPRNumber pulls inLimit w
  = (inr (map (fun pr => (str_int (number pr) ++ ",")%string) first_pulls),
     w)
  /\ getIssueClosedDate issues inLimit w
     = (inr (map (fun i => str_closed_at (issue_closed_at i)) first_issues),
        w)
  /\ getIssueAuthor issues inLimit w
     = (inr (map (fun i => str_opt (issue_user_name i)) first_issues), w)
  /\ getIssueTitle issues inLimit w
     = (inr (map issue_title first_issues), w)
  /\ getIssueBody issues inLimit w
     = (inr (map (fun i => str_opt (issue_body i)) first_issues), w)
  /\ getIssueComments issues inLimit w
     = (inr (map (fun i => str_int (issue_comments i)) first_issues), w).
Proof.
  cbv zeta.
  assert (Hget : forall (A : Type) (field : A -> string) (paged : list A),
             collect field paged inLimit 0 [] w
             = (inr (map field (firstn (Z.to_nat inLimit) paged)), w)).
  { intros A field paged.
    pose proof (collect_spec field paged inLimit 0 [] w) as H.
    destruct (collect field paged inLimit 0 [] w) as [[e|out] w'].
    - now destruct H as [_ Hne].
    - destruct H as [-> Hsame]. rewrite (Hsame Hw), Z.sub_0_r.
      reflexivity. }
  unfold getPRNumber, getIssueClosedDate, getIssueAuthor, getIssueTitle,
    getIssueBody, getIssueComments.
  rewrite !Hget. repeat split.
Qed.

Lemma getters_return_the_first_items_witness :
  throttle (unthrottled 0) = []
  /\ getPRNumber prs_ok 2 (unthrottled 0) = (inr ["10,"; "11,"], unthrottled 0)
  /\ getIssueTitle issues_ok 2 (unthrottled 0)
     = (inr ["issue1"; "issue2"], unthrottled 0).
Proof.
  assert (H : throttle (unthrottled 0) = []) by reflexivity.
  split; [exact H|].
  destruct (getters_return_the_first_items prs_ok issues_ok 2 (unthrottled 0)
              H) as (H1 & _ & _ & H4 & _).
  split; [exact H1|exact H4].
Defined.

(** How [main] of [GithubParser.py] ends, and the file it leaves. *)
Lemma parser_main_file_cases pulls issues w :
  match main pulls issues w with
  | (inr _, file, w') =>
      file = [descriptors]
             :: map (fun pr => [(str_int (number pr) ++ ",")%string])
                  (firstn 5 pulls)
      /\ (throttle w = [] -> w' = w)
  | (inl e, file, _) =>
      e = RateLimitExceededException /\ file = [[descriptors]]
      /\ throttle w <> []
  end.
Proof.
  unfold main, then_get, getPRNumber, getIssueClosedDate, getIssueAuthor,
    getIssueTitle, getIssueBody, limit.
  (* each getter either is refused or hands the world on unchanged *)
  assert (Hstep : forall (A : Type) (f : A -> string) (l : list A) w0,
             (throttle w = [] -> w0 = w) ->
             match collect f l 5 0 [] w0 with
             | (inr out, w') =>
                 out = map f (firstn 5 l) /\ (throttle w = [] -> w' = w)
             | (inl e, _) =>
                 e = RateLimitExceededException /\ throttle w <> []
             end).
  { intros A f l w0 Hsame.
    pose proof (collect_spec f l 5 0 [] w0) as H.
    destruct (collect f l 5 0 [] w0) as [[e|out] w'].
    - destruct H as [-> Hne]. split; [reflexivity|].
      intros Hw. apply Hne. now rewrite (Hsame Hw).
    - destruct H as [-> Hw']. split; [reflexivity|].
      intros Hw. pose proof (Hsame Hw) as E. subst w0. now apply Hw'. }
  pose proof (Hstep _ (fun pr => (str_int (number pr) ++ "," ++ EmptyString)%string)
                pulls w (fun _ => eq_refl)) as H1.
  destruct (collect _ pulls 5 0 [] w) as [[e1|prData] w1];
    [destruct H1 as [-> Hne]; auto|].
  destruct H1 as [-> Hw1].
  pose proof (Hstep _ (fun issue => str_closed_at (issue_closed_at issue))
                issues w1 Hw1) as H2.
  destruct (collect _ issues 5 0 [] w1) as [[e2|closedDates] w2];
    [destruct H2 as [-> Hne]; auto|].
  destruct H2 as [_ Hw2].
  pose proof (Hstep _ (fun issue => str_opt (issue_user_name issue))
                issues w2 Hw2) as H3.
  destruct (collect _ issues 5 0 [] w2) as [[e3|issueAuthors] w3];
    [destruct H3 as [-> Hne]; auto|].
  destruct H3 as [_ Hw3].
  pose proof (Hstep _ (fun issue => issue_title issue) issues w3 Hw3) as H4.
  destruct (collect _ issues 5 0 [] w3) as [[e4|issueTitles] w4];
    [destruct H4 as [-> Hne]; auto|].
  destruct H4 as [_ Hw4].
  pose proof (Hstep _ (fun issue => str_opt (issue_body issue))
                issues w4 Hw4) as H5.
  destruct (collect _ issues 5 0 [] w4) as [[e5|issueBodies] w5];
    [destruct H5 as [-> Hne]; auto|].
  destruct H5 as [_ Hw5].
  split; [|exact Hw5].
  cbn [app]. now rewrite map_map.
Qed.

Lemma parser_main_file_unthrottled pulls issues w :
  throttle w = [] ->
  main pulls issues w
  = (inr tt,
     [descriptors]
       :: map (fun pr => [(str_int (number pr) ++ ",")%string])
            (firstn 5 pulls),
     w).
Proof.
  intros Hw. pose proof (parser_main_file_cases pulls issues w) as H.
  destruct (main pulls issues w) as [[[e|[]] file] w'].
  - now destruct H as (_ & _ & Hne).
  - destruct H as [-> Hsame]. now rewrite (Hsame Hw).
Qed.

(** X21. [main] of [GithubParser.py] writes the header as one field and
    then one row of one field for each of the first [limit] = 5 pull
    requests, its number followed by a comma; nothing that the issue
    functions return reaches the file, so the file is the same for any
    two collections of issues. When a request is refused, the exception
    is not caught and the file keeps its header only. *)
Theorem parser_main_file pulls issues issues' w :
  (throttle w = [] ->
   main pulls issues w
   = (inr tt,
      [descriptors]
        :: map (fun pr => [(str_int (number pr) ++ ",")%string])
             (firstn 5 pulls),
      w)
   /\ main pulls issues' w = main pulls issues w)
  /\ (forall e file w',
        main pulls issues w = (inl e, file, w') ->
        e = RateLimitExceededException /\ file = [[descriptors]]).
Proof.
  split.
  - intros Hw. rewrite !parser_main_file_unthrottled by assumption.
    split; reflexivity.
  - intros e file w' Hmain.
    pose proof (parser_main_file_cases pulls issues w) as H.
    rewrite Hmain in H. destruct H as (He & Hfile & _). auto.
Qed.

Lemma parser_main_file_witness :
  throttle (unthrottled 0) = []
  /\ main prs_ok issues_ok (unthrottled 0)
     = (inr tt,
        [[descriptors]; ["10,"]; ["11,"]; ["12,"]; ["13,"]; ["14,"]],
        unthrottled 0).
Proof.
  assert (H : throttle (unthrottled 0) = []) by reflexivity.
  split; [exact H|].
  exact (proj1 (proj1 (parser_main_file prs_ok issues_ok issues_ok
                         (unthrottled 0)) H)).
Defined.

End GithubParserFacts.

(* ===================================================================== *)
(** * When a run succeeds *)
(* ===================================================================== *)

Module Success.
Import Py GitHub Eff Extractor Progress Invariants Samples Loops Alignment
       Backoff Extraction.

Lemma get_PR_info_try_readable pr_list output_type l w r l' w' :
  readable_pulls pr_list output_type l ->
  get_PR_info_try pr_list output_type l w = (r, l', w') ->
  readable_pulls pr_list output_type l'.
Proof.
  intros (Hi & Hall & Hlen & Hread) H.
  rewrite get_PR_info_try_eq in H.
  destruct (request w) as [w1|];
    [|injection H as <- <- <-; repeat split; assumption].
  destruct (lookup pr_list (index l)) as [cur|] eqn:Hcur;
    [|injection H as <- <- <-; repeat split; assumption].
  destruct (PR_info_list_of output_type cur) as [e|info] eqn:Hinfo;
    [injection H as <- <- <-; repeat split; assumption|].
  cbv zeta in H.
  assert (Hall' : Forall (fun f => exists cur_pr,
                              PR_info_list_of output_type cur_pr = inr f)
                    (pr_metalist l ++ [info])).
  { apply Forall_app. split; [assumption|]. constructor; eauto. }
  assert (Hread' : forall j, Z.of_nat j < index l + 1 ->
             exists cur_pr info0,
               nth_error pr_list j = Some cur_pr /\
               PR_info_list_of output_type cur_pr = inr info0).
  { intros j Hj. destruct (Z.eq_dec (Z.of_nat j) (index l)) as [E|E].
    - exists cur, info. split; [|assumption].
      rewrite <- lookup_nth_error, E. assumption.
    - apply Hread. lia. }
  assert (Hrefused : readable_pulls pr_list output_type (PR_appended info l)).
  { unfold readable_pulls. locals_simpl.
    split; [assumption|]. split; [assumption|].
    split; [rewrite length_app; cbn [List.length]; lia|assumption]. }
  assert (Hdone : forall ref,
             readable_pulls pr_list output_type
               (PR_advanced ref (PR_appended info l))).
  { intros ref. unfold readable_pulls. locals_simpl.
    split; [lia|]. split; [assumption|].
    split; [rewrite length_app; cbn [List.length]; lia|assumption]. }
  destruct (request w1) as [w2|]; [|injection H as <- <- <-; assumption].
  destruct (rev (pr_commits cur)) as [|c0 r0].
  - injection H as <- <- <-. apply Hdone.
  - destruct (request w2) as [w3|]; injection H as <- <- <-;
      [apply Hdone|assumption].
Qed.

Lemma get_PR_info_loop_readable fuel pr_list output_type w l w' :
  get_PR_info_loop fuel pr_list output_type PR_init w = (Returned l, w') ->
  readable_pulls pr_list output_type l.
Proof.
  intros Hl.
  apply (while_try_invariant (readable_pulls pr_list output_type)) in Hl.
  - apply Hl.
  - intros. eapply get_PR_info_try_readable; eauto.
  - unfold readable_pulls. simpl. split; [lia|]. split; [constructor|].
    split; [lia|]. intros j Hj. lia.
Qed.

Lemma PR_info_list_of_closed output_type cur_pr info :
  PR_info_list_of output_type cur_pr = inr info ->
  (output_type =? "pr")%string = true -> pr_closed_at cur_pr <> None.
Proof.
  unfold PR_info_list_of. cbv zeta. intros H Hmode. rewrite Hmode in H.
  destruct (pr_closed_at cur_pr); [discriminate|discriminate H].
Qed.

(** X22. A run that returns has found, at each of the first [RATE_LIMIT]
    indices, a pull request, which in "pr" mode is closed, and in "pr"
    mode also an issue with a closing date: with fewer pull requests or
    issues, or with one of them still open, the run does not return,
    whatever the service answers. *)
Theorem returned_run_had_its_inputs
    fuel output_type issues_list pr_list w i
    (Hok : ending (write_csv_output fuel output_type
                     (issues_list, pr_list) w) = Returned tt)
    (Hi : Z.of_nat i < RATE_LIMIT) :
  (exists cur_pr,
      nth_error pr_list i = Some cur_pr /\
      ((output_type =? "pr")%string = true -> pr_closed_at cur_pr <> None))
  /\ ((output_type =? "pr")%string = true ->
      exists cur_issue,
        nth_error issues_list i = Some cur_issue /\
        issue_closed_at cur_issue <> None).
Proof.
  apply write_csv_output_returned in Hok.
  destruct Hok as (pm & cl & w1 & cm & w2 & im & w3 & rows
                   & Hprs & Hcommit & Hissue & Hrows & _).
  split.
  - apply get_PR_info_returned in Hprs. destruct Hprs as (l & Hl & _ & _).
    pose proof (get_PR_info_loop_returns _ _ _ _ _ _ Hl) as [Hidx _].
    apply get_PR_info_loop_readable in Hl.
    destruct Hl as (_ & _ & _ & Hread).
    destruct (Hread i ltac:(lia)) as (cur_pr & info & Hnth & Hinfo).
    exists cur_pr. split; [assumption|].
    now apply (PR_info_list_of_closed output_type cur_pr info).
  - intros Hmode. rewrite Hmode in Hissue.
    apply get_issue_info_returned in Hissue.
    destruct Hissue as (li & Hli & _).
    apply get_issue_info_loop_own_issues in Hli.
    destruct Hli as [(_ & _ & Hown) Hend].
    destruct (Hown i ltac:(lia)) as (cur_issue & d & flag & Hnth & Hd & _).
    exists cur_issue. split; [assumption|].
    destruct (issue_closed_at cur_issue); [discriminate|discriminate Hd].
Qed.

Lemma returned_run_had_its_inputs_witness :
  ending (write_csv_output 6 "pr" (issues_ok, prs_ok) (unthrottled 0))
    = Returned tt
  /\ Z.of_nat 4 < RATE_LIMIT
  /\ (exists cur_pr,
        nth_error prs_ok 4 = Some cur_pr /\
        (("pr" =? "pr")%string = true -> pr_closed_at cur_pr <> None))
  /\ (("pr" =? "pr")%string = true ->
      exists cur_issue,
        nth_error issues_ok 4 = Some cur_issue /\
        issue_closed_at cur_issue <> None).
Proof.
  assert (H : ending (write_csv_output 6 "pr" (issues_ok, prs_ok)
                        (unthrottled 0)) = Returned tt)
    by (vm_compute; reflexivity).
  assert (Hi : Z.of_nat 4 < RATE_LIMIT) by reflexivity.
  split; [exact H|]. split; [exact Hi|].
  exact (returned_run_had_its_inputs 6 "pr" issues_ok prs_ok (unthrottled 0)
           4 H Hi).
Defined.

(** ** Inputs that are enough *)

Lemma PR_info_list_of_open output_type cur_pr e :
  PR_info_list_of output_type cur_pr = inl e ->
  (output_type =? "pr")%string = true /\ pr_closed_at cur_pr = None.
Proof.
  unfold PR_info_list_of. cbv zeta.
  destruct (output_type =? "pr")%string; [|discriminate].
  destruct (pr_closed_at cur_pr); [discriminate|auto].
Qed.

(** With a pull request to read at each index, the loop of
    [get_PR_info] returns, whatever is refused. *)
Lemma get_PR_info_loop_reads fuel pr_list output_type w :
  pulls_readable output_type pr_list ->
  (5 + List.length (throttle w) < fuel)%nat ->
  exists l w',
    get_PR_info_loop fuel pr_list output_type PR_init w = (Returned l, w')
    /\ (List.length (throttle w') <= List.length (throttle w))%nat.
Proof.
  intros Hready Hfuel.
  pose proof (get_PR_info_loop_terminates fuel pr_list output_type PR_init w
                Hfuel) as Hend.
  pose proof (get_PR_info_throttle fuel pr_list output_type w) as Hlen.
  unfold get_PR_info in Hlen.
  destruct (get_PR_info_loop fuel pr_list output_type PR_init w)
    as [[l|e|] w'] eqn:Hl.
  - exists l, w'. split; [reflexivity|exact Hlen].
  - exfalso. revert Hl. unfold get_PR_info_loop.
    apply (while_try_never_raises PR_progress).
    + intros. eapply get_PR_info_try_progress; eauto.
    + intros l0 w0 e0 l1 w1 [Hidx _] Hc H. apply Z.ltb_lt in Hc.
      rewrite get_PR_info_try_eq in H.
      destruct (Hready (Z.to_nat (index l0)) ltac:(lia))
        as (cur_pr & Hnth & Hclosed).
      rewrite <- lookup_nth_error, Z2Nat.id in Hnth by lia.
      rewrite Hnth in H.
      destruct (request w0) as [w2|]; [|now injection H as <- _ _].
      destruct (PR_info_list_of output_type cur_pr) as [e1|info] eqn:Hinfo.
      * apply PR_info_list_of_open in Hinfo. destruct Hinfo as [Hm Hnone].
        now destruct (Hclosed Hm).
      * cbv zeta in H.
        destruct (request w2) as [w3|]; [|now injection H as <- _ _].
        destruct (rev (pr_commits cur_pr)); [discriminate|].
        destruct (request w3); [discriminate|now injection H as <- _ _].
    + unfold PR_progress, RATE_LIMIT. simpl. lia.
  - now destruct Hend.
Qed.

Lemma get_PR_info_loop_succeeds fuel pr_list output_type w :
  pulls_ready output_type pr_list ->
  (5 + List.length (throttle w) < fuel)%nat ->
  exists l w',
    get_PR_info_loop fuel pr_list output_type PR_init w = (Returned l, w')
    /\ (List.length (throttle w') <= List.length (throttle w))%nat.
Proof.
  intros Hready. apply get_PR_info_loop_reads.
  intros i Hi. destruct (Hready i Hi) as (cur_pr & _ & _ & Hnth & _ & Hc).
  eauto.
Qed.

Lemma get_issue_info_loop_succeeds fuel issue_list w :
  (forall i, Z.of_nat i < RATE_LIMIT ->
     exists cur_issue,
       nth_error issue_list i = Some cur_issue /\
       issue_closed_at cur_issue <> None) ->
  (5 + List.length (throttle w) < fuel)%nat ->
  exists l w',
    get_issue_info_loop fuel issue_list issue_init w = (Returned l, w').
Proof.
  intros Hready Hfuel.
  pose proof (get_issue_info_loop_terminates fuel issue_list issue_init w
                Hfuel) as Hend.
  destruct (get_issue_info_loop fuel issue_list issue_init w)
    as [[l|e|] w'] eqn:Hl.
  - eauto.
  - exfalso. revert Hl. unfold get_issue_info_loop.
    apply (while_try_never_raises issue_progress).
    + intros. eapply get_issue_info_try_progress; eauto.
    + intros l0 w0 e0 l1 w1 [Hidx _] Hc H. apply Z.ltb_lt in Hc.
      rewrite get_issue_info_try_eq in H.
      destruct (Hready (Z.to_nat (issue_index l0)) ltac:(lia))
        as (cur_issue & Hnth & Hclosed).
      rewrite <- lookup_nth_error, Z2Nat.id in Hnth by lia.
      rewrite Hnth in H.
      destruct (request w0) as [w2|]; [|now injection H as <- _ _].
      destruct (issue_closed_at cur_issue); [discriminate|now destruct Hclosed].
    + unfold issue_progress, RATE_LIMIT. simpl. lia.
  - now destruct Hend.
Qed.

(** The row of fragments that the extractors built can be built. *)
Lemma output_row_of_own_fragments output_type cur_pr info c cur_issue d flag :
  PR_info_list_of output_type cur_pr = inr info ->
  exists r,
    output_row_of output_type [commit_info_list_of output_type c] [info]
      (if (output_type =? "pr")%string
       then [issue_context_list_of cur_issue d flag] else []) 0
    = inr r.
Proof.
  unfold PR_info_list_of, output_row_of, commit_info_list_of. cbv zeta.
  destruct (output_type =? "pr")%string.
  - destruct (closed_date_str (pr_closed_at cur_pr)); [discriminate|].
    intros [= <-]. eexists. reflexivity.
  - intros [= <-]. eexists. reflexivity.
Qed.

Lemma aggregate_succeeds output_type cm pm im todo :
  forall i written,
    (forall k, (k < todo)%nat ->
       exists r, output_row_of output_type cm pm im (i + Z.of_nat k) = inr r) ->
    exists rows,
      aggregate todo output_type cm pm im i written = (inr tt, rows).
Proof.
  induction todo as [|todo IH]; intros i written Hrows; simpl; [eauto|].
  destruct (Hrows 0%nat ltac:(lia)) as (r & Hr).
  rewrite Z.add_0_r in Hr. rewrite Hr.
  apply IH. intros k Hk.
  destruct (Hrows (S k) ltac:(lia)) as (r' & Hr').
  exists r'. rewrite <- Hr'. f_equal. lia.
Qed.

(** X23. A run succeeds when it has what it needs: when each of the
    first [RATE_LIMIT] pull requests has at least one commit and, in
    "pr" mode, is closed and faces an issue with a closing date, then,
    however many requests the service refuses, the run returns, given
    fuel for its retries, and the file holds the header and
    [RATE_LIMIT] data rows. *)
Theorem ready_inputs_give_a_full_file
    fuel output_type issues_list pr_list w
    (Hfuel : (5 + List.length (throttle w) < fuel)%nat)
    (Hpulls : pulls_ready output_type pr_list)
    (Hissues : issues_ready output_type issues_list) :
  ending (write_csv_output fuel output_type (issues_list, pr_list) w)
  = Returned tt
  /\ exists data,
      csvfile (write_csv_output fuel output_type (issues_list, pr_list) w)
      = Some (label_cols output_type :: data)
      /\ Z.of_nat (List.length data) = RATE_LIMIT.
Proof.
  (* the pull requests *)
  destruct (get_PR_info_loop_succeeds fuel pr_list output_type w Hpulls Hfuel)
    as (l & w1 & Hl & Hw1).
  pose proof (get_PR_info_loop_own_commits _ _ _ _ _ _ Hl)
    as [[[_ Hlen] Hown] Hidx].
  pose proof (get_PR_info_loop_readable _ _ _ _ _ _ Hl)
    as (_ & Hall & Hmany & _).
  (* the commits *)
  destruct (get_commit_info_loop_runs fuel (commits_list l) output_type w1
              ltac:(lia) ltac:(lia))
    as (lc & w2 & Hlc & Hw2).
  pose proof (get_commit_info_loop_own _ _ _ _ _ _ Hlc) as [[_ Hownc] Hidxc].
  (* the issues *)
  assert (Hi : exists im w3,
             (if (output_type =? "pr")%string
              then get_issue_info fuel issues_list w2
              else (Returned [], w2)) = (Returned im, w3)
             /\ ((output_type =? "pr")%string = true ->
                 forall i, Z.of_nat i < RATE_LIMIT ->
                   exists cur_issue d flag,
                     nth_error im i
                     = Some (issue_context_list_of cur_issue d flag))
             /\ ((output_type =? "pr")%string = false -> im = [])).
  { destruct (output_type =? "pr")%string eqn:Hmode.
    - destruct (get_issue_info_loop_succeeds fuel issues_list w2
                  (Hissues Hmode) ltac:(lia)) as (li & w3 & Hli).
      exists (issue_metalist li), w3. unfold get_issue_info. rewrite Hli.
      split; [reflexivity|]. split; [|discriminate].
      intros _ i Hlt.
      apply get_issue_info_loop_own_issues in Hli.
      destruct Hli as [(_ & _ & Howni) Hendi].
      destruct (Howni i ltac:(lia)) as (ci & d & flag & _ & _ & Him & _).
      eauto.
    - exists [], w2. split; [reflexivity|]. split; [discriminate|reflexivity]. }
  destruct Hi as (im & w3 & Hissue & Him & Hnone).
  (* the rows *)
  assert (Hrows : exists rows,
             write_rows output_type (commit_info_metalist lc)
               (pr_metalist l) im = (inr tt, rows)).
  { unfold write_rows. apply aggregate_succeeds. intros k Hk.
    assert (Hk' : Z.of_nat k < RATE_LIMIT)
      by (unfold RATE_LIMIT in *; simpl in Hk; lia).
    rewrite Z.add_0_l.
    destruct (Hpulls k Hk') as (cur_pr & older & c & Hnth & Hc & _).
    assert (Hcm : nth_error (commit_info_metalist lc) k
                  = Some (commit_info_list_of output_type c)).
    { apply Hownc; [lia|]. apply (Hown k cur_pr older c); [lia|auto|auto]. }
    destruct (nth_error (pr_metalist l) k) as [info|] eqn:Hpm;
      [|apply nth_error_None in Hpm; lia].
    assert (Hin : exists pr0, PR_info_list_of output_type pr0 = inr info).
    { rewrite Forall_forall in Hall. apply Hall.
      eapply nth_error_In; eauto. }
    destruct Hin as (pr0 & Hinfo).
    rewrite (output_row_of_entries _ _ _ _ _ _ _ Hcm Hpm).
    destruct (output_type =? "pr")%string eqn:Hmode.
    - destruct (Him eq_refl k ltac:(lia)) as (ci & d & flag & Hik).
      rewrite Hik.
      pose proof (output_row_of_own_fragments output_type pr0 info c ci d
                    flag Hinfo) as Hrow.
      now rewrite Hmode in Hrow.
    - rewrite (Hnone eq_refl).
      pose proof (output_row_of_own_fragments output_type pr0 info c
                    (mkIssue None None 0 None EmptyString None)
                    EmptyString 0 Hinfo) as Hrow.
      rewrite Hmode in Hrow. now destruct k. }
  destruct Hrows as (rows & Hrows).
  unfold write_csv_output, get_PR_info, get_commit_info.
  rewrite Hl, Hlc, Hissue, Hrows. cbn [ending csvfile].
  split; [reflexivity|].
  unfold write_rows in Hrows. apply aggregate_spec in Hrows; [|lia].
  destruct Hrows as (new & -> & _ & Hnew & _).
  exists new. split; [reflexivity|]. unfold RATE_LIMIT in *. simpl in Hnew. lia.
Qed.

Lemma ready_inputs_give_a_full_file_witness :
  (5 + List.length (throttle throttled_once) < 8)%nat
  /\ pulls_ready "commit" prs_ok
  /\ issues_ready "commit" []
  /\ ending (write_csv_output 8 "commit" ([], prs_ok) throttled_once)
     = Returned tt
  /\ exists data,
      csvfile (write_csv_output 8 "commit" ([], prs_ok) throttled_once)
      = Some (label_cols "commit" :: data)
      /\ Z.of_nat (List.length data) = RATE_LIMIT.
Proof.
  assert (Hfuel : (5 + List.length (throttle throttled_once) < 8)%nat)
    by (simpl; lia).
  assert (Hpulls : pulls_ready "commit" prs_ok).
  { intros i Hi.
    destruct i as [|[|[|[|[|i]]]]].
    - exists (pr_of 10 0 [ann1; ann2]), [ann1], ann2.
      repeat split; discriminate.
    - exists (pr_of 11 3 [bob1]), [], bob1. repeat split; discriminate.
    - exists (pr_of 12 1 [cy1]), [], cy1. repeat split; discriminate.
    - exists (pr_of 13 0 [dee1]), [], dee1. repeat split; discriminate.
    - exists (pr_of 14 2 [eve1]), [], eve1. repeat split; discriminate.
    - exfalso. unfold RATE_LIMIT in Hi. lia. }
  assert (Hissues : issues_ready "commit" []) by (intros H; discriminate H).
  split; [exact Hfuel|]. split; [exact Hpulls|]. split; [exact Hissues|].
  exact (ready_inputs_give_a_full_file 8 "commit" [] prs_ok throttled_once
           Hfuel Hpulls Hissues).
Defined.

End Success.

(* ===================================================================== *)
(** * Retried requests *)
(* ===================================================================== *)

Module Retry.
Import Py GitHub Eff Extractor Samples Loops Backoff.

(** X10. What [get_issue_info] returns or raises does not depend on the
    service refusing requests: two calls over the same issues, each with
    fuel for its retries, end alike whatever their schedules are; the
    retried request is for the same issue, and no fragment is lost or
    doubled. *)
Theorem issue_extraction_is_backoff_idempotent
    issue_list w w0 fuel fuel0
    (Hfuel : (5 + List.length (throttle w) < fuel)%nat)
    (Hfuel0 : (5 + List.length (throttle w0) < fuel0)%nat) :
  fst (get_issue_info fuel issue_list w)
  = fst (get_issue_info fuel0 issue_list w0).
Proof.
  rewrite (get_issue_info_backoff_idempotent issue_list w fuel Hfuel).
  rewrite (get_issue_info_backoff_idempotent issue_list w0 fuel0 Hfuel0).
  reflexivity.
Qed.

Lemma issue_extraction_is_backoff_idempotent_witness :
  (5 + List.length (throttle throttled_once) < 8)%nat
  /\ (5 + List.length (throttle (mkWorld [true; true; false; true] 3 9)) < 10)%nat
  /\ fst (get_issue_info 8 issues_ok throttled_once)
     = fst (get_issue_info 10 issues_ok (mkWorld [true; true; false; true] 3 9)).
Proof.
  assert (H : (5 + List.length (throttle throttled_once) < 8)%nat)
    by (simpl; lia).
  assert (H0 : (5 + List.length
                      (throttle (mkWorld [true; true; false; true] 3 9))
                < 10)%nat) by (simpl; lia).
  split; [exact H|]. split; [exact H0|].
  exact (issue_extraction_is_backoff_idempotent issues_ok throttled_once
           (mkWorld [true; true; false; true] 3 9) 8 10 H H0).
Defined.

End Retry.

(* ===================================================================== *)
(** * Sources shorter than the fetch bound *)
(* ===================================================================== *)

Module Sources.
Import Py GitHub Eff Extractor Progress Invariants Samples Loops Alignment
       Backoff Extraction Success.

Lemma lookup_In {A : Type} (l : list A) (i : Z) (a : A) :
  lookup l i = Some a -> In a l.
Proof.
  unfold lookup. destruct (0 <=? i); [|discriminate].
  apply nth_error_In.
Qed.

(** [get_PR_info] raises nothing but [IndexError], at an index without
    a pull request, and [AttributeError], at a pull request that is
    still open in "pr" mode. *)
Lemma get_PR_info_loop_raises fuel pr_list output_type l w e w' :
  get_PR_info_loop fuel pr_list output_type l w = (Raised e, w') ->
  e = IndexError \/
  (e = AttributeError /\ (output_type =? "pr")%string = true /\
   exists cur_pr, In cur_pr pr_list /\ pr_closed_at cur_pr = None).
Proof.
  unfold get_PR_info_loop. intros H.
  apply (while_try_raises
           (fun e => e = IndexError \/
              (e = AttributeError /\ (output_type =? "pr")%string = true /\
               exists cur_pr,
                 In cur_pr pr_list /\ pr_closed_at cur_pr = None))) in H;
    [apply H|].
  intros l0 w0 e0 l1 w1 Hc Hb. rewrite get_PR_info_try_eq in Hb.
  destruct (request w0) as [w2|]; [|injection Hb as <- _ _; now left].
  destruct (lookup pr_list (index l0)) as [cur|] eqn:Hcur;
    [|injection Hb as <- _ _; right; now left].
  destruct (PR_info_list_of output_type cur) as [e1|info] eqn:Hinfo.
  - injection Hb as <- _ _. right. right.
    pose proof (PR_info_list_of_raises _ _ _ Hinfo) as ->.
    apply PR_info_list_of_open in Hinfo. destruct Hinfo as [Hm Hnone].
    split; [reflexivity|]. split; [exact Hm|].
    exists cur. split; [eapply lookup_In; eauto|exact Hnone].
  - cbv zeta in Hb.
    destruct (request w2) as [w3|]; [|injection Hb as <- _ _; now left].
    destruct (rev (pr_commits cur)); [discriminate|].
    destruct (request w3); [discriminate|injection Hb as <- _ _; now left].
Qed.

(** The same for [get_issue_info]. *)
Lemma get_issue_info_loop_raises fuel issue_list l w e w' :
  get_issue_info_loop fuel issue_list l w = (Raised e, w') ->
  e = IndexError \/
  (e = AttributeError /\
   exists cur_issue,
     In cur_issue issue_list /\ issue_closed_at cur_issue = None).
Proof.
  unfold get_issue_info_loop. intros H.
  apply (while_try_raises
           (fun e => e = IndexError \/
              (e = AttributeError /\
               exists cur_issue,
                 In cur_issue issue_list
                 /\ issue_closed_at cur_issue = None))) in H;
    [apply H|].
  intros l0 w0 e0 l1 w1 Hc Hb. rewrite get_issue_info_try_eq in Hb.
  destruct (request w0) as [w2|]; [|injection Hb as <- _ _; now left].
  destruct (lookup issue_list (issue_index l0)) as [cur|] eqn:Hcur;
    [|injection Hb as <- _ _; right; now left].
  destruct (issue_closed_at cur) as [d|] eqn:Hclosed; simpl in Hb;
    [discriminate|].
  injection Hb as <- _ _. right. right. split; [reflexivity|].
  exists cur. split; [eapply lookup_In; eauto|exact Hclosed].
Qed.

(** With fewer than [RATE_LIMIT] pull requests [get_PR_info] does not
    return. *)
Lemma get_PR_info_loop_needs_pulls fuel pr_list output_type w l w' :
  get_PR_info_loop fuel pr_list output_type PR_init w = (Returned l, w') ->
  RATE_LIMIT <= Z.of_nat (List.length pr_list).
Proof.
  intros Hl.
  pose proof (get_PR_info_loop_returns _ _ _ _ _ _ Hl) as [Hidx _].
  apply get_PR_info_loop_readable in Hl.
  destruct Hl as (_ & _ & _ & Hread).
  destruct (Z.le_gt_cases RATE_LIMIT (Z.of_nat (List.length pr_list)))
    as [H|H]; [exact H|].
  destruct (Hread (List.length pr_list) ltac:(lia)) as (cur & _ & Hnth & _).
  assert (Hnone : nth_error pr_list (List.length pr_list) = None)
    by (apply nth_error_None; lia).
  congruence.
Qed.

(** With fewer than [RATE_LIMIT] issues [get_issue_info] does not
    return. *)
Lemma get_issue_info_loop_needs_issues fuel issue_list w l w' :
  get_issue_info_loop fuel issue_list issue_init w = (Returned l, w') ->
  RATE_LIMIT <= Z.of_nat (List.length issue_list).
Proof.
  intros Hl.
  apply get_issue_info_loop_own_issues in Hl.
  destruct Hl as [(_ & _ & Hown) Hidx].
  destruct (Z.le_gt_cases RATE_LIMIT (Z.of_nat (List.length issue_list)))
    as [H|H]; [exact H|].
  destruct (Hown (List.length issue_list) ltac:(lia))
    as (cur & d & flag & Hnth & _).
  assert (Hnone : nth_error issue_list (List.length issue_list) = None)
    by (apply nth_error_None; lia).
  congruence.
Qed.

(** Row alignment is never reached with a short sequence: once the file
    is open, the extractors have returned at least [RATE_LIMIT] pull
    request fragments and exactly [RATE_LIMIT] commit fragments and, in
    "pr" mode, issue fragments. *)
Lemma aligned_sequences_are_never_short
    fuel output_type issues_list pr_list w rows :
  csvfile (write_csv_output fuel output_type (issues_list, pr_list) w)
  = Some rows ->
  exists pm cl w1 cm w2 im w3,
    get_PR_info fuel pr_list output_type w = (Returned (pm, cl), w1) /\
    get_commit_info fuel cl output_type w1 = (Returned cm, w2) /\
    (if (output_type =? "pr")%string
     then get_issue_info fuel issues_list w2
     else (Returned [], w2)) = (Returned im, w3) /\
    RATE_LIMIT <= Z.of_nat (List.length pm) /\
    Z.of_nat (List.length cm) = RATE_LIMIT /\
    ((output_type =? "pr")%string = true ->
     Z.of_nat (List.length im) = RATE_LIMIT).
Proof.
  unfold write_csv_output.
  destruct (get_PR_info fuel pr_list output_type w)
    as [[[pm cl]|e|] w1] eqn:HPR; try discriminate.
  destruct (get_commit_info fuel cl output_type w1)
    as [[cm|e|] w2] eqn:HC; try discriminate.
  destruct (if (output_type =? "pr")%string
            then get_issue_info fuel issues_list w2
            else (Returned [], w2)) as [[im|e|] w3] eqn:HI;
    try discriminate.
  intros _. exists pm, cl, w1, cm, w2, im, w3.
  split; [reflexivity|]. split; [exact HC|]. split; [exact HI|].
  apply get_PR_info_returned in HPR. destruct HPR as (l & Hl & -> & ->).
  pose proof (get_PR_info_loop_returns _ _ _ _ _ _ Hl) as [Hidx _].
  apply get_PR_info_loop_readable in Hl.
  destruct Hl as (_ & _ & Hmany & _).
  apply get_commit_info_returned in HC. destruct HC as (lc & Hlc & ->).
  apply get_commit_info_loop_returns in Hlc. destruct Hlc as [_ Hcm].
  split; [lia|]. split; [exact Hcm|].
  intros Hmode. rewrite Hmode in HI.
  apply get_issue_info_returned in HI. destruct HI as (li & Hli & ->).
  apply get_issue_info_loop_returns in Hli. now destruct Hli.
Qed.

(** C4, as the code has it: there is no error of misaligned extraction
    and no check of lengths. A source that is shorter than the fetch
    bound, fewer than [RATE_LIMIT] pull requests or, in "pr" mode, fewer
    than [RATE_LIMIT] issues, makes the run raise inside the extractor,
    whatever the service refuses: [IndexError], the exception of the
    look-up itself, or [AttributeError] when, in "pr" mode, a pull
    request or an issue met before the end of the source is still open.
    The output file has not been opened by then, so row alignment is
    not reached and nothing is written. *)
Theorem short_source_raises_before_the_file
    fuel output_type issues_list pr_list w
    (Hfuel : (5 + List.length (throttle w) < fuel)%nat)
    (Hshort : Z.of_nat (List.length pr_list) < RATE_LIMIT
              \/ ((output_type =? "pr")%string = true
                  /\ Z.of_nat (List.length issues_list) < RATE_LIMIT)) :
  exists e,
    ending (write_csv_output fuel output_type (issues_list, pr_list) w)
    = Raised e
    /\ csvfile (write_csv_output fuel output_type (issues_list, pr_list) w)
       = None
    /\ (e = IndexError
        \/ (e = AttributeError
            /\ (output_type =? "pr")%string = true
            /\ ((exists cur_pr,
                    In cur_pr pr_list /\ pr_closed_at cur_pr = None)
                \/ (exists cur_issue,
                       In cur_issue issues_list
                       /\ issue_closed_at cur_issue = None)))).
Proof.
  unfold write_csv_output.
  pose proof (get_PR_info_terminates fuel pr_list output_type w Hfuel) as T1.
  pose proof (get_PR_info_throttle fuel pr_list output_type w) as L1.
  unfold get_PR_info in *.
  destruct (get_PR_info_loop fuel pr_list output_type PR_init w)
    as [[l|e|] w1] eqn:Hl; simpl in T1, L1.
  - (* the pull requests were enough: the issues are short *)
    pose proof (get_PR_info_loop_needs_pulls _ _ _ _ _ _ Hl) as Hpulls.
    destruct Hshort as [Hshort|[Hmode Hshort]]; [lia|].
    pose proof (get_PR_info_loop_returns _ _ _ _ _ _ Hl) as [_ Hlen].
    destruct (get_commit_info_loop_runs fuel (commits_list l) output_type w1
                ltac:(lia) ltac:(lia)) as (lc & w2 & Hlc & L2).
    unfold get_commit_info. rewrite Hlc, Hmode.
    pose proof (get_issue_info_terminates fuel issues_list w2 ltac:(lia))
      as T3.
    unfold get_issue_info in *.
    destruct (get_issue_info_loop fuel issues_list issue_init w2)
      as [[li|e|] w3] eqn:Hli; simpl in T3.
    + apply get_issue_info_loop_needs_issues in Hli. lia.
    + exists e. cbn [ending csvfile].
      split; [reflexivity|]. split; [reflexivity|].
      apply get_issue_info_loop_raises in Hli.
      destruct Hli as [->|(-> & Hopen)]; [now left|].
      right. split; [reflexivity|]. split; [reflexivity|]. now right.
    + now destruct T3.
  - exists e. cbn [ending csvfile].
    split; [reflexivity|]. split; [reflexivity|].
    apply get_PR_info_loop_raises in Hl.
    destruct Hl as [->|(-> & Hmode & Hopen)]; [now left|].
    right. split; [reflexivity|]. split; [exact Hmode|]. now left.
  - now destruct T1.
Qed.

Lemma short_source_raises_before_the_file_witness :
  (5 + List.length (throttle throttled_once) < 8)%nat
  /\ (Z.of_nat (List.length (firstn 4 prs_ok)) < RATE_LIMIT
      \/ (("pr" =? "pr")%string = true
          /\ Z.of_nat (List.length issues_ok) < RATE_LIMIT))
  /\ exists e,
      ending (write_csv_output 8 "pr" (issues_ok, firstn 4 prs_ok)
                throttled_once) = Raised e
      /\ csvfile (write_csv_output 8 "pr" (issues_ok, firstn 4 prs_ok)
                    throttled_once) = None
      /\ (e = IndexError
          \/ (e = AttributeError
              /\ ("pr" =? "pr")%string = true
              /\ ((exists cur_pr,
                      In cur_pr (firstn 4 prs_ok)
                      /\ pr_closed_at cur_pr = None)
                  \/ (exists cur_issue,
                         In cur_issue issues_ok
                         /\ issue_closed_at cur_issue = None)))).
Proof.
  assert (Hfuel : (5 + List.length (throttle throttled_once) < 8)%nat)
    by (simpl; lia).
  assert (Hshort : Z.of_nat (List.length (firstn 4 prs_ok)) < RATE_LIMIT
                   \/ (("pr" =? "pr")%string = true
                       /\ Z.of_nat (List.length issues_ok) < RATE_LIMIT))
    by (left; reflexivity).
  split; [exact Hfuel|]. split; [exact Hshort|].
  exact (short_source_raises_before_the_file 8 "pr" issues_ok
           (firstn 4 prs_ok) throttled_once Hfuel Hshort).
Defined.

(** C4, against the claim: a repository with four pull requests, and in
    "pr" mode one with four closed issues, ends the run in the
    [IndexError] of the look-up at index 4 inside the extractor; no
    file has been opened, and no error of its own is raised for the
    short source. *)
Lemma short_sources_end_in_IndexError :
  write_csv_output 6 "commit" (issues_ok, firstn 4 prs_ok) (unthrottled 0)
  = mkRun (Raised IndexError) None (unthrottled 0)
  /\ write_csv_output 6 "pr" (issues_ok, firstn 4 prs_ok) (unthrottled 0)
     = mkRun (Raised IndexError) None (unthrottled 0)
  /\ write_csv_output 6 "pr" (firstn 4 issues_ok, prs_ok) (unthrottled 0)
     = mkRun (Raised IndexError) None (unthrottled 0).
Proof. repeat split; vm_compute; reflexivity. Qed.

End Sources.

(* ===================================================================== *)
(** * Comment counts in what the extractors return *)
(* ===================================================================== *)

Module CommentCounts.
Import Py GitHub Eff Extractor Progress Invariants Samples Loops Alignment
       Normalisation Backoff Extraction Success Sources.

Lemma get_PR_info_try_kept pr_list output_type l w r l' w' :
  kept_fragments pr_list output_type l ->
  get_PR_info_try pr_list output_type l w = (r, l', w') ->
  kept_fragments pr_list output_type l'.
Proof.
  intros (Hi & Hall & Hread) H.
  pose proof (conj Hi (conj Hall Hread)) as Hkept.
  rewrite get_PR_info_try_eq in H.
  destruct (request w) as [w1|]; [|injection H as <- <- <-; exact Hkept].
  destruct (lookup pr_list (index l)) as [cur|] eqn:Hcur;
    [|injection H as <- <- <-; exact Hkept].
  destruct (PR_info_list_of output_type cur) as [e|info] eqn:Hinfo;
    [injection H as <- <- <-; exact Hkept|].
  cbv zeta in H.
  assert (Hall' : forall f, In f (pr_metalist l ++ [info]) ->
             exists cur_pr,
               In cur_pr pr_list
               /\ PR_info_list_of output_type cur_pr = inr f).
  { intros f Hf. apply in_app_or in Hf. destruct Hf as [Hf|[<-|[]]].
    - now apply Hall.
    - exists cur. split; [eapply lookup_In; eauto|assumption]. }
  assert (Hread1 : forall j, Z.of_nat j < index l ->
             exists cur_pr info0,
               nth_error pr_list j = Some cur_pr /\
               PR_info_list_of output_type cur_pr = inr info0 /\
               In info0 (pr_metalist l ++ [info])).
  { intros j Hj. destruct (Hread j Hj) as (p & f & Hp & Hf & Hin).
    exists p, f. split; [assumption|]. split; [assumption|].
    apply in_or_app. now left. }
  assert (Hread2 : forall j, Z.of_nat j < index l + 1 ->
             exists cur_pr info0,
               nth_error pr_list j = Some cur_pr /\
               PR_info_list_of output_type cur_pr = inr info0 /\
               In info0 (pr_metalist l ++ [info])).
  { intros j Hj. destruct (Z.eq_dec (Z.of_nat j) (index l)) as [E|E].
    - exists cur, info. split; [|split; [assumption|]].
      + rewrite <- lookup_nth_error, E. assumption.
      + apply in_or_app. right. now left.
    - apply Hread1. lia. }
  assert (Hrefused : kept_fragments pr_list output_type (PR_appended info l)).
  { unfold kept_fragments. locals_simpl.
    split; [assumption|]. split; assumption. }
  assert (Hdone : forall ref,
             kept_fragments pr_list output_type
               (PR_advanced ref (PR_appended info l))).
  { intros ref. unfold kept_fragments. locals_simpl.
    split; [lia|]. split; assumption. }
  destruct (request w1) as [w2|]; [|injection H as <- <- <-; assumption].
  destruct (rev (pr_commits cur)) as [|c0 r0].
  - injection H as <- <- <-. apply Hdone.
  - destruct (request w2) as [w3|]; injection H as <- <- <-;
      [apply Hdone|assumption].
Qed.

Lemma get_PR_info_loop_kept fuel pr_list output_type w l w' :
  get_PR_info_loop fuel pr_list output_type PR_init w = (Returned l, w') ->
  kept_fragments pr_list output_type l.
Proof.
  intros Hl.
  apply (while_try_invariant (kept_fragments pr_list output_type)) in Hl.
  - apply Hl.
  - intros. eapply get_PR_info_try_kept; eauto.
  - unfold kept_fragments. simpl. split; [lia|]. split.
    + intros f [].
    + intros j Hj. lia.
Qed.

(** C8: the comment counts in what the extractors return. Given a
    closed pull request and a closed issue at each of the first
    [RATE_LIMIT] indices, [get_PR_info] in "pr" mode and [get_issue_info]
    return, whatever the service refuses. Every pull request passed has
    its fragment among those returned, every fragment returned is that
    of a pull request of the list, and the fragment at index [i] of those
    of the issues is that of issue [i]; in each of them the comment
    field is the sentinel literal when the raw count is exactly 0 and the
    decimal string of the count otherwise. *)
Theorem comment_counts_serialize_by_the_sentinel_law
    fuel pr_list issue_list w
    (Hfuel : (5 + List.length (throttle w) < fuel)%nat)
    (Hpulls : pulls_readable "pr" pr_list)
    (Hissues : issues_readable issue_list) :
  (exists pm cl,
      fst (get_PR_info fuel pr_list "pr" w) = Returned (pm, cl)
      /\ (forall i cur_pr,
             Z.of_nat i < RATE_LIMIT ->
             nth_error pr_list i = Some cur_pr ->
             exists f,
               In f pm
               /\ PR_info_list_of "pr" cur_pr = inr f
               /\ nth_error f 4
                  = Some (VStr (if pr_comments cur_pr =? 0 then SENTINEL
                                else str_int (pr_comments cur_pr))))
      /\ (forall f, In f pm ->
            exists cur_pr,
              In cur_pr pr_list
              /\ PR_info_list_of "pr" cur_pr = inr f
              /\ nth_error f 4
                 = Some (VStr (if pr_comments cur_pr =? 0 then SENTINEL
                               else str_int (pr_comments cur_pr)))))
  /\ (exists im,
         fst (get_issue_info fuel issue_list w) = Returned im
         /\ Z.of_nat (List.length im) = RATE_LIMIT
         /\ forall i cur_issue,
              Z.of_nat i < RATE_LIMIT ->
              nth_error issue_list i = Some cur_issue ->
              exists f,
                nth_error im i = Some f
                /\ nth_error f 4
                   = Some (VStr (if issue_comments cur_issue =? 0
                                 then SENTINEL
                                 else str_int (issue_comments cur_issue)))).
Proof.
  split.
  - destruct (get_PR_info_loop_reads fuel pr_list "pr" w Hpulls Hfuel)
      as (l & w' & Hl & _).
    unfold get_PR_info. rewrite Hl.
    exists (pr_metalist l), (commits_list l). split; [reflexivity|].
    pose proof (get_PR_info_loop_returns _ _ _ _ _ _ Hl) as [Hidx _].
    apply get_PR_info_loop_kept in Hl. destruct Hl as (_ & Hall & Hread).
    split.
    + intros i cur_pr Hi Hnth.
      destruct (Hread i ltac:(lia)) as (p & f & Hp & Hf & Hin).
      assert (p = cur_pr) by congruence. subst p.
      exists f. split; [assumption|]. split; [assumption|].
      now apply PR_info_list_of_comment_field.
    + intros f Hin. destruct (Hall f Hin) as (p & Hp & Hf).
      exists p. split; [assumption|]. split; [assumption|].
      now apply PR_info_list_of_comment_field.
  - destruct (get_issue_info_loop_succeeds fuel issue_list w Hissues Hfuel)
      as (l & w' & Hl).
    unfold get_issue_info. rewrite Hl.
    exists (issue_metalist l). split; [reflexivity|].
    pose proof (get_issue_info_loop_returns _ _ _ _ _ Hl) as [Hidx Hlen].
    split; [exact Hlen|].
    apply get_issue_info_loop_own_issues in Hl.
    destruct Hl as [(_ & _ & Hown) _].
    intros i cur_issue Hi Hnth.
    destruct (Hown i ltac:(lia)) as (c & d & flag & Hc & _ & Hf & _).
    assert (c = cur_issue) by congruence. subst c.
    eexists. split; [exact Hf|].
    apply issue_context_list_of_comment_field.
Qed.

Lemma comment_counts_serialize_by_the_sentinel_law_witness :
  (5 + List.length (throttle throttled_once) < 8)%nat
  /\ pulls_readable "pr" prs_gap
  /\ issues_readable issues_ok
  /\ (exists pm cl,
         fst (get_PR_info 8 prs_gap "pr" throttled_once) = Returned (pm, cl)
         /\ (forall i cur_pr,
                Z.of_nat i < RATE_LIMIT ->
                nth_error prs_gap i = Some cur_pr ->
                exists f,
                  In f pm
                  /\ PR_info_list_of "pr" cur_pr = inr f
                  /\ nth_error f 4
                     = Some (VStr (if pr_comments cur_pr =? 0 then SENTINEL
                                   else str_int (pr_comments cur_pr))))
         /\ (forall f, In f pm ->
               exists cur_pr,
                 In cur_pr prs_gap
                 /\ PR_info_list_of "pr" cur_pr = inr f
                 /\ nth_error f 4
                    = Some (VStr (if pr_comments cur_pr =? 0 then SENTINEL
                                  else str_int (pr_comments cur_pr)))))
  /\ (exists im,
         fst (get_issue_info 8 issues_ok throttled_once) = Returned im
         /\ Z.of_nat (List.length im) = RATE_LIMIT
         /\ forall i cur_issue,
              Z.of_nat i < RATE_LIMIT ->
              nth_error issues_ok i = Some cur_issue ->
              exists f,
                nth_error im i = Some f
                /\ nth_error f 4
                   = Some (VStr (if issue_comments cur_issue =? 0
                                 then SENTINEL
                                 else str_int (issue_comments cur_issue)))).
Proof.
  assert (Hfuel : (5 + List.length (throttle throttled_once) < 8)%nat)
    by (simpl; lia).
  assert (Hpulls : pulls_readable "pr" prs_gap).
  { intros i Hi.
    destruct i as [|[|[|[|[|i]]]]];
      try (eexists; split; [reflexivity|discriminate]).
    exfalso. unfold RATE_LIMIT in Hi. lia. }
  assert (Hissues : issues_readable issues_ok).
  { intros i Hi.
    destruct i as [|[|[|[|[|i]]]]];
      try (eexists; split; [reflexivity|discriminate]).
    exfalso. unfold RATE_LIMIT in Hi. lia. }
  split; [exact Hfuel|]. split; [exact Hpulls|]. split; [exact Hissues|].
  exact (comment_counts_serialize_by_the_sentinel_law 8 prs_gap issues_ok
           throttled_once Hfuel Hpulls Hissues).
Defined.

End CommentCounts.
